(** * LineGraphVisualization: the data-shaping pipeline and the component

    A shallow embedding of [src/LineGraphVisualization.tsx]:
    [generateDateRange], [formatDate], [calculateSimpleMovingAverage], the
    body of the [.then] callback that turns the fetched records into
    [{ chartData, uniqueUCs }], and the component itself: its state, its
    event handlers, the animation and what it hands to the chart.

    Modelling conventions.
    - JavaScript strings are [string]s, one [ascii] per code unit.
    - JavaScript numbers are a parameter of the moving average (class
      [Arith]); the aggregation instantiates them with the rationals [Q],
      that is, with exact arithmetic: no rounding, no NaN, no infinity.
      What holds only without rounding (a moving average that stays
      between the least and the greatest of its values, say) is not stated.
    - A [Map<string, number>] is a [gmap string Q].  A chart row is an
      ordinary object, modelled by the [gmap string cell] of its own
      properties; an assignment [point[uc] = v] is [set_property], which
      creates no property named [__proto__].
    - A thrown exception is the [Throw] case of [completion].
    - A [Date] object is its time value: [Some t] with [t] in milliseconds
      since the epoch, or [None] for an invalid date (NaN).  The calendar
      functions are those of the ECMAScript specification.  [getDate] and
      [setDate] work in the local time of the host, [new Date(s)] for a
      date-only string and [toISOString] in UTC; the local time zone of
      the host is a parameter ([Host], the [LocalTZA] of the specification).
    - A [while] loop takes fuel.
    - [Array.prototype.sort] is a stable sort; for the comparator of the
      source, which is consistent on exact numbers, a stable sort has one
      result only ([stable_sort_unique]).
    - The state of the component is a record ([State.t]); a handler, a
      callback of a promise and a period of the interval are functions from
      state to state ([handle]), and a run of the component is a list of
      such events ([run]). *)

From Stdlib Require Import ZArith QArith List String Ascii Lia Lqa Permutation Sorted.
From stdpp Require Import gmap strings list.

Local Open Scope string_scope.
Local Open Scope list_scope.
Local Open Scope Z_scope.

(** ** Array.prototype.slice *)

(** [arr.slice(start, end)]: negative indices count from the end, both
    indices are clamped to the length. *)
Definition relative_index (len : Z) (k : Z) : Z :=
  if k <? 0 then Z.max (len + k) 0 else Z.min k len.

Definition slice {A : Type} (arr : list A) (start end_ : Z) : list A :=
  let len := Z.of_nat (length arr) in
  let k := relative_index len start in
  let final := relative_index len end_ in
  take (Z.to_nat (final - k)) (drop (Z.to_nat k) arr).

(** ** Numbers *)

Class Arith (num : Type) := {
  num_zero : num;
  num_add : num -> num -> num;
  num_div : num -> num -> num;
  num_of_nat : nat -> num
}.

#[export] Instance Q_Arith : Arith Q := {
  num_zero := 0%Q;
  num_add := Qplus;
  num_div := Qdiv;
  num_of_nat := fun n => inject_Z (Z.of_nat n)
}.

(** ** calculateSimpleMovingAverage *)

Section MovingAverage.
Context {num : Type} `{Arith num}.

(** [slice.reduce((acc, val) => acc + val, 0) / slice.length] *)
Definition window_average (window : list num) : num :=
  let sum := fold_left (fun acc val => num_add acc val) window num_zero in
  num_div sum (num_of_nat (length window)).

(** One iteration of the [for] loop: the value pushed for index [i]. *)
Definition sma_push (data : list num) (i : nat) (movingAverage : list num)
  : list num :=
  if (i <? 13)%nat then
    movingAverage ++ [nth i data num_zero]
  else
    let window := slice data (Z.of_nat i - 13) (Z.of_nat i + 1) in
    movingAverage ++ [window_average window].

(** The loop [for (let i = 0; i < data.length; i++)], with [n] the number
    of iterations left. *)
Fixpoint sma_loop (data : list num) (n : nat) (i : nat)
  (movingAverage : list num) : list num :=
  match n with
  | O => movingAverage
  | S n' => sma_loop data n' (S i) (sma_push data i movingAverage)
  end.

Definition calculateSimpleMovingAverage (data : list num) : list num :=
  sma_loop data (length data) 0 [].

(** The value the loop pushes at index [i], for the statements below. *)
Definition sma_value (data : list num) (i : nat) : num :=
  if (i <? 13)%nat then nth i data num_zero
  else window_average (slice data (Z.of_nat i - 13) (Z.of_nat i + 1)).
End MovingAverage.

(** ** String.prototype.split and padStart *)

(** [s.split(sep)] for a separator of one character.  The result is never
    empty: a string without the separator is returned as its only piece. *)
Fixpoint split (sep : ascii) (s : string) : list string :=
  match s with
  | EmptyString => [EmptyString]
  | String c s' =>
      if Ascii.eqb c sep then EmptyString :: split sep s'
      else match split sep s' with
           | piece :: pieces => String c piece :: pieces
           | [] => [String c EmptyString]
           end
  end.

Fixpoint repeat_char (c : ascii) (n : nat) : string :=
  match n with
  | O => EmptyString
  | S n' => String c (repeat_char c n')
  end.

(** [s.padStart(targetLength, c)] for a filler of one character. *)
Definition padStart (s : string) (targetLength : nat) (c : ascii) : string :=
  repeat_char c (targetLength - String.length s) +:+ s.

(** ** Time values and the calendar of ECMAScript Date objects *)

Definition msPerDay : Z := 86400000.
Definition msPerHour : Z := 3600000.
Definition msPerMinute : Z := 60000.
Definition msPerSecond : Z := 1000.

Definition Day (t : Z) : Z := t / msPerDay.
Definition TimeWithinDay (t : Z) : Z := t mod msPerDay.

Definition is_leap (y : Z) : bool :=
  ((y mod 4 =? 0) && negb (y mod 100 =? 0)) || (y mod 400 =? 0).

Definition DaysInYear (y : Z) : Z := if is_leap y then 366 else 365.

Definition DayFromYear (y : Z) : Z :=
  365 * (y - 1970) + (y - 1969) / 4 - (y - 1901) / 100 + (y - 1601) / 400.

(** [YearFromTime(t)] is the year [y] with
    [DayFromYear y <= Day t < DayFromYear (y + 1)].  It is computed from an
    estimate that is off by at most one year ([YearFromDay_spec] below). *)
Definition YearFromDay (d : Z) : Z :=
  let y := 1970 + (400 * d) / 146097 in
  if d <? DayFromYear y then y - 1
  else if DayFromYear (y + 1) <=? d then y + 1
  else y.

Definition YearFromTime (t : Z) : Z := YearFromDay (Day t).
Definition InLeapYear (t : Z) : Z := if is_leap (YearFromTime t) then 1 else 0.
Definition DayWithinYear (t : Z) : Z := Day t - DayFromYear (YearFromTime t).

(** Months are numbered from 0, as in ECMAScript. *)
Definition MonthFromTime (t : Z) : Z :=
  let d := DayWithinYear t in
  let l := InLeapYear t in
  if d <? 31 then 0
  else if d <? 59 + l then 1
  else if d <? 90 + l then 2
  else if d <? 120 + l then 3
  else if d <? 151 + l then 4
  else if d <? 181 + l then 5
  else if d <? 212 + l then 6
  else if d <? 243 + l then 7
  else if d <? 273 + l then 8
  else if d <? 304 + l then 9
  else if d <? 334 + l then 10
  else 11.

(** Number of days of the year before the first day of month [mn] (0-11). *)
Definition days_before_month (l : Z) (mn : Z) : Z :=
  match mn with
  | 0 => 0
  | 1 => 31
  | 2 => 59 + l
  | 3 => 90 + l
  | 4 => 120 + l
  | 5 => 151 + l
  | 6 => 181 + l
  | 7 => 212 + l
  | 8 => 243 + l
  | 9 => 273 + l
  | 10 => 304 + l
  | _ => 334 + l
  end.

Definition DateFromTime (t : Z) : Z :=
  DayWithinYear t - days_before_month (InLeapYear t) (MonthFromTime t) + 1.

(** [MakeDay(year, month, date)]: the day number of the first day of the
    month, plus [date - 1]; months beyond 0-11 carry into the year. *)
Definition MakeDay (year month date : Z) : Z :=
  let ym := year + month / 12 in
  let mn := month mod 12 in
  DayFromYear ym + days_before_month (if is_leap ym then 1 else 0) mn + date - 1.

Definition MakeDate (day time : Z) : Z := day * msPerDay + time.

(** A time value beyond 8.64e15 ms is not representable: NaN. *)
Definition TimeClip (t : Z) : option Z :=
  if Z.abs t <=? 8640000000000000 then Some t else None.

(** ** The local time zone of the host *)

(** [LocalTZA h t isUTC] is the offset of local time from UTC in
    milliseconds, at the UTC time [t] when [isUTC], at the local time [t]
    otherwise. *)
Record Host := { LocalTZA : Z -> bool -> Z }.

Definition LocalTime (h : Host) (t : Z) : Z := t + LocalTZA h t true.
Definition UTC (h : Host) (t : Z) : Z := t - LocalTZA h t false.

(** A zone without daylight saving time, [offset] ms ahead of UTC. *)
Definition fixed_zone (offset : Z) : Host := {| LocalTZA := fun _ _ => offset |}.

(** Asia/Karachi: UTC+5 all year. *)
Definition Asia_Karachi : Host := fixed_zone (5 * msPerHour).

(** America/New_York between 2024-03-10 and 2025-03-09: UTC-4 until the
    clocks go back on 2024-11-03 at 06:00 UTC (02:00 local daylight time),
    UTC-5 after.  A local time of the repeated hour is read with the offset
    before the transition. *)
Definition America_New_York : Host :=
  {| LocalTZA := fun t isUTC =>
       let transition := MakeDate (MakeDay 2024 10 3) 0 in
       if isUTC then
         if t <? transition + 6 * msPerHour then -4 * msPerHour else -5 * msPerHour
       else
         if t <? transition + 2 * msPerHour then -4 * msPerHour else -5 * msPerHour |}.

(** A host on which the same local time one day later is a later instant:
    the offset of its zone never grows by a whole day within one local
    day.  Zones with a fixed offset are such hosts, and so is New York. *)
Definition progressing (h : Host) : Prop :=
  forall t : Z, t < UTC h (LocalTime h t + msPerDay).

(** ** Date objects *)

(** [d.getDate()] *)
Definition getDate (h : Host) (tv : option Z) : option Z :=
  match tv with
  | Some t => Some (DateFromTime (LocalTime h t))
  | None => None
  end.

(** [d.setDate(dt)]: the new time value of [d]. *)
Definition setDate (h : Host) (tv : option Z) (dt : option Z) : option Z :=
  match tv, dt with
  | Some t0, Some dt =>
      let t := LocalTime h t0 in
      let newDate :=
        MakeDate (MakeDay (YearFromTime t) (MonthFromTime t) dt) (TimeWithinDay t) in
      TimeClip (UTC h newDate)
  | _, _ => None
  end.

(** Decimal digits. *)
Definition digit_char (n : Z) : ascii := ascii_of_N (Z.to_N (48 + n mod 10)).

Definition digit_val (c : ascii) : option Z :=
  let n := Z.of_N (N_of_ascii c) in
  if (48 <=? n) && (n <=? 57) then Some (n - 48) else None.

(** The last [k] decimal digits of [n], most significant first. *)
Fixpoint digits (k : nat) (n : Z) : string :=
  match k with
  | O => EmptyString
  | S k' => digits k' (n / 10) +:+ String (digit_char n) EmptyString
  end.

Fixpoint number_of_digits (s : string) (acc : Z) : option Z :=
  match s with
  | EmptyString => Some acc
  | String c s' =>
      match digit_val c with
      | Some v => number_of_digits s' (10 * acc + v)
      | None => None
      end
  end.

(** The date part of the ISO format: [YYYY-MM-DD], with the expanded year
    of six digits and a sign outside 0-9999. *)
Definition iso_year (y : Z) : string :=
  if (0 <=? y) && (y <=? 9999) then digits 4 y
  else (if y <? 0 then "-" else "+") +:+ digits 6 (Z.abs y).

Definition iso_date (y m d : Z) : string :=
  iso_year y +:+ "-" +:+ digits 2 m +:+ "-" +:+ digits 2 d.

(** [d.toISOString()] for a valid date [t]:
    [YYYY-MM-DDTHH:mm:ss.sssZ], in UTC. *)
Definition toISOString (t : Z) : string :=
  let ms := TimeWithinDay t in
  iso_date (YearFromTime t) (MonthFromTime t + 1) (DateFromTime t)
  +:+ "T" +:+ digits 2 (ms / msPerHour)
  +:+ ":" +:+ digits 2 ((ms / msPerMinute) mod 60)
  +:+ ":" +:+ digits 2 ((ms / msPerSecond) mod 60)
  +:+ "." +:+ digits 3 (ms mod 1000) +:+ "Z".

Definition DaysInMonth (y m : Z) : Z :=
  match m with
  | 2 => if is_leap y then 29 else 28
  | 4 | 6 | 9 | 11 => 30
  | _ => 31
  end.

(** A calendar date: month 1-12, day within the month. *)
Definition valid_date (y m d : Z) : bool :=
  (1 <=? m) && (m <=? 12) && (1 <=? d) && (d <=? DaysInMonth y m).

(** The fields of a date-only string [YYYY-MM-DD]. *)
Definition parse_date_only (s : string) : option (Z * Z * Z) :=
  match split "-" s with
  | [ys; ms; ds] =>
      if (String.length ys =? 4)%nat && (String.length ms =? 2)%nat
         && (String.length ds =? 2)%nat then
        match number_of_digits ys 0, number_of_digits ms 0, number_of_digits ds 0 with
        | Some y, Some m, Some d => Some (y, m, d)
        | _, _, _ => None
        end
      else None
  | _ => None
  end.

(** [new Date(s)] for a date-only string, which is read as UTC midnight.
    The month is in 01-12 and the day in 01-31; a day beyond the end of
    its month carries into the next month ([2024-02-30] is read as the
    first of March).  Any other string gives an invalid date. *)
Definition Date_of_string (s : string) : option Z :=
  match parse_date_only s with
  | Some (y, m, d) =>
      if (1 <=? m) && (m <=? 12) && (1 <=? d) && (d <=? 31) then
        TimeClip (MakeDate (MakeDay y (m - 1) d) 0)
      else None
  | None => None
  end.

(** ** generateDateRange *)

(** The [while (currentDate <= end)] loop.  A comparison with an invalid
    date is false.  [None] when [fuel] iterations were not enough. *)
Fixpoint generateDateRange_loop (h : Host) (fuel : nat)
  (currentDate end_ : option Z) (dates : list string) : option (list string) :=
  match fuel with
  | O => None
  | S fuel' =>
      match currentDate, end_ with
      | Some c, Some e =>
          if c <=? e then
            let dates' := dates ++ [hd EmptyString (split "T" (toISOString c))] in
            let next :=
              setDate h currentDate
                (option_map (fun dt => dt + 1) (getDate h currentDate)) in
            generateDateRange_loop h fuel' next end_ dates'
          else Some dates
      | _, _ => Some dates
      end
  end.

Definition generateDateRange (h : Host) (fuel : nat) (startDate endDate : string)
  : option (list string) :=
  generateDateRange_loop h fuel (Date_of_string startDate) (Date_of_string endDate) [].

(** ** Calendar dates, for the statements about [generateDateRange] *)

(** The calendar date one day after the date [c]: the next day of the
    month, else the first day of the next month, else the first of January
    of the next year. *)
Definition next_day (c : Z * Z * Z) : Z * Z * Z :=
  let '(y, m, d) := c in
  if d <? DaysInMonth y m then (y, m, d + 1)
  else if m <? 12 then (y, m + 1, 1)
  else (y + 1, 1, 1).

(** Year, month (1-12) and day of the month of a time value, in UTC. *)
Definition civil_of_time (t : Z) : Z * Z * Z :=
  (YearFromTime t, MonthFromTime t + 1, DateFromTime t).

(** The day number of a calendar date: days since 1970-01-01. *)
Definition day_of_civil (c : Z * Z * Z) : Z :=
  let '(y, m, d) := c in MakeDay y (m - 1) d.

Definition iso_of_civil (c : Z * Z * Z) : string :=
  let '(y, m, d) := c in iso_date y m d.

(** A canonical date: a calendar date with a year of four digits. *)
Definition canonical (c : Z * Z * Z) : bool :=
  let '(y, m, d) := c in (0 <=? y) && (y <=? 9999) && valid_date y m d.

(** The order of triples: by year, then month, then day. *)
Definition civil_compare (c1 c2 : Z * Z * Z) : comparison :=
  let '(y1, m1, d1) := c1 in
  let '(y2, m2, d2) := c2 in
  match y1 ?= y2 with
  | Eq => match m1 ?= m2 with
          | Eq => d1 ?= d2
          | c => c
          end
  | c => c
  end.

(** The dates of [n] consecutive days, from the time value [c] on. *)
Definition date_strings (c : Z) (n : nat) : list string :=
  map (fun i => iso_of_civil (civil_of_time (c + Z.of_nat i * msPerDay))) (seq 0 n).

(** Whether the character [c] occurs in [s]. *)
Fixpoint occurs (c : ascii) (s : string) : bool :=
  match s with
  | EmptyString => false
  | String c' s' => Ascii.eqb c' c || occurs c s'
  end.

(** ** Exceptions *)

Inductive exn : Type :=
| TypeError.

Inductive completion (A : Type) : Type :=
| Return (a : A)
| Throw (e : exn).

Arguments Return {A} a.
Arguments Throw {A} e.

#[export] Instance completion_bind : MBind completion :=
  fun A B (k : A -> completion B) (c : completion A) =>
    match c with
    | Return a => k a
    | Throw e => Throw e
    end.

(** ** formatDate *)

(** [`${v}`] for a value that is a string or [undefined]. *)
Definition template_string (v : option string) : string :=
  match v with
  | Some s => s
  | None => "undefined"
  end.

(** [v.padStart(2, '0')]; a method call on [undefined] throws. *)
Definition call_padStart (v : option string) : completion string :=
  match v with
  | Some s => Return (padStart s 2 "0")
  | None => Throw TypeError
  end.

Definition formatDate (dateString : string) : completion string :=
  let parts := split "/" dateString in
  let month := parts !! 0%nat in
  let day := parts !! 1%nat in
  let year := parts !! 2%nat in
  let yyyy := template_string year in
  mm ← call_padStart month;
  dd ← call_padStart day;
  Return (yyyy +:+ "-" +:+ mm +:+ "-" +:+ dd).

(** ** The records and the chart rows *)

Record DataItem := {
  name : string;
  confirmation_date : string;
  value : Q
}.

(** A property of a chart row: the date string or a number. *)
Inductive cell : Type :=
| CellString (s : string)
| CellNumber (q : Q).

Abbreviation ChartDataPoint := (gmap string cell).

Module ProcessedData.
Record t := make {
  chartData : list ChartDataPoint;
  uniqueUCs : list string
}.
End ProcessedData.

(** ** The [.then] callback: from the records to the chart data *)

(** [new Set(...)] keeps the first occurrence of each element, in order. *)
Definition Set_add (s : list string) (x : string) : list string :=
  if decide (x ∈ s) then s else s ++ [x].

(** [[...new Set(jsonData.map(item => item.name))]] *)
Definition uniqueUCs (jsonData : list DataItem) : list string :=
  fold_left Set_add (map name jsonData) [].

(** The key [`${uc}-${date}`] of the lookup. *)
Definition lookup_key (uc date : string) : string := uc +:+ "-" +:+ date.

(** [jsonData.forEach(item => { ... dataLookup.set(key, Number(item.value)) })]
    from the lookup [m] built so far. *)
Fixpoint dataLookup_loop (jsonData : list DataItem) (m : gmap string Q)
  : completion (gmap string Q) :=
  match jsonData with
  | [] => Return m
  | item :: rest =>
      formattedDate ← formatDate (confirmation_date item);
      let key := lookup_key (name item) formattedDate in
      dataLookup_loop rest (<[key := value item]> m)
  end.

Definition dataLookup (jsonData : list DataItem) : completion (gmap string Q) :=
  dataLookup_loop jsonData ∅.

(** [v || 0] for [v] a number or [undefined]. *)
Definition or_zero (v : option Q) : Q :=
  match v with
  | Some q => if Qeq_bool q 0 then 0%Q else q
  | None => 0%Q
  end.

Record UCTotal := {
  ucName : string;
  total : Q
}.

(** [dateRange.reduce((sum, date) => sum + (dataLookup.get(key) || 0), 0)] *)
Definition uc_total (lookup : gmap string Q) (dateRange : list string)
  (uc : string) : Q :=
  fold_left (fun sum date => (sum + or_zero (lookup !! lookup_key uc date))%Q)
    dateRange 0%Q.

Definition ucTotals (lookup : gmap string Q) (dateRange : list string)
  (ucs : list string) : list UCTotal :=
  map (fun uc => {| ucName := uc; total := uc_total lookup dateRange uc |}) ucs.

(** [Array.prototype.sort] is stable: [x] goes after the elements [y] of
    the sorted rest with [comparefn x y > 0] and before the first other. *)
Fixpoint sort_insert {A : Type} (comparefn : A -> A -> Q) (x : A) (l : list A)
  : list A :=
  match l with
  | [] => [x]
  | y :: l' =>
      if Qlt_le_dec 0 (comparefn x y) then y :: sort_insert comparefn x l'
      else x :: l
  end.

Fixpoint sort {A : Type} (comparefn : A -> A -> Q) (l : list A) : list A :=
  match l with
  | [] => []
  | x :: l' => sort_insert comparefn x (sort comparefn l')
  end.

(** [ucTotals.sort((a, b) => b.total - a.total).slice(0, topN).map(uc => uc.name)] *)
Definition topUCs (totals : list UCTotal) (topN : Z) : list string :=
  map ucName (slice (sort (fun a b => (total b - total a)%Q) totals) 0 topN).

(** [point[uc] = v] on a chart row, for a value [v] that is a string or a
    number.  A row is an ordinary object, and [__proto__] is an accessor
    property of [Object.prototype]: on a row without an own property of
    that name the assignment calls the setter, which ignores a value that
    is not an object, and no property is created.  Under every other name
    the property is created or overwritten. *)
Definition set_property (uc : string) (v : cell) (point : ChartDataPoint)
  : ChartDataPoint :=
  match point !! uc with
  | Some _ => <[uc := v]> point
  | None => if decide (uc = "__proto__") then point else <[uc := v]> point
  end.

(** The row of [date]: [{ date }], then one assignment per selected
    series. *)
Definition dataPoint_of (lookup : gmap string Q) (top : list string)
  (date : string) : ChartDataPoint :=
  fold_left
    (fun dataPoint uc =>
       set_property uc (CellNumber (or_zero (lookup !! lookup_key uc date)))
         dataPoint)
    top {["date" := CellString date]}.

Definition formattedData (lookup : gmap string Q) (top : list string)
  (dateRange : list string) : list ChartDataPoint :=
  map (dataPoint_of lookup top) dateRange.

(** [point[uc] as number], on a row that holds a number under [uc].  The
    rows of [formattedData] do for every selected series but one named
    [__proto__].  For that name the source reads [Object.prototype] from
    every row, and what the loop computes from it is that object again
    below index 13 and NaN from there on: assigned to [__proto__], the one
    is the prototype that the row has already and the other is no object,
    so the row stays as it is.  The 0 below stands for such a value; on
    the rows of [formattedData] it is written nowhere. *)
Definition read_number (point : ChartDataPoint) (uc : string) : Q :=
  match point !! uc with
  | Some (CellNumber q) => q
  | _ => 0%Q
  end.

(** One round of the smoothing loop: column [uc] of the shared rows is read,
    averaged and written back with [point[uc] = movingAverage[index]]. *)
Definition smooth_column (rows : list ChartDataPoint) (uc : string)
  : list ChartDataPoint :=
  let ucData := map (fun point => read_number point uc) rows in
  let movingAverage := calculateSimpleMovingAverage ucData in
  imap (fun index point =>
          set_property uc (CellNumber (nth index movingAverage 0%Q)) point)
    rows.

Definition smooth (rows : list ChartDataPoint) (top : list string)
  : list ChartDataPoint :=
  fold_left smooth_column top rows.

(** Lines 113 and 122-159: the value passed to [setData], or the exception
    that reaches [.catch]. *)
Definition aggregate (jsonData : list DataItem) (dateRange : list string)
  (topN : Z) : completion ProcessedData.t :=
  let ucs := uniqueUCs jsonData in
  lookup ← dataLookup jsonData;
  let totals := ucTotals lookup dateRange ucs in
  let top := topUCs totals topN in
  let rows := formattedData lookup top dateRange in
  let rows := smooth rows top in
  Return (ProcessedData.make rows top).

(** The whole callback at the time [now], on the host [h]. *)
Definition processData (h : Host) (fuel : nat) (now : Z)
  (jsonData : list DataItem) (topN : Z)
  : option (completion ProcessedData.t) :=
  let startDate := "2024-07-01" in
  let endDate := hd EmptyString (split "T" (toISOString now)) in
  match generateDateRange h fuel startDate endDate with
  | Some dateRange => Some (aggregate jsonData dateRange topN)
  | None => None
  end.

(** ** The component: its state, its handlers and what it displays *)

(** The state of [LineGraphVisualization].  [error] holds the exception
    whose message the component shows.  The interval that drives the
    animation is the function [tick]; its period is not modelled. *)
Module State.
Record t := make {
  data : option ProcessedData.t;
  error : option exn;
  topN : Z;
  isPlaying : bool;
  currentIndex : Z;
  selectedUCs : list string
}.
End State.

Definition initial_state : State.t := State.make None None 10 false 0 [].

(** [getAnimatedData()] *)
Definition getAnimatedData (st : State.t) : list ChartDataPoint :=
  match State.data st with
  | None => []
  | Some d => slice (ProcessedData.chartData d) 0 (State.currentIndex st + 1)
  end.

(** The callback of the interval, for the data [d] of the effect:
    [setCurrentIndex(prevIndex => ...)], with its [setIsPlaying(false)]. *)
Definition interval_callback (d : ProcessedData.t) (st : State.t) : State.t :=
  let len := Z.of_nat (length (ProcessedData.chartData d)) in
  if State.currentIndex st >=? len - 1 then
    State.make (State.data st) (State.error st) (State.topN st) false (len - 1)
      (State.selectedUCs st)
  else
    State.make (State.data st) (State.error st) (State.topN st) (State.isPlaying st)
      (State.currentIndex st + 1) (State.selectedUCs st).

(** One period of the animation effect: the interval exists, and fires,
    when [isPlaying && data]. *)
Definition tick (st : State.t) : State.t :=
  match State.data st with
  | Some d => if State.isPlaying st then interval_callback d st else st
  | None => st
  end.

(** The end of the [.then] callback: [setData] and [setCurrentIndex]. *)
Definition on_loaded (r : ProcessedData.t) (st : State.t) : State.t :=
  State.make (Some r) (State.error st) (State.topN st) (State.isPlaying st)
    (Z.of_nat (length (ProcessedData.chartData r)) - 1) (State.selectedUCs st).

(** The [.catch] callback: [setError]. *)
Definition on_failed (e : exn) (st : State.t) : State.t :=
  State.make (State.data st) (Some e) (State.topN st) (State.isPlaying st)
    (State.currentIndex st) (State.selectedUCs st).

(** The [.then] callback on the fetched records, followed by [.catch] when
    it throws.  [None] when the fuel of the date loop was not enough. *)
Definition then_callback (h : Host) (fuel : nat) (now : Z)
  (jsonData : list DataItem) (st : State.t) : option State.t :=
  match processData h fuel now jsonData (State.topN st) with
  | Some (Return r) => Some (on_loaded r st)
  | Some (Throw e) => Some (on_failed e st)
  | None => None
  end.

(** [prevSelected.includes(uc) ? prevSelected.filter(name => name !== uc)
    : [...prevSelected, uc]] *)
Definition toggle_selected (uc : string) (prevSelected : list string) : list string :=
  if decide (uc ∈ prevSelected) then filter (fun name => name <> uc) prevSelected
  else prevSelected ++ [uc].

Definition toggleUCSelection (uc : string) (st : State.t) : State.t :=
  State.make (State.data st) (State.error st) (State.topN st) (State.isPlaying st)
    (State.currentIndex st) (toggle_selected uc (State.selectedUCs st)).

(** [selectedUCs.length ? selectedUCs : data?.uniqueUCs || []] *)
Definition displayedUCs (st : State.t) : list string :=
  match State.selectedUCs st with
  | [] => match State.data st with
          | Some d => ProcessedData.uniqueUCs d
          | None => []
          end
  | _ :: _ => State.selectedUCs st
  end.

Definition resetAnimation (st : State.t) : State.t :=
  State.make (State.data st) (State.error st) (State.topN st) false 0
    (State.selectedUCs st).

(** [data?.chartData.length || 0] *)
Definition chart_length (st : State.t) : Z :=
  match State.data st with
  | Some d => Z.of_nat (length (ProcessedData.chartData d))
  | None => 0
  end.

Definition togglePlay (st : State.t) : State.t :=
  if State.isPlaying st then
    State.make (State.data st) (State.error st) (State.topN st) false
      (State.currentIndex st) (State.selectedUCs st)
  else
    State.make (State.data st) (State.error st) (State.topN st) true
      (if State.currentIndex st >=? chart_length st - 1 then 0
       else State.currentIndex st)
      (State.selectedUCs st).

(** The [onChange] of the select: [setTopN(Number(e.target.value))]. *)
Definition setTopN (n : Z) (st : State.t) : State.t :=
  State.make (State.data st) (State.error st) n (State.isPlaying st)
    (State.currentIndex st) (State.selectedUCs st).

(** What the component returns: the error, the loading text or the chart. *)
Inductive view : Type :=
| ErrorView (e : exn)
| LoadingView
| ChartView (rows : list ChartDataPoint) (lines : list string).

Definition render (st : State.t) : view :=
  match State.error st with
  | Some e => ErrorView e
  | None =>
      match State.data st with
      | None => LoadingView
      | Some _ => ChartView (getAnimatedData st) (displayedUCs st)
      end
  end.

(** The events of the component, and the states it can reach. *)
Inductive event : Type :=
| Loaded (r : ProcessedData.t)
| Failed (e : exn)
| Tick
| TogglePlay
| ResetAnimation
| ToggleUC (uc : string)
| SetTopN (n : Z).

Definition handle (ev : event) (st : State.t) : State.t :=
  match ev with
  | Loaded r => on_loaded r st
  | Failed e => on_failed e st
  | Tick => tick st
  | TogglePlay => togglePlay st
  | ResetAnimation => resetAnimation st
  | ToggleUC uc => toggleUCSelection uc st
  | SetTopN n => setTopN n st
  end.

Definition run (evs : list event) (st : State.t) : State.t :=
  fold_left (fun s ev => handle ev s) evs st.

(** ** The lines of the chart and the labels of its axis *)

Definition COLORS : list string :=
  [ "#2196F3"; "#FF5722"; "#4CAF50"; "#9C27B0"; "#FF9800";
    "#E91E63"; "#00BCD4"; "#8BC34A"; "#673AB7"; "#FFC107" ].

(** [COLORS[index % COLORS.length]] *)
Definition stroke (index : nat) : option string :=
  COLORS !! (index mod length COLORS)%nat.

(** The [Line] elements, [displayedUCs.map((uc, index) => ...)]: the
    [dataKey] and the [stroke] of each. *)
Definition chart_lines (st : State.t) : list (string * option string) :=
  imap (fun index uc => (uc, stroke index)) (displayedUCs st).

(** The calendar date that [new Date(date).toLocaleDateString('en-US', ...)]
    formats: the date of the instant in the local time of the host.  [None]
    for an invalid date, which is formatted as [Invalid Date]. *)
Definition local_date (h : Host) (date : string) : option (Z * Z * Z) :=
  match Date_of_string date with
  | Some t => Some (civil_of_time (LocalTime h t))
  | None => None
  end.

(** The [tickFormatter] of the X axis shows the month and the day of the
    month of that date; the [labelFormatter] of the tooltip the year too. *)
Definition tickFormatter (h : Host) (date : string) : option (Z * Z) :=
  match local_date h date with
  | Some (_, m, d) => Some (m, d)
  | None => None
  end.

Definition labelFormatter (h : Host) (date : string) : option (Z * Z * Z) :=
  local_date h date.

(** ** Notions of the statements about the aggregation *)

(** A string of decimal digits. *)
Fixpoint all_digits (s : string) : bool :=
  match s with
  | EmptyString => true
  | String c s' =>
      match digit_val c with
      | Some _ => all_digits s'
      | None => false
      end
  end.

Definition numeric (s : string) : bool :=
  negb (String.eqb s EmptyString) && all_digits s.

(** The raw date has exactly three components, all of them numeric. *)
Definition well_formed_raw_date (s : string) : bool :=
  match split "/" s with
  | [month; day; year] => numeric month && numeric day && numeric year
  | _ => false
  end.

(** The distinct elements of a list, in the order of their first occurrence. *)
Fixpoint first_occurrences (l : list string) : list string :=
  match l with
  | [] => []
  | x :: l' => x :: filter (fun y => y <> x) (first_occurrences l')
  end.

(** The comparator [(a, b) => key(b) - key(a)], and the order it sorts by. *)
Definition by_key_desc {A : Type} (key : A -> Q) (a b : A) : Q := (key b - key a)%Q.

Definition desc {A : Type} (key : A -> Q) (a b : A) : Prop := (key b <= key a)%Q.

(** The key under which a record is stored, when its date can be formatted. *)
Definition item_key (item : DataItem) : completion string :=
  formattedDate ← formatDate (confirmation_date item);
  Return (lookup_key (name item) formattedDate).

(** A record of the series [uc] on the date [date]: it is named [uc] and
    its date is formatted as [date]. *)
Definition matches (uc date : string) (item : DataItem) : bool :=
  match formatDate (confirmation_date item) with
  | Return d => bool_decide (name item = uc) && bool_decide (d = date)
  | Throw _ => false
  end.

(** The value of the last record of the series [uc] on the date [date], if
    there is one. *)
Definition series_value (jsonData : list DataItem) (uc date : string) : option Q :=
  last (map value (filter (fun item => matches uc date item = true) jsonData)).

(** The cell that the densification writes for [uc] on [date]. *)
Definition dense_cell (lookup : gmap string Q) (uc date : string) : cell :=
  CellNumber (or_zero (lookup !! lookup_key uc date)).

(** The column of [uc]: the numbers the smoothing loop reads. *)
Definition column (uc : string) (rows : list ChartDataPoint) : list Q :=
  map (fun point => read_number point uc) rows.

(** A missing entry of the lookup reads as 0. *)
Definition read_or_zero (lookup : gmap string Q) (k : string) : Q :=
  match lookup !! k with
  | Some v => v
  | None => 0%Q
  end.

Definition Qsum (l : list Q) : Q := fold_right Qplus 0%Q l.

(** The index of the animation is in range: a row of the chart, or 0 or -1
    when the chart has no rows; 0 before the data is there. *)
Definition index_ok (st : State.t) : Prop :=
  match State.data st with
  | None => State.currentIndex st = 0
  | Some d =>
      let len := Z.of_nat (length (ProcessedData.chartData d)) in
      (-1 <= State.currentIndex st <= 0 /\ len = 0)
      \/ (0 <= State.currentIndex st <= len - 1)
  end.

(** ** Example data *)

(** Records of three series: A and B with the same total, C below. *)
Definition example_records : list DataItem :=
  [ {| name := "A"; confirmation_date := "7/1/2024"; value := 10 |};
    {| name := "B"; confirmation_date := "7/1/2024"; value := 30 |};
    {| name := "C"; confirmation_date := "7/2/2024"; value := 10 |};
    {| name := "A"; confirmation_date := "7/2/2024"; value := 20 |} ].

Definition example_axis : list string := ["2024-07-01"; "2024-07-02"].

Definition example_lookup : gmap string Q :=
  <["A-2024-07-02" := 20%Q]>
    (<["C-2024-07-02" := 10%Q]>
       (<["B-2024-07-01" := 30%Q]> (<["A-2024-07-01" := 10%Q]> ∅))).

(** * Properties *)

(** ** slice *)

Lemma slice_nat {A : Type} (arr : list A) (s e : nat) :
  (s <= e <= length arr)%nat ->
  slice arr (Z.of_nat s) (Z.of_nat e) = take (e - s) (drop s arr).
Proof.
  intros Hse. unfold slice, relative_index.
  destruct (Z.ltb_spec (Z.of_nat s) 0); [lia|].
  destruct (Z.ltb_spec (Z.of_nat e) 0); [lia|].
  rewrite !Z.min_l by lia.
  rewrite <- Nat2Z.inj_sub by lia. by rewrite !Nat2Z.id.
Qed.

Lemma slice_prefix {A : Type} (arr : list A) (n : Z) :
  0 <= n -> slice arr 0 n = take (Z.to_nat n) arr.
Proof.
  intros Hn. unfold slice, relative_index. simpl.
  destruct (Z.ltb_spec n 0); [lia|].
  rewrite (Z.min_l 0) by lia. rewrite Z.sub_0_r. simpl.
  destruct (Z.min_spec n (Z.of_nat (length arr))) as [[? ->]|[? ->]]; [done|].
  rewrite Nat2Z.id, (take_ge arr (Z.to_nat n)) by lia. by rewrite take_ge.
Qed.

(** ** calculateSimpleMovingAverage *)

Section MovingAverageFacts.
Context {num : Type} `{Arith num}.

Lemma sma_loop_map (data : list num) (n i : nat) (acc : list num) :
  sma_loop data n i acc = acc ++ map (sma_value data) (seq i n).
Proof.
  revert i acc. induction n as [|n IH]; intros i acc; simpl.
  - by rewrite app_nil_r.
  - rewrite IH. unfold sma_push, sma_value.
    destruct (i <? 13)%nat; by rewrite <- app_assoc.
Qed.

Lemma sma_map (data : list num) :
  calculateSimpleMovingAverage data = map (sma_value data) (seq 0 (length data)).
Proof. unfold calculateSimpleMovingAverage. by rewrite sma_loop_map. Qed.

Lemma sma_length (data : list num) :
  length (calculateSimpleMovingAverage data) = length data.
Proof. by rewrite sma_map, length_map, length_seq. Qed.

Lemma sma_lookup (data : list num) (i : nat) :
  (i < length data)%nat ->
  calculateSimpleMovingAverage data !! i = Some (sma_value data i).
Proof.
  intros Hi. rewrite sma_map, list_lookup_fmap, lookup_seq_lt by done. done.
Qed.

Lemma sma_window (data : list num) (i : nat) :
  (13 <= i < length data)%nat ->
  slice data (Z.of_nat i - 13) (Z.of_nat i + 1) = take 14 (drop (i - 13) data).
Proof.
  intros Hi.
  replace (Z.of_nat i - 13) with (Z.of_nat (i - 13)) by lia.
  replace (Z.of_nat i + 1) with (Z.of_nat (S i)) by lia.
  rewrite slice_nat by lia. f_equal. lia.
Qed.

Lemma sma_value_prefix (data : list num) (i : nat) :
  (i < length data)%nat ->
  sma_value (take (S i) data) i = sma_value data i.
Proof.
  intros Hi. unfold sma_value. destruct (Nat.ltb_spec i 13).
  - rewrite !nth_lookup, lookup_take_lt by lia. done.
  - rewrite !sma_window by (rewrite ?length_take; lia). f_equal.
    apply list_eq. intros k.
    destruct (decide (k < 14)%nat).
    + rewrite !lookup_take_lt, !lookup_drop, lookup_take_lt by lia. done.
    + rewrite !lookup_take_ge by lia. done.
Qed.
End MovingAverageFacts.

(** C1. The moving average has the length of its input; an index below 13
    keeps the raw value; an index [i >= 13] holds the mean of the 14 values
    [data[i-13] .. data[i]], that is their sum from the left divided by 14;
    and the value at [i] depends on [data[0] .. data[i]] only. *)
Theorem calculateSimpleMovingAverage_spec {num : Type} `{Arith num}
  (data : list num) :
  length (calculateSimpleMovingAverage data) = length data
  /\ (forall i : nat, (i < 13)%nat ->
        calculateSimpleMovingAverage data !! i = data !! i)
  /\ (forall i : nat, (13 <= i)%nat -> (i < length data)%nat ->
        exists window : list num,
          length window = 14%nat
          /\ (forall k : nat, (k < 14)%nat -> window !! k = data !! (i - 13 + k)%nat)
          /\ calculateSimpleMovingAverage data !! i
             = Some (num_div (fold_left num_add window num_zero) (num_of_nat 14)))
  /\ (forall (data' : list num) (i : nat),
        (i < length data)%nat -> (i < length data')%nat ->
        take (S i) data = take (S i) data' ->
        calculateSimpleMovingAverage data !! i
        = calculateSimpleMovingAverage data' !! i).
Proof.
  split; [apply sma_length|]. split; [|split].
  - intros i Hi. destruct (decide (i < length data)%nat) as [Hlt|Hge].
    + rewrite sma_lookup by done. unfold sma_value.
      destruct (Nat.ltb_spec i 13); [|lia].
      destruct (lookup_lt_is_Some_2 data i Hlt) as [x Hx].
      rewrite Hx. f_equal. by apply nth_lookup_Some with (d := num_zero).
    + rewrite !lookup_ge_None_2; [done|lia|rewrite sma_length; lia].
  - intros i Hi Hlt. exists (take 14 (drop (i - 13) data)).
    split; [|split].
    + rewrite length_take, length_drop. lia.
    + intros k Hk. by rewrite lookup_take_lt, lookup_drop by lia.
    + rewrite sma_lookup by done. unfold sma_value.
      destruct (Nat.ltb_spec i 13); [lia|].
      rewrite sma_window by lia. unfold window_average.
      rewrite length_take, length_drop. do 3 f_equal. lia.
  - intros data' i Hi Hi' Heq. rewrite !sma_lookup by done.
    by rewrite <- (sma_value_prefix data), <- (sma_value_prefix data'), Heq.
Qed.

(** The window of C1 on the input [1, 2, ..., 21]: index 13 holds the mean
    of [data[0..13]], index 20 the mean of [data[7..20]]. *)
Lemma calculateSimpleMovingAverage_spec_witness :
  exists window : list Q,
    length window = 14%nat
    /\ (forall k : nat, (k < 14)%nat ->
          window !! k = map (fun n => inject_Z (Z.of_nat n)) (seq 1 21) !! (20 - 13 + k)%nat)
    /\ calculateSimpleMovingAverage (map (fun n => inject_Z (Z.of_nat n)) (seq 1 21)) !! 20%nat
       = Some (num_div (fold_left num_add window num_zero) (num_of_nat 14)).
Proof.
  apply (calculateSimpleMovingAverage_spec
           (map (fun n => inject_Z (Z.of_nat n)) (seq 1 21))); simpl; lia.
Defined.

(** On exact numbers the value of a window is the sum of its values divided
    by their number. *)
Lemma window_average_Q (window : list Q) :
  (window_average window == Qsum window / inject_Z (Z.of_nat (length window)))%Q.
Proof.
  unfold window_average. simpl.
  assert (forall acc : Q, (fold_left Qplus window acc == acc + Qsum window)%Q) as Hsum.
  { induction window as [|x window IH]; intros acc; simpl; [lra|].
    rewrite IH. lra. }
  by rewrite Hsum, Qplus_0_l.
Qed.

(** The moving average of [1, 2, ..., 21]: 13 raw values, then the means of
    [data[0..13]], ..., [data[7..20]]. *)
Example calculateSimpleMovingAverage_21 :
  calculateSimpleMovingAverage (map (fun n => inject_Z (Z.of_nat n)) (seq 1 21))
  = map (fun n => inject_Z (Z.of_nat n)) (seq 1 13)
    ++ [105 # 14; 119 # 14; 133 # 14; 147 # 14; 161 # 14; 175 # 14; 189 # 14;
        203 # 14]%Q.
Proof. reflexivity. Qed.

(** ** The calendar *)

Lemma is_leap_cases (y : Z) :
  (is_leap y = true /\ (y mod 4 = 0 /\ (y mod 100 <> 0 \/ y mod 400 = 0)))
  \/ (is_leap y = false /\ (y mod 4 <> 0 \/ (y mod 100 = 0 /\ y mod 400 <> 0))).
Proof.
  unfold is_leap.
  destruct (Z.eqb_spec (y mod 4) 0), (Z.eqb_spec (y mod 100) 0),
    (Z.eqb_spec (y mod 400) 0); simpl; Z.div_mod_to_equations; lia.
Qed.

Lemma DayFromYear_succ (y : Z) : DayFromYear (y + 1) = DayFromYear y + DaysInYear y.
Proof.
  unfold DayFromYear, DaysInYear.
  destruct (is_leap_cases y) as [[-> Hl]|[-> Hl]]; Z.div_mod_to_equations; lia.
Qed.

Lemma YearFromDay_spec (d : Z) :
  DayFromYear (YearFromDay d) <= d < DayFromYear (YearFromDay d + 1).
Proof.
  unfold YearFromDay.
  set (y := 1970 + 400 * d / 146097).
  destruct (Z.ltb_spec d (DayFromYear y)) as [Hlt|Hge].
  - split; [|by replace (y - 1 + 1) with y by lia].
    revert Hlt. subst y. unfold DayFromYear. Z.div_mod_to_equations; lia.
  - destruct (Z.leb_spec (DayFromYear (y + 1)) d) as [Hle|Hgt]; [|lia].
    split; [done|]. revert Hle. subst y. unfold DayFromYear.
    Z.div_mod_to_equations; lia.
Qed.

Lemma DayFromYear_mono (a b : Z) : a <= b -> DayFromYear a <= DayFromYear b.
Proof. unfold DayFromYear. intros. Z.div_mod_to_equations; lia. Qed.

Lemma YearFromDay_unique (d y : Z) :
  DayFromYear y <= d < DayFromYear (y + 1) -> YearFromDay d = y.
Proof.
  intros Hy. pose proof (YearFromDay_spec d) as HY.
  destruct (Z.lt_trichotomy (YearFromDay d) y) as [Hlt|[Heq|Hgt]]; [|done|].
  - pose proof (DayFromYear_mono (YearFromDay d + 1) y). lia.
  - pose proof (DayFromYear_mono (y + 1) (YearFromDay d)). lia.
Qed.

Lemma Day_MakeDate (n ms : Z) : 0 <= ms < msPerDay -> Day (MakeDate n ms) = n.
Proof. unfold Day, MakeDate, msPerDay. intros. Z.div_mod_to_equations; lia. Qed.

Lemma TimeWithinDay_MakeDate (n ms : Z) :
  0 <= ms < msPerDay -> TimeWithinDay (MakeDate n ms) = ms.
Proof. unfold TimeWithinDay, MakeDate, msPerDay. intros. Z.div_mod_to_equations; lia. Qed.

Lemma MakeDate_Day (t : Z) : MakeDate (Day t) (TimeWithinDay t) = t.
Proof. unfold MakeDate, Day, TimeWithinDay, msPerDay. Z.div_mod_to_equations; lia. Qed.

Lemma DayWithinYear_range (t : Z) :
  0 <= DayWithinYear t < 365 + InLeapYear t.
Proof.
  unfold DayWithinYear, InLeapYear, YearFromTime.
  pose proof (YearFromDay_spec (Day t)) as Hs.
  rewrite DayFromYear_succ in Hs. unfold DaysInYear in Hs.
  destruct (is_leap (YearFromDay (Day t))); lia.
Qed.

Lemma InLeapYear_cases (t : Z) : InLeapYear t = 0 \/ InLeapYear t = 1.
Proof. unfold InLeapYear. destruct (is_leap _); auto. Qed.

Ltac split_ltb :=
  repeat match goal with
         | |- context [?a <? ?b] => destruct (Z.ltb_spec a b)
         | |- context [?a <=? ?b] => destruct (Z.leb_spec a b)
         end.

Lemma MonthFromTime_range (t : Z) : 0 <= MonthFromTime t <= 11.
Proof. unfold MonthFromTime. split_ltb; lia. Qed.

(** [MakeDay] undoes the decomposition of a time value into year, month
    and date. *)
Lemma MakeDay_civil (t : Z) :
  MakeDay (YearFromTime t) (MonthFromTime t) (DateFromTime t) = Day t.
Proof.
  pose proof (MonthFromTime_range t) as Hm.
  unfold MakeDay, DateFromTime.
  replace (MonthFromTime t / 12) with 0 by (Z.div_mod_to_equations; lia).
  replace (MonthFromTime t mod 12) with (MonthFromTime t)
    by (Z.div_mod_to_equations; lia).
  rewrite Z.add_0_r. fold (InLeapYear t). unfold DayWithinYear. lia.
Qed.

Lemma MonthFromTime_spec (t : Z) :
  days_before_month (InLeapYear t) (MonthFromTime t) <= DayWithinYear t
  < days_before_month (InLeapYear t) (MonthFromTime t)
    + DaysInMonth (YearFromTime t) (MonthFromTime t + 1).
Proof.
  pose proof (DayWithinYear_range t) as Hd.
  unfold MonthFromTime, InLeapYear in *. unfold DaysInMonth.
  destruct (is_leap (YearFromTime t)); split_ltb; simpl; lia.
Qed.

Lemma civil_valid (t : Z) :
  valid_date (YearFromTime t) (MonthFromTime t + 1) (DateFromTime t) = true.
Proof.
  pose proof (MonthFromTime_spec t) as Hs.
  pose proof (MonthFromTime_range t) as Hm.
  unfold valid_date, DateFromTime.
  repeat (apply andb_true_intro; split); apply Z.leb_le; lia.
Qed.

Lemma valid_date_cases (y m d : Z) :
  valid_date y m d = true ->
  1 <= m <= 12 /\ 1 <= d <= DaysInMonth y m.
Proof.
  unfold valid_date. rewrite !andb_true_iff, !Z.leb_le. lia.
Qed.

Ltac month_cases m H :=
  let E := fresh in
  assert (m = 1 \/ m = 2 \/ m = 3 \/ m = 4 \/ m = 5 \/ m = 6 \/ m = 7
          \/ m = 8 \/ m = 9 \/ m = 10 \/ m = 11 \/ m = 12) as E by lia;
  clear H;
  repeat (destruct E as [E|E]; [subst m|]); [..|subst m].

(** The decomposition of a time value undoes [MakeDay] on a calendar date. *)
Lemma civil_MakeDay (y m d ms : Z) :
  valid_date y m d = true -> 0 <= ms < msPerDay ->
  civil_of_time (MakeDate (MakeDay y (m - 1) d) ms) = (y, m, d).
Proof.
  intros Hv Hms. apply valid_date_cases in Hv as [Hm Hd].
  set (t := MakeDate (MakeDay y (m - 1) d) ms).
  assert (Day t = MakeDay y (m - 1) d) as HD by (by apply Day_MakeDate).
  assert (MakeDay y (m - 1) d
          = DayFromYear y + days_before_month (if is_leap y then 1 else 0) (m - 1) + d - 1)
    as HM.
  { unfold MakeDay.
    replace ((m - 1) / 12) with 0 by (Z.div_mod_to_equations; lia).
    replace ((m - 1) mod 12) with (m - 1) by (Z.div_mod_to_equations; lia).
    by rewrite Z.add_0_r. }
  assert (YearFromTime t = y) as HY.
  { unfold YearFromTime. rewrite HD, HM. apply YearFromDay_unique.
    rewrite DayFromYear_succ. unfold DaysInYear.
    month_cases m Hm; revert Hd; simpl; destruct (is_leap y); lia. }
  assert (DayWithinYear t
          = days_before_month (if is_leap y then 1 else 0) (m - 1) + d - 1) as HW.
  { unfold DayWithinYear. rewrite HY, HD, HM. lia. }
  assert (MonthFromTime t = m - 1) as HMo.
  { unfold MonthFromTime, InLeapYear. rewrite HW, HY.
    month_cases m Hm; revert Hd; simpl; destruct (is_leap y); intros;
      split_ltb; lia. }
  unfold civil_of_time. rewrite HY, HMo. f_equal; [f_equal; lia|].
  unfold DateFromTime, InLeapYear. rewrite HW, HMo, HY. lia.
Qed.

Lemma next_day_valid (y m d : Z) :
  valid_date y m d = true ->
  let '(y', m', d') := next_day (y, m, d) in valid_date y' m' d' = true.
Proof.
  intros Hv. apply valid_date_cases in Hv as [Hm Hd]. unfold next_day.
  destruct (Z.ltb_spec d (DaysInMonth y m)).
  - unfold valid_date. repeat (apply andb_true_intro; split); apply Z.leb_le; lia.
  - destruct (Z.ltb_spec m 12).
    + unfold valid_date. repeat (apply andb_true_intro; split); apply Z.leb_le; try lia.
      clear Hd H. month_cases m Hm; simpl; try destruct (is_leap y); lia.
    + done.
Qed.

Lemma MakeDay_next_day (y m d : Z) :
  valid_date y m d = true ->
  let '(y', m', d') := next_day (y, m, d) in
  MakeDay y' (m' - 1) d' = MakeDay y (m - 1) d + 1.
Proof.
  intros Hv. apply valid_date_cases in Hv as [Hm Hd]. unfold next_day.
  destruct (Z.ltb_spec d (DaysInMonth y m)) as [Hlt|Hge].
  - unfold MakeDay. lia.
  - assert (d = DaysInMonth y m) as -> by lia. clear Hd Hge.
    destruct (Z.ltb_spec m 12) as [Hlt|Hge].
    + unfold MakeDay.
      replace ((m + 1 - 1) / 12) with 0 by (Z.div_mod_to_equations; lia).
      replace ((m - 1) / 12) with 0 by (Z.div_mod_to_equations; lia).
      replace ((m + 1 - 1) mod 12) with m by (Z.div_mod_to_equations; lia).
      replace ((m - 1) mod 12) with (m - 1) by (Z.div_mod_to_equations; lia).
      rewrite Z.add_0_r.
      month_cases m Hm; simpl; try destruct (is_leap y); lia.
    + assert (m = 12) as -> by lia. unfold MakeDay. simpl.
      rewrite !Z.add_0_r, DayFromYear_succ. unfold DaysInYear.
      destruct (is_leap y), (is_leap (y + 1)); lia.
Qed.

(** The calendar date of the day after [t] is the next calendar date. *)
Lemma civil_next_day (t : Z) :
  civil_of_time (t + msPerDay) = next_day (civil_of_time t).
Proof.
  pose proof (civil_valid t) as Hv.
  pose proof (MakeDay_next_day _ _ _ Hv) as Hn.
  pose proof (next_day_valid _ _ _ Hv) as Hv'.
  unfold civil_of_time at 2.
  destruct (next_day _) as [[y' m'] d'].
  rewrite <- (civil_MakeDay y' m' d' (TimeWithinDay t)); [|done|].
  - f_equal. rewrite Hn. replace (MonthFromTime t + 1 - 1) with (MonthFromTime t) by lia.
    rewrite MakeDay_civil. rewrite <- (MakeDate_Day t) at 1. unfold MakeDate. lia.
  - unfold TimeWithinDay, msPerDay. Z.div_mod_to_equations; lia.
Qed.

(** ** Strings and digits *)

Lemma occurs_app (c : ascii) (a b : string) :
  occurs c (a +:+ b) = occurs c a || occurs c b.
Proof. induction a as [|x a IH]; simpl; [done|]. by rewrite IH, orb_assoc. Qed.

Lemma split_no_sep (sep : ascii) (a : string) :
  occurs sep a = false -> split sep a = [a].
Proof.
  induction a as [|x a IH]; simpl; [done|].
  intros [Hx Ha]%orb_false_elim. by rewrite Hx, IH.
Qed.

Lemma split_app_sep (sep : ascii) (a b : string) :
  occurs sep a = false ->
  split sep (a +:+ String sep b) = a :: split sep b.
Proof.
  induction a as [|x a IH]; simpl.
  - intros _. by rewrite Ascii.eqb_refl.
  - intros [Hx Ha]%orb_false_elim. by rewrite Hx, IH.
Qed.

Lemma split_length (sep : ascii) (s : string) : (0 < length (split sep s))%nat.
Proof.
  induction s as [|x s IH]; simpl; [lia|].
  destruct (Ascii.eqb x sep); simpl; [lia|].
  destruct (split sep s); simpl in *; lia.
Qed.

Lemma mod10_cases (n : Z) :
  let r := n mod 10 in
  r = 0 \/ r = 1 \/ r = 2 \/ r = 3 \/ r = 4 \/ r = 5 \/ r = 6 \/ r = 7 \/ r = 8 \/ r = 9.
Proof. simpl. Z.div_mod_to_equations; lia. Qed.

Ltac digit_cases n :=
  unfold digit_char;
  let H := fresh in
  pose proof (mod10_cases n) as H; simpl in H;
  repeat (destruct H as [H|H]; [rewrite H|]); [..|rewrite H].

Lemma digit_val_char (n : Z) : digit_val (digit_char n) = Some (n mod 10).
Proof. digit_cases n; reflexivity. Qed.

Lemma digit_char_not (c : ascii) (n : Z) :
  digit_val c = None -> Ascii.eqb (digit_char n) c = false.
Proof.
  intros Hc. destruct (Ascii.eqb_spec (digit_char n) c) as [<-|]; [|done].
  by rewrite digit_val_char in Hc.
Qed.

Lemma digits_occurs (c : ascii) (k : nat) (n : Z) :
  digit_val c = None -> occurs c (digits k n) = false.
Proof.
  intros Hc. revert n. induction k as [|k IH]; intros n; simpl; [done|].
  rewrite occurs_app, IH. simpl. by rewrite digit_char_not.
Qed.

Lemma string_length_app (a b : string) :
  String.length (a +:+ b) = (String.length a + String.length b)%nat.
Proof. induction a as [|x a IH]; simpl; [done|]. by rewrite IH. Qed.

Lemma digits_length (k : nat) (n : Z) : String.length (digits k n) = k.
Proof.
  revert n. induction k as [|k IH]; intros n; simpl; [done|].
  rewrite string_length_app, IH. simpl. lia.
Qed.

Lemma number_of_digits_app (a b : string) (acc : Z) :
  number_of_digits (a +:+ b) acc
  = match number_of_digits a acc with
    | Some acc' => number_of_digits b acc'
    | None => None
    end.
Proof.
  revert acc. induction a as [|x a IH]; intros acc; simpl; [done|].
  destruct (digit_val x); [apply IH|done].
Qed.

Lemma number_of_digits_digits (k : nat) (n acc : Z) :
  number_of_digits (digits k n) acc
  = Some (acc * 10 ^ Z.of_nat k + n mod 10 ^ Z.of_nat k).
Proof.
  revert n acc. induction k as [|k IH]; intros n acc.
  - simpl. f_equal. rewrite Z.mod_1_r. lia.
  - cbn [digits]. rewrite number_of_digits_app, IH. cbn [number_of_digits].
    rewrite digit_val_char. f_equal.
    rewrite Nat2Z.inj_succ, Z.pow_succ_r by lia.
    assert (0 < 10 ^ Z.of_nat k) by (apply Z.pow_pos_nonneg; lia).
    rewrite (Z.rem_mul_r n 10 (10 ^ Z.of_nat k)) by lia. ring.
Qed.

(** ** generateDateRange *)

Lemma iso_date_occurs (c : ascii) (y m d : Z) :
  digit_val c = None -> Ascii.eqb "-" c = false -> Ascii.eqb "+" c = false ->
  occurs c (iso_date y m d) = false.
Proof.
  intros Hc Hm Hp. unfold iso_date, iso_year.
  assert (forall s, occurs c ("-" +:+ s) = occurs c s) as Hdash.
  { intros s. change ("-" +:+ s) with (String "-" s). cbn [occurs]. by rewrite Hm. }
  rewrite occurs_app, Hdash, occurs_app, Hdash, !digits_occurs by done.
  rewrite !orb_false_r.
  destruct (_ && _); [by apply digits_occurs|].
  rewrite occurs_app, digits_occurs by done.
  destruct (y <? 0).
  - change (occurs c "-") with (Ascii.eqb "-" c || false). by rewrite Hm.
  - change (occurs c "+") with (Ascii.eqb "+" c || false). by rewrite Hp.
Qed.

(** [toISOString().split('T')[0]] is the date part. *)
Lemma toISOString_date (t : Z) :
  hd EmptyString (split "T" (toISOString t)) = iso_of_civil (civil_of_time t).
Proof.
  unfold toISOString.
  match goal with
  | |- context [?a +:+ "T" +:+ ?b] => change (a +:+ "T" +:+ b) with (a +:+ String "T" b)
  end.
  rewrite split_app_sep; [done|]. by apply iso_date_occurs.
Qed.

Lemma parse_iso_date (y m d : Z) :
  0 <= y <= 9999 -> 0 <= m <= 99 -> 0 <= d <= 99 ->
  parse_date_only (iso_date y m d) = Some (y, m, d).
Proof.
  intros Hy Hm Hd. unfold parse_date_only, iso_date, iso_year.
  destruct (Z.leb_spec 0 y); [|lia]. destruct (Z.leb_spec y 9999); [|lia].
  cbn [andb].
  change (digits 4 y +:+ "-" +:+ digits 2 m +:+ "-" +:+ digits 2 d)
    with (digits 4 y +:+ String "-" (digits 2 m +:+ String "-" (digits 2 d))).
  rewrite split_app_sep by (by apply digits_occurs).
  rewrite split_app_sep by (by apply digits_occurs).
  rewrite split_no_sep by (by apply digits_occurs).
  rewrite !digits_length, !number_of_digits_digits. cbn [Nat.eqb andb].
  change (10 ^ Z.of_nat 4) with 10000. change (10 ^ Z.of_nat 2) with 100.
  rewrite !Z.mod_small by lia. done.
Qed.

Lemma DaysInMonth_le (y m : Z) : DaysInMonth y m <= 31.
Proof. unfold DaysInMonth. destruct m as [|p|p]; try lia.
  do 5 (try destruct p as [p|p|]; try lia); destruct (is_leap y); lia. Qed.

Lemma canonical_cases (y m d : Z) :
  canonical (y, m, d) = true ->
  0 <= y <= 9999 /\ valid_date y m d = true.
Proof. unfold canonical. rewrite !andb_true_iff, !Z.leb_le. tauto. Qed.

Lemma MakeDay_bounds (y m d : Z) :
  0 <= y <= 9999 -> valid_date y m d = true ->
  -719528 <= MakeDay y (m - 1) d <= 2932898.
Proof.
  intros Hy [Hm Hd]%valid_date_cases.
  pose proof (DaysInMonth_le y m).
  pose proof (DayFromYear_mono 0 y). pose proof (DayFromYear_mono y 9999).
  change (DayFromYear 0) with (-719528) in *.
  change (DayFromYear 9999) with 2932532 in *.
  unfold MakeDay.
  replace ((m - 1) / 12) with 0 by (Z.div_mod_to_equations; lia).
  replace ((m - 1) mod 12) with (m - 1) by (Z.div_mod_to_equations; lia).
  rewrite Z.add_0_r.
  month_cases m Hm; simpl; destruct (is_leap y); lia.
Qed.

(** [new Date(s)] on a canonical date is its UTC midnight. *)
Lemma Date_of_canonical (c : Z * Z * Z) :
  canonical c = true ->
  Date_of_string (iso_of_civil c) = Some (day_of_civil c * msPerDay).
Proof.
  destruct c as [[y m] d]. intros [Hy Hv]%canonical_cases.
  pose proof (MakeDay_bounds y m d Hy Hv) as Hb.
  pose proof (DaysInMonth_le y m).
  destruct (valid_date_cases _ _ _ Hv) as [Hm Hd].
  unfold Date_of_string, iso_of_civil, day_of_civil.
  rewrite parse_iso_date by lia.
  destruct (Z.leb_spec 1 m); [|lia]. destruct (Z.leb_spec m 12); [|lia].
  destruct (Z.leb_spec 1 d); [|lia]. destruct (Z.leb_spec d 31); [|lia].
  cbn [andb]. unfold TimeClip, MakeDate.
  rewrite Z.add_0_r.
  destruct (Z.leb_spec (Z.abs (MakeDay y (m - 1) d * msPerDay)) 8640000000000000);
    [done|]. unfold msPerDay in *. lia.
Qed.

Lemma MakeDay_succ (y m d : Z) : MakeDay y m (d + 1) = MakeDay y m d + 1.
Proof. unfold MakeDay. lia. Qed.

(** In a zone without daylight saving time, [setDate(getDate() + 1)] adds
    24 hours. *)
Lemma setDate_next_fixed (offset c : Z) :
  Z.abs (c + msPerDay) <= 8640000000000000 ->
  setDate (fixed_zone offset) (Some c)
    (option_map (fun dt => dt + 1) (getDate (fixed_zone offset) (Some c)))
  = Some (c + msPerDay).
Proof.
  intros Hc. unfold setDate, getDate, option_map, LocalTime, UTC. simpl.
  rewrite MakeDay_succ, MakeDay_civil.
  replace (MakeDate (Day (c + offset) + 1) (TimeWithinDay (c + offset)) - offset)
    with (c + msPerDay).
  - unfold TimeClip. by destruct (Z.leb_spec (Z.abs (c + msPerDay)) 8640000000000000); [|lia].
  - pose proof (MakeDate_Day (c + offset)) as Ht. revert Ht.
    generalize (Day (c + offset)), (TimeWithinDay (c + offset)).
    unfold MakeDate, msPerDay. lia.
Qed.

Lemma date_strings_succ (c : Z) (n : nat) :
  date_strings c (S n) = iso_of_civil (civil_of_time c) :: date_strings (c + msPerDay) n.
Proof.
  unfold date_strings. cbn [seq map]. f_equal.
  - f_equal. f_equal. lia.
  - rewrite <- seq_shift, map_map. apply map_ext. intros i. do 2 f_equal. lia.
Qed.

Lemma generateDateRange_loop_fixed (offset e : Z) (n : nat) :
  forall (fuel : nat) (c : Z) (acc : list string),
    (n < fuel)%nat ->
    -8640000000000000 <= c -> e + msPerDay <= 8640000000000000 ->
    e < c + Z.of_nat n * msPerDay ->
    ((0 < n)%nat -> c + (Z.of_nat n - 1) * msPerDay <= e) ->
    generateDateRange_loop (fixed_zone offset) fuel (Some c) (Some e) acc
    = Some (acc ++ date_strings c n).
Proof.
  induction n as [|n IH]; intros fuel c acc Hfuel Hc He Hn Hn'.
  - destruct fuel as [|fuel]; [lia|]. cbn [generateDateRange_loop].
    destruct (Z.leb_spec c e); [unfold msPerDay in *; lia|].
    by rewrite app_nil_r.
  - destruct fuel as [|fuel]; [lia|]. cbn [generateDateRange_loop].
    destruct (Z.leb_spec c e); [|unfold msPerDay in *; lia].
    rewrite setDate_next_fixed by (unfold msPerDay in *; lia).
    rewrite IH by (unfold msPerDay in *; lia).
    by rewrite toISOString_date, date_strings_succ, <- app_assoc.
Qed.

Lemma civil_of_day_of_civil (c : Z * Z * Z) :
  (let '(y, m, d) := c in valid_date y m d) = true ->
  civil_of_time (day_of_civil c * msPerDay) = c.
Proof.
  destruct c as [[y m] d]. intros Hv.
  pose proof (civil_MakeDay y m d 0 Hv) as H.
  unfold MakeDate in H. rewrite Z.add_0_r in H. apply H. unfold msPerDay. lia.
Qed.

Lemma civil_iter (t : Z) (i : nat) :
  civil_of_time (t + Z.of_nat i * msPerDay) = Nat.iter i next_day (civil_of_time t).
Proof.
  induction i as [|i IH].
  - simpl. f_equal. lia.
  - rewrite Nat.iter_succ, <- IH, <- civil_next_day. f_equal. lia.
Qed.

Lemma day_of_civil_of_time (t : Z) : day_of_civil (civil_of_time t) = Day t.
Proof.
  unfold day_of_civil, civil_of_time.
  replace (MonthFromTime t + 1 - 1) with (MonthFromTime t) by lia.
  apply MakeDay_civil.
Qed.

Lemma Day_add (n i : Z) : Day (n * msPerDay + i * msPerDay) = n + i.
Proof. unfold Day, msPerDay. Z.div_mod_to_equations; lia. Qed.

Lemma YearFromDay_mono (d1 d2 : Z) : d1 <= d2 -> YearFromDay d1 <= YearFromDay d2.
Proof.
  intros Hd. pose proof (YearFromDay_spec d1). pose proof (YearFromDay_spec d2).
  destruct (Z.le_gt_cases (YearFromDay d1) (YearFromDay d2)) as [|Hgt]; [done|].
  pose proof (DayFromYear_mono (YearFromDay d2 + 1) (YearFromDay d1)). lia.
Qed.

Lemma canonical_year (c : Z * Z * Z) :
  canonical c = true -> 0 <= YearFromDay (day_of_civil c) <= 9999.
Proof.
  intros Hc. destruct c as [[y m] d].
  destruct (canonical_cases _ _ _ Hc) as [Hy Hv].
  pose proof (civil_of_day_of_civil (y, m, d) Hv) as Heq.
  unfold civil_of_time, YearFromTime in Heq.
  replace (Day (day_of_civil (y, m, d) * msPerDay)) with (day_of_civil (y, m, d)) in Heq
    by (unfold Day, msPerDay; Z.div_mod_to_equations; lia).
  injection Heq as Heq _ _. unfold day_of_civil in *. by rewrite Heq.
Qed.

Lemma string_compare_app (a1 a2 b1 b2 : string) :
  String.length a1 = String.length a2 ->
  String.compare (a1 +:+ b1) (a2 +:+ b2)
  = match String.compare a1 a2 with
    | Eq => String.compare b1 b2
    | c => c
    end.
Proof.
  revert a2. induction a1 as [|x a1 IH]; intros [|y a2] Hlen; try done.
  change (String.compare (String x (a1 +:+ b1)) (String y (a2 +:+ b2))
          = match String.compare (String x a1) (String y a2) with
            | Eq => String.compare b1 b2
            | c => c
            end).
  cbn [String.compare]. destruct (Ascii.compare x y); [|done..].
  apply IH. simpl in Hlen. lia.
Qed.

Lemma digit_char_compare (a b : Z) :
  Ascii.compare (digit_char a) (digit_char b) = (a mod 10 ?= b mod 10).
Proof.
  unfold Ascii.compare, digit_char.
  rewrite !N_ascii_embedding.
  - rewrite <- N2Z.inj_compare, !Z2N.id by (Z.div_mod_to_equations; lia).
    apply Z.add_compare_mono_l.
  - apply N2Z.inj_lt. rewrite Z2N.id by (Z.div_mod_to_equations; lia).
    simpl. Z.div_mod_to_equations; lia.
  - apply N2Z.inj_lt. rewrite Z2N.id by (Z.div_mod_to_equations; lia).
    simpl. Z.div_mod_to_equations; lia.
Qed.

Lemma compare_lex_10 (q1 r1 q2 r2 : Z) :
  0 <= r1 < 10 -> 0 <= r2 < 10 ->
  (r1 + 10 * q1 ?= r2 + 10 * q2)
  = match q1 ?= q2 with
    | Eq => r1 ?= r2
    | c => c
    end.
Proof.
  intros H1 H2. destruct (Z.compare_spec q1 q2) as [->|Hlt|Hgt].
  - rewrite !(Z.add_comm _ (10 * q2)). apply Z.add_compare_mono_l.
  - apply Z.compare_lt_iff. lia.
  - apply Z.compare_gt_iff. lia.
Qed.

Lemma digits_compare (k : nat) (a b : Z) :
  String.compare (digits k a) (digits k b)
  = (a mod 10 ^ Z.of_nat k ?= b mod 10 ^ Z.of_nat k).
Proof.
  revert a b. induction k as [|k IH]; intros a b.
  - simpl. by rewrite !Z.mod_1_r.
  - cbn [digits]. rewrite string_compare_app by (by rewrite !digits_length).
    rewrite IH. cbn [String.compare]. rewrite digit_char_compare.
    rewrite Nat2Z.inj_succ, Z.pow_succ_r by lia.
    assert (0 < 10 ^ Z.of_nat k) by (apply Z.pow_pos_nonneg; lia).
    rewrite !(Z.rem_mul_r _ 10 (10 ^ Z.of_nat k)) by lia.
    rewrite compare_lex_10 by (apply Z.mod_pos_bound; lia).
    destruct (_ ?= _); [|done..]. by destruct (_ ?= _).
Qed.

(** On canonical dates the order of the strings is the order of the dates. *)
Lemma iso_compare (c1 c2 : Z * Z * Z) :
  canonical c1 = true -> canonical c2 = true ->
  String.compare (iso_of_civil c1) (iso_of_civil c2) = civil_compare c1 c2.
Proof.
  destruct c1 as [[y1 m1] d1], c2 as [[y2 m2] d2].
  intros [Hy1 Hv1]%canonical_cases [Hy2 Hv2]%canonical_cases.
  destruct (valid_date_cases _ _ _ Hv1) as [Hm1 Hd1].
  destruct (valid_date_cases _ _ _ Hv2) as [Hm2 Hd2].
  pose proof (DaysInMonth_le y1 m1). pose proof (DaysInMonth_le y2 m2).
  unfold iso_of_civil, iso_date, iso_year, civil_compare.
  destruct (Z.leb_spec 0 y1); [|lia]. destruct (Z.leb_spec y1 9999); [|lia].
  destruct (Z.leb_spec 0 y2); [|lia]. destruct (Z.leb_spec y2 9999); [|lia].
  cbn [andb].
  change (digits 4 y1 +:+ "-" +:+ digits 2 m1 +:+ "-" +:+ digits 2 d1)
    with (digits 4 y1 +:+ String "-" (digits 2 m1 +:+ String "-" (digits 2 d1))).
  change (digits 4 y2 +:+ "-" +:+ digits 2 m2 +:+ "-" +:+ digits 2 d2)
    with (digits 4 y2 +:+ String "-" (digits 2 m2 +:+ String "-" (digits 2 d2))).
  rewrite string_compare_app by (by rewrite !digits_length).
  rewrite digits_compare. change (10 ^ Z.of_nat 4) with 10000.
  rewrite !(Z.mod_small _ 10000) by lia.
  destruct (y1 ?= y2); [|done..].
  cbn [String.compare]. change (Ascii.compare "-" "-") with Eq. cbn iota.
  rewrite string_compare_app by (by rewrite !digits_length).
  rewrite digits_compare. change (10 ^ Z.of_nat 2) with 100.
  rewrite !(Z.mod_small _ 100) by lia.
  destruct (m1 ?= m2); [|done..].
  cbn [String.compare]. change (Ascii.compare "-" "-") with Eq. cbn iota.
  rewrite digits_compare. change (10 ^ Z.of_nat 2) with 100.
  by rewrite !(Z.mod_small _ 100) by lia.
Qed.

Lemma MakeDay_month (y m d : Z) :
  1 <= m <= 12 ->
  MakeDay y (m - 1) d
  = DayFromYear y + days_before_month (if is_leap y then 1 else 0) (m - 1) + d - 1.
Proof.
  intros Hm. unfold MakeDay.
  replace ((m - 1) / 12) with 0 by (Z.div_mod_to_equations; lia).
  replace ((m - 1) mod 12) with (m - 1) by (Z.div_mod_to_equations; lia).
  by rewrite Z.add_0_r.
Qed.

Lemma MakeDay_in_year (y m d : Z) :
  valid_date y m d = true ->
  DayFromYear y <= MakeDay y (m - 1) d < DayFromYear (y + 1).
Proof.
  intros [Hm Hd]%valid_date_cases. rewrite MakeDay_month by done.
  rewrite DayFromYear_succ. unfold DaysInYear.
  month_cases m Hm; revert Hd; simpl; destruct (is_leap y); lia.
Qed.

Lemma days_before_month_next (y m1 m2 : Z) :
  1 <= m2 -> m2 < m1 -> m1 <= 12 ->
  days_before_month (if is_leap y then 1 else 0) (m2 - 1) + DaysInMonth y m2
  <= days_before_month (if is_leap y then 1 else 0) (m1 - 1).
Proof.
  intros H2 Hlt H1.
  assert (1 <= m1 <= 12) as Hm1 by lia. assert (1 <= m2 <= 12) as Hm2 by lia.
  clear H2 H1. month_cases m1 Hm1; month_cases m2 Hm2; try lia;
    simpl; destruct (is_leap y); lia.
Qed.

(** An earlier calendar date is a smaller triple. *)
Lemma civil_compare_day (c1 c2 : Z * Z * Z) :
  canonical c1 = true -> canonical c2 = true ->
  day_of_civil c1 < day_of_civil c2 -> civil_compare c1 c2 = Lt.
Proof.
  destruct c1 as [[y1 m1] d1], c2 as [[y2 m2] d2].
  intros [_ Hv1]%canonical_cases [_ Hv2]%canonical_cases.
  pose proof (MakeDay_in_year _ _ _ Hv1) as Hr1.
  pose proof (MakeDay_in_year _ _ _ Hv2) as Hr2.
  destruct (valid_date_cases _ _ _ Hv1) as [Hm1 Hd1].
  destruct (valid_date_cases _ _ _ Hv2) as [Hm2 Hd2].
  unfold day_of_civil, civil_compare. intros Hlt.
  destruct (Z.compare_spec y1 y2) as [->|Hy|Hy]; [|done|].
  - rewrite !MakeDay_month in Hlt by done.
    destruct (Z.compare_spec m1 m2) as [->|Hm|Hm]; [|done|].
    + apply Z.compare_lt_iff. lia.
    + pose proof (days_before_month_next y2 m1 m2). lia.
  - pose proof (DayFromYear_mono (y2 + 1) y1). lia.
Qed.

(** X1. The range on a host without daylight saving time (the statement of
    C2, which holds there).  For canonical dates, with
    enough fuel, the range has one date per day from start to end: the date
    at index [i] is the [i]-th calendar day after the start, the dates are
    in strictly increasing order as strings, the range starts at the start
    and ends at the end, it is the single date for equal bounds, and it is
    empty when the end is before the start. *)
Theorem generateDateRange_fixed_zone (offset : Z) (s e : Z * Z * Z) (fuel : nat) :
  canonical s = true -> canonical e = true ->
  (Z.to_nat (day_of_civil e - day_of_civil s + 1) < fuel)%nat ->
  exists dates : list string,
    generateDateRange (fixed_zone offset) fuel (iso_of_civil s) (iso_of_civil e)
    = Some dates
    /\ length dates = Z.to_nat (day_of_civil e - day_of_civil s + 1)
    /\ (forall i : nat, (i < length dates)%nat ->
          exists c : Z * Z * Z,
            dates !! i = Some (iso_of_civil c)
            /\ c = Nat.iter i next_day s
            /\ canonical c = true
            /\ day_of_civil c = day_of_civil s + Z.of_nat i)
    /\ (forall (i j : nat) (di dj : string),
          (i < j)%nat -> dates !! i = Some di -> dates !! j = Some dj ->
          String.ltb di dj = true)
    /\ (day_of_civil s <= day_of_civil e ->
          head dates = Some (iso_of_civil s) /\ last dates = Some (iso_of_civil e))
    /\ (s = e -> dates = [iso_of_civil s])
    /\ (day_of_civil e < day_of_civil s -> dates = []).
Proof.
  intros Hs He Hfuel.
  set (a := day_of_civil s) in *. set (b := day_of_civil e) in *.
  set (n := Z.to_nat (b - a + 1)) in *.
  assert (Hvs : (let '(y, m, d) := s in valid_date y m d) = true).
  { destruct s as [[y m] d]. by apply canonical_cases in Hs as [_ ?]. }
  assert (Hve : (let '(y, m, d) := e in valid_date y m d) = true).
  { destruct e as [[y m] d]. by apply canonical_cases in He as [_ ?]. }
  assert (Ha : -719528 <= a <= 2932898).
  { subst a. destruct s as [[y m] d]. apply canonical_cases in Hs as [? ?].
    by apply MakeDay_bounds. }
  assert (Hb : -719528 <= b <= 2932898).
  { subst b. destruct e as [[y m] d]. apply canonical_cases in He as [? ?].
    by apply MakeDay_bounds. }
  assert (Hci : forall i : nat,
             civil_of_time (a * msPerDay + Z.of_nat i * msPerDay)
             = Nat.iter i next_day s).
  { intros i. rewrite civil_iter. subst a. by rewrite civil_of_day_of_civil. }
  assert (Hdi : forall i : nat, day_of_civil (Nat.iter i next_day s) = a + Z.of_nat i).
  { intros i. by rewrite <- Hci, day_of_civil_of_time, Day_add. }
  assert (Hca : forall i : nat, (i < n)%nat -> canonical (Nat.iter i next_day s) = true).
  { intros i Hi. rewrite <- Hci.
    pose proof (civil_valid (a * msPerDay + Z.of_nat i * msPerDay)) as Hv.
    pose proof (canonical_year s Hs) as Hys. pose proof (canonical_year e He) as Hye.
    pose proof (YearFromDay_mono a (a + Z.of_nat i)) as Hm1.
    pose proof (YearFromDay_mono (a + Z.of_nat i) b) as Hm2.
    unfold canonical, civil_of_time. rewrite Hv, andb_true_r.
    unfold YearFromTime. rewrite Day_add. fold a b in Hys, Hye.
    apply andb_true_intro. split; apply Z.leb_le; subst n; lia. }
  assert (Hlk : forall i : nat, (i < n)%nat ->
             date_strings (a * msPerDay) n !! i
             = Some (iso_of_civil (Nat.iter i next_day s))).
  { intros i Hi. unfold date_strings.
    rewrite list_lookup_fmap. apply fmap_Some. exists i.
    split; [by apply lookup_seq_lt|by rewrite Hci]. }
  assert (Hlen : length (date_strings (a * msPerDay) n) = n).
  { unfold date_strings. by rewrite length_map, length_seq. }
  exists (date_strings (a * msPerDay) n).
  split; [|split; [done|split; [|split; [|split; [|split]]]]].
  - unfold generateDateRange. rewrite !Date_of_canonical by done.
    fold a b. rewrite (generateDateRange_loop_fixed offset _ n); [done|done|..];
      subst n; unfold msPerDay; lia.
  - intros i Hi. rewrite Hlen in Hi. exists (Nat.iter i next_day s).
    split; [by apply Hlk|]. split; [done|]. split; [by apply Hca|by apply Hdi].
  - intros i j di dj Hij Hi Hj.
    assert (j < n)%nat as Hjn by (rewrite <- Hlen; by eapply lookup_lt_Some).
    rewrite Hlk in Hi, Hj by lia. injection Hi as <-. injection Hj as <-.
    unfold String.ltb. rewrite iso_compare by (apply Hca; lia).
    rewrite civil_compare_day; [done|apply Hca; lia..|]. rewrite !Hdi. lia.
  - intros Hab. assert (Z.of_nat n = b - a + 1) as Hn by (subst n; lia). split.
    + rewrite head_lookup, Hlk by lia. done.
    + rewrite last_lookup, Hlen, Hlk by lia. do 2 f_equal.
      rewrite <- Hci. replace (Z.of_nat (Init.Nat.pred n)) with (b - a) by lia.
      replace (a * msPerDay + (b - a) * msPerDay) with (b * msPerDay) by lia.
      subst b. by apply civil_of_day_of_civil.
  - intros <-. assert (n = 1%nat) as Hn by (subst n a b; lia).
    apply list_eq. intros [|i].
    + rewrite Hlk by lia. done.
    + rewrite lookup_ge_None_2 by lia. done.
  - intros Hlt. assert (n = 0%nat) as Hn by (subst n; lia). by rewrite Hn.
Qed.

Lemma generateDateRange_fixed_zone_witness :
  canonical (2024, 2, 27) = true /\ canonical (2024, 3, 2) = true
  /\ exists dates : list string,
       generateDateRange Asia_Karachi 10 "2024-02-27" "2024-03-02" = Some dates
       /\ length dates = 5%nat
       /\ head dates = Some "2024-02-27" /\ last dates = Some "2024-03-02".
Proof.
  repeat (split; [reflexivity|]).
  destruct (generateDateRange_fixed_zone (5 * msPerHour) (2024, 2, 27) (2024, 3, 2) 10)
    as (dates & Hd & Hlen & _ & _ & Hends & _);
    [reflexivity | reflexivity | vm_compute; lia |].
  exists dates. split; [exact Hd|]. split; [exact Hlen|].
  apply Hends. vm_compute. discriminate.
Defined.

Example generateDateRange_leap_february :
  generateDateRange Asia_Karachi 10 "2024-02-27" "2024-03-02"
  = Some ["2024-02-27"; "2024-02-28"; "2024-02-29"; "2024-03-01"; "2024-03-02"].
Proof. reflexivity. Qed.

(** C2, on a host with daylight saving time.  In New York the clocks go
    back on 2024-11-03: from then on the loop steps at 01:00 UTC, and the
    last date of the range is not produced. *)
Theorem generateDateRange_dst_drops_end :
  generateDateRange America_New_York 10 "2024-11-01" "2024-11-05"
  = Some ["2024-11-01"; "2024-11-02"; "2024-11-03"; "2024-11-04"]
  /\ day_of_civil (2024, 11, 5) - day_of_civil (2024, 11, 1) + 1 = 5
  /\ exists dates : list string,
       generateDateRange America_New_York 200 "2024-07-01" "2024-11-10" = Some dates
       /\ day_of_civil (2024, 11, 10) - day_of_civil (2024, 7, 1) + 1 = 133
       /\ length dates = 132%nat
       /\ last dates = Some "2024-11-09".
Proof.
  split; [by vm_compute|]. split; [by vm_compute|].
  eexists. split; [vm_compute; reflexivity|]. by vm_compute.
Qed.

(** ** formatDate *)

Lemma all_digits_occurs (c : ascii) (s : string) :
  digit_val c = None -> all_digits s = true -> occurs c s = false.
Proof.
  intros Hc. induction s as [|x s IH]; simpl; [done|].
  destruct (digit_val x) eqn:Hx; [|done]. intros Hs.
  rewrite IH, orb_false_r by done.
  destruct (Ascii.eqb_spec x c) as [->|]; [|done]. congruence.
Qed.

Lemma split_three (sep : ascii) (a b c : string) :
  occurs sep a = false -> occurs sep b = false -> occurs sep c = false ->
  split sep (a +:+ String sep (b +:+ String sep c)) = [a; b; c].
Proof.
  intros Ha Hb Hc. by rewrite !split_app_sep, split_no_sep.
Qed.

Lemma padStart_short (s : string) :
  String.length s = 1%nat -> padStart s 2 "0" = String "0" s.
Proof. intros Hs. unfold padStart. by rewrite Hs. Qed.

Lemma padStart_long (s : string) (n : nat) (c : ascii) :
  (n <= String.length s)%nat -> padStart s n c = s.
Proof.
  intros Hs. unfold padStart. by replace (n - String.length s)%nat with 0%nat by lia.
Qed.

Lemma padStart_length (s : string) (n : nat) (c : ascii) :
  String.length (padStart s n c) = Nat.max n (String.length s).
Proof.
  unfold padStart. rewrite string_length_app.
  assert (forall k, String.length (repeat_char c k) = k) as ->.
  { induction k; simpl; congruence. }
  lia.
Qed.

Lemma digit_val_inv (c : ascii) (v : Z) :
  digit_val c = Some v -> 0 <= v <= 9 /\ forall a : Z, digit_char (10 * a + v) = c.
Proof.
  unfold digit_val, digit_char.
  destruct (Z.leb_spec 48 (Z.of_N (N_of_ascii c))); [|done].
  destruct (Z.leb_spec (Z.of_N (N_of_ascii c)) 57); [|done].
  simpl. intros [= <-]. split; [lia|]. intros a.
  replace ((10 * a + (Z.of_N (N_of_ascii c) - 48)) mod 10)
    with (Z.of_N (N_of_ascii c) - 48) by (Z.div_mod_to_equations; lia).
  replace (48 + (Z.of_N (N_of_ascii c) - 48)) with (Z.of_N (N_of_ascii c)) by lia.
  by rewrite N2Z.id, ascii_N_embedding.
Qed.

Lemma string_app_nil_r (s : string) : s +:+ "" = s.
Proof.
  induction s as [|c s IH]; [done|].
  change (String c (s +:+ "") = String c s). by rewrite IH.
Qed.

Lemma string_app_assoc (a b c : string) : (a +:+ b) +:+ c = a +:+ (b +:+ c).
Proof.
  induction a as [|x a IH]; [done|].
  change (String x ((a +:+ b) +:+ c) = String x (a +:+ (b +:+ c))). by rewrite IH.
Qed.

(** Printing the number that a string of digits denotes gives the string. *)
Lemma digits_number (s : string) :
  forall (k : nat) (acc v : Z),
    number_of_digits s acc = Some v ->
    digits (k + String.length s) v = digits k acc +:+ s.
Proof.
  induction s as [|c s IH]; intros k acc v Hv.
  - simpl in Hv. injection Hv as <-. by rewrite Nat.add_0_r, string_app_nil_r.
  - cbn [number_of_digits] in Hv. destruct (digit_val c) as [dv|] eqn:Hc; [|done].
    destruct (digit_val_inv c dv Hc) as [Hdv Hchar].
    cbn [String.length]. replace (k + S (String.length s))%nat
      with (S k + String.length s)%nat by lia.
    rewrite (IH (S k) _ v Hv). cbn [digits].
    replace ((10 * acc + dv) / 10) with acc by (Z.div_mod_to_equations; lia).
    by rewrite Hchar, string_app_assoc.
Qed.

Lemma number_of_digits_bounds (s : string) :
  forall acc v : Z,
    number_of_digits s acc = Some v -> 0 <= acc ->
    acc * 10 ^ Z.of_nat (String.length s) <= v
    < (acc + 1) * 10 ^ Z.of_nat (String.length s).
Proof.
  induction s as [|c s IH]; intros acc v Hv Hacc.
  - simpl in Hv. injection Hv as <-. simpl. lia.
  - cbn [number_of_digits] in Hv. destruct (digit_val c) as [dv|] eqn:Hc; [|done].
    destruct (digit_val_inv c dv Hc) as [Hdv _].
    specialize (IH _ _ Hv ltac:(lia)).
    cbn [String.length]. rewrite Nat2Z.inj_succ, Z.pow_succ_r by lia.
    assert (0 < 10 ^ Z.of_nat (String.length s)) by (apply Z.pow_pos_nonneg; lia).
    nia.
Qed.

Lemma all_digits_number (s : string) (acc : Z) :
  all_digits s = true -> exists v : Z, number_of_digits s acc = Some v.
Proof.
  revert acc. induction s as [|c s IH]; intros acc Hs; simpl in *; [eauto|].
  destruct (digit_val c); [by apply IH|done].
Qed.

(** A number of one or two digits, padded to two digits, is printed as by
    [digits 2]. *)
Lemma padStart_digits (s : string) (v : Z) :
  number_of_digits s 0 = Some v -> (1 <= String.length s <= 2)%nat ->
  padStart s 2 "0" = digits 2 v.
Proof.
  intros Hv Hl. destruct (decide (String.length s = 1%nat)) as [H1|H1].
  - rewrite padStart_short by done.
    pose proof (digits_number (String "0" s) 0 0 v Hv) as Hp.
    cbn [String.length] in Hp. rewrite H1 in Hp. symmetry. exact Hp.
  - assert (String.length s = 2%nat) as H2 by lia.
    rewrite padStart_long by lia.
    pose proof (digits_number s 0 0 v Hv) as Hp.
    rewrite H2 in Hp. symmetry. exact Hp.
Qed.

Lemma formatDate_iso_date (month day year : string) (y m d : Z) :
  number_of_digits year 0 = Some y -> number_of_digits month 0 = Some m ->
  number_of_digits day 0 = Some d ->
  (1 <= String.length month <= 2)%nat -> (1 <= String.length day <= 2)%nat ->
  String.length year = 4%nat ->
  year +:+ "-" +:+ padStart month 2 "0" +:+ "-" +:+ padStart day 2 "0"
  = iso_date y m d.
Proof.
  intros Hy Hm Hd Hlm Hld Hly. unfold iso_date, iso_year.
  pose proof (number_of_digits_bounds year 0 y Hy ltac:(lia)) as Hb.
  rewrite Hly in Hb. change (10 ^ Z.of_nat 4) with 10000 in Hb.
  destruct (Z.leb_spec 0 y); [|lia]. destruct (Z.leb_spec y 9999); [|lia].
  cbn [andb]. rewrite (padStart_digits month m), (padStart_digits day d) by done.
  f_equal. pose proof (digits_number year 0 0 y Hy) as Hp.
  rewrite Hly in Hp. symmetry. exact Hp.
Qed.

(** C9. On a raw date [M/D/YYYY] with a month and a day of one or two
    digits and a year of four, [formatDate] returns [YYYY-MM-DD]: the year,
    the month and the day padded with a zero to two digits, which is the
    ISO date of the numbers that the three components denote.  So
    ["7/4/2024"] gives ["2024-07-04"] and ["12/31/2024"] gives
    ["2024-12-31"]. *)
Theorem formatDate_well_formed (month day year : string) :
  all_digits month = true -> all_digits day = true -> all_digits year = true ->
  (1 <= String.length month <= 2)%nat -> (1 <= String.length day <= 2)%nat ->
  String.length year = 4%nat ->
  exists mm dd : string,
    formatDate (month +:+ "/" +:+ day +:+ "/" +:+ year)
    = Return (year +:+ "-" +:+ mm +:+ "-" +:+ dd)
    /\ mm = padStart month 2 "0" /\ dd = padStart day 2 "0"
    /\ String.length mm = 2%nat /\ String.length dd = 2%nat
    /\ (String.length month = 1%nat -> mm = String "0" month)
    /\ (String.length month = 2%nat -> mm = month)
    /\ (String.length day = 1%nat -> dd = String "0" day)
    /\ (String.length day = 2%nat -> dd = day)
    /\ String.length (year +:+ "-" +:+ mm +:+ "-" +:+ dd) = 10%nat
    /\ (exists y m d : Z,
          number_of_digits year 0 = Some y /\ number_of_digits month 0 = Some m
          /\ number_of_digits day 0 = Some d
          /\ year +:+ "-" +:+ mm +:+ "-" +:+ dd = iso_date y m d)
    /\ formatDate "7/4/2024" = Return "2024-07-04"
    /\ formatDate "12/31/2024" = Return "2024-12-31".
Proof.
  intros Hm Hd Hy Hlm Hld Hly.
  exists (padStart month 2 "0"), (padStart day 2 "0").
  assert (String.length (padStart month 2 "0") = 2%nat) as Hlmm
    by (rewrite padStart_length; lia).
  assert (String.length (padStart day 2 "0") = 2%nat) as Hldd
    by (rewrite padStart_length; lia).
  split; [|repeat split; try done].
  - unfold formatDate.
    change (month +:+ "/" +:+ day +:+ "/" +:+ year)
      with (month +:+ String "/" (day +:+ String "/" year)).
    rewrite split_three by (by apply all_digits_occurs). done.
  - apply padStart_short.
  - intros Hl. apply padStart_long. lia.
  - apply padStart_short.
  - intros Hl. apply padStart_long. lia.
  - change (year +:+ "-" +:+ padStart month 2 "0" +:+ "-" +:+ padStart day 2 "0")
      with (year +:+ String "-" (padStart month 2 "0" +:+ String "-" (padStart day 2 "0"))).
    rewrite string_length_app. cbn [String.length].
    rewrite string_length_app. cbn [String.length]. lia.
  - destruct (all_digits_number year 0 Hy) as [y Hyv].
    destruct (all_digits_number month 0 Hm) as [m Hmv].
    destruct (all_digits_number day 0 Hd) as [d Hdv].
    exists y, m, d. repeat split; try done. by apply formatDate_iso_date.
Qed.

Lemma formatDate_well_formed_witness :
  all_digits "7" = true /\ all_digits "4" = true /\ all_digits "2024" = true
  /\ exists mm dd : string,
       formatDate "7/4/2024" = Return ("2024" +:+ "-" +:+ mm +:+ "-" +:+ dd)
       /\ mm = "07" /\ dd = "04".
Proof.
  repeat (split; [reflexivity|]).
  destruct (formatDate_well_formed "7" "4" "2024")
    as (mm & dd & Hf & Hmm & Hdd & _); simpl; try reflexivity; try lia.
  exists mm, dd. split; [exact Hf|]. split; [exact Hmm|exact Hdd].
Defined.

(** ** Sorting and the discovery order *)

Section SortFacts.
Context {A : Type} (key : A -> Q).

Lemma sort_insert_perm (x : A) (l : list A) :
  Permutation (sort_insert (by_key_desc key) x l) (x :: l).
Proof.
  induction l as [|y l IH]; simpl; [done|].
  destruct (Qlt_le_dec 0 (by_key_desc key x y)); [|done].
  rewrite IH. apply perm_swap.
Qed.

Lemma sort_perm (l : list A) : Permutation (sort (by_key_desc key) l) l.
Proof.
  induction l as [|x l IH]; simpl; [done|].
  by rewrite sort_insert_perm, IH.
Qed.

Lemma sort_insert_sorted (x : A) (l : list A) :
  StronglySorted (desc key) l ->
  StronglySorted (desc key) (sort_insert (by_key_desc key) x l).
Proof.
  induction 1 as [|y l Hl IH Hy]; simpl.
  - repeat constructor.
  - unfold by_key_desc at 1.
    destruct (Qlt_le_dec 0 (key y - key x)) as [Hlt|Hle].
    + constructor; [done|].
      assert (desc key y x) as Hyx by (unfold desc; lra).
      rewrite (sort_insert_perm x l). by constructor.
    + assert (desc key x y) as Hxy by (unfold desc; lra).
      constructor; [by constructor|]. constructor; [done|].
      eapply Forall_impl; [exact Hy|]. intros z Hz. unfold desc in *. lra.
Qed.

Lemma sort_sorted (l : list A) : StronglySorted (desc key) (sort (by_key_desc key) l).
Proof.
  induction l as [|x l IH]; simpl; [constructor|]. by apply sort_insert_sorted.
Qed.

(** Elements of equal key keep their order. *)
Lemma sort_insert_stable (t : Q) (x : A) (l : list A) :
  filter (fun a => Qeq_bool (key a) t = true) (sort_insert (by_key_desc key) x l)
  = filter (fun a => Qeq_bool (key a) t = true) (x :: l).
Proof.
  induction l as [|y l IH]; simpl; [done|].
  unfold by_key_desc at 1.
  destruct (Qlt_le_dec 0 (key y - key x)) as [Hlt|Hle]; [|done].
  rewrite filter_cons, IH, !filter_cons.
  destruct (decide (Qeq_bool (key y) t = true)) as [Hy|Hy]; [|done].
  destruct (decide (Qeq_bool (key x) t = true)) as [Hx|Hx]; [|done].
  apply Qeq_bool_iff in Hx, Hy. lra.
Qed.

Lemma sort_stable (t : Q) (l : list A) :
  filter (fun a => Qeq_bool (key a) t = true) (sort (by_key_desc key) l)
  = filter (fun a => Qeq_bool (key a) t = true) l.
Proof.
  induction l as [|x l IH]; simpl; [done|].
  by rewrite sort_insert_stable, !filter_cons, IH.
Qed.
End SortFacts.

(** A stable sort in descending order has one result only. *)
Section StableSortUnique.
Context {A : Type} (key : A -> Q).

(** In a list in descending order, the elements with the key of an element
    of the list that is maximal come first. *)
Lemma sorted_desc_key_le (x y : A) (l : list A) :
  StronglySorted (desc key) (x :: l) -> y ∈ x :: l -> (key y <= key x)%Q.
Proof.
  intros Hs Hy. apply StronglySorted_inv in Hs as [_ Hx].
  apply elem_of_cons in Hy as [->|Hy].
  - lra.
  - rewrite Forall_forall in Hx. by apply Hx.
Qed.

Lemma stable_sort_unique (l l1 l2 : list A) :
  Permutation l1 l -> Permutation l2 l ->
  StronglySorted (desc key) l1 -> StronglySorted (desc key) l2 ->
  (forall t : Q, filter (fun a => Qeq_bool (key a) t = true) l1 = filter (fun a => Qeq_bool (key a) t = true) l) ->
  (forall t : Q, filter (fun a => Qeq_bool (key a) t = true) l2 = filter (fun a => Qeq_bool (key a) t = true) l) ->
  l1 = l2.
Proof.
  intros Hp1 Hp2 Hs1 Hs2 Hf1 Hf2.
  assert (Hp : Permutation l1 l2) by (by rewrite Hp1, Hp2).
  assert (Hf : forall t : Q, filter (fun a => Qeq_bool (key a) t = true) l1 = filter (fun a => Qeq_bool (key a) t = true) l2)
    by (intros t; by rewrite Hf1, Hf2).
  clear Hp1 Hp2 Hf1 Hf2 l. revert l2 Hp Hs2 Hf.
  induction l1 as [|x l1 IH]; intros l2 Hp Hs2 Hf.
  - by apply Permutation_nil in Hp.
  - destruct l2 as [|y l2]; [by apply Permutation_sym, Permutation_nil in Hp|].
    assert (key x == key y)%Q as Hxy.
    { assert (key y <= key x)%Q.
      { apply (sorted_desc_key_le x y l1 Hs1). rewrite Hp. by left. }
      assert (key x <= key y)%Q.
      { apply (sorted_desc_key_le y x l2 Hs2). rewrite <- Hp. by left. }
      lra. }
    assert (x = y) as <-.
    { specialize (Hf (key x)).
      rewrite !filter_cons_True in Hf; [by injection Hf|..];
        by apply Qeq_bool_iff. }
    f_equal. apply IH.
    + by apply StronglySorted_inv in Hs1 as [? _].
    + by apply Permutation_cons_inv in Hp.
    + by apply StronglySorted_inv in Hs2 as [? _].
    + intros t. specialize (Hf t). rewrite !filter_cons in Hf.
      destruct (decide (Qeq_bool (key x) t = true)); [by injection Hf|done].
Qed.
End StableSortUnique.


Lemma Set_add_fold (l acc : list string) :
  fold_left Set_add l acc = acc ++ filter (fun y => y ∉ acc) (first_occurrences l).
Proof.
  revert acc. induction l as [|x l IH]; intros acc; simpl.
  - by rewrite app_nil_r.
  - rewrite IH. unfold Set_add. rewrite filter_cons.
    destruct (decide (x ∈ acc)) as [Hx|Hx].
    + destruct (decide (x ∉ acc)); [done|]. f_equal.
      rewrite list_filter_filter. apply list_filter_iff. intros y. split.
      * intros Hy. split; [done|]. intros ->. done.
      * by intros [? _].
    + destruct (decide (x ∉ acc)); [|done]. rewrite <- app_assoc. simpl. do 2 f_equal.
      rewrite list_filter_filter. apply list_filter_iff. intros y.
      rewrite not_elem_of_app, list_elem_of_singleton. tauto.
Qed.

Lemma filter_all {A : Type} (P : A -> Prop) `{forall x, Decision (P x)} (l : list A) :
  (forall x, P x) -> filter P l = l.
Proof.
  intros HP. induction l as [|x l IH]; [done|].
  by rewrite filter_cons_True, IH.
Qed.

Lemma filter_elems {A : Type} (P : A -> Prop) `{forall x, Decision (P x)}
  (l : list A) :
  (forall x, x ∈ l -> P x) -> filter P l = l.
Proof.
  intros HP. induction l as [|x l IH]; [done|].
  rewrite filter_cons_True by (apply HP; by left).
  rewrite IH; [done|]. intros y Hy. apply HP. by right.
Qed.

Lemma uniqueUCs_first_occurrences (jsonData : list DataItem) :
  uniqueUCs jsonData = first_occurrences (map name jsonData).
Proof.
  unfold uniqueUCs. rewrite Set_add_fold. simpl.
  apply filter_all. intros y. apply not_elem_of_nil.
Qed.

Lemma first_occurrences_elem (x : string) (l : list string) :
  x ∈ first_occurrences l <-> x ∈ l.
Proof.
  induction l as [|y l IH]; simpl; [done|].
  rewrite !elem_of_cons, list_elem_of_filter, IH.
  destruct (decide (x = y)); tauto.
Qed.

Lemma first_occurrences_NoDup (l : list string) : NoDup (first_occurrences l).
Proof.
  induction l as [|y l IH]; simpl; [constructor|].
  constructor.
  - rewrite list_elem_of_filter. intros [Hne _]. by apply Hne.
  - by apply NoDup_filter.
Qed.

(** ** dataLookup *)

Lemma occurs_split_length (sep : ascii) (s : string) :
  occurs sep s = true <-> (2 <= length (split sep s))%nat.
Proof.
  induction s as [|x s IH]; simpl; [split; [done|lia]|].
  pose proof (split_length sep s) as Hl.
  destruct (Ascii.eqb x sep); simpl.
  - split; [lia|done].
  - rewrite IH. destruct (split sep s); simpl in *; lia.
Qed.

(** [formatDate] throws exactly on a string without [/]. *)
Lemma formatDate_Return (s : string) :
  occurs "/" s = true -> exists out : string, formatDate s = Return out.
Proof.
  intros Hs%occurs_split_length. unfold formatDate.
  destruct (split "/" s) as [|month [|day rest]]; simpl in Hs; [lia..|].
  simpl. eauto.
Qed.

Lemma formatDate_Throw (s : string) :
  occurs "/" s = false -> formatDate s = Throw TypeError.
Proof.
  intros Hs. unfold formatDate. by rewrite split_no_sep.
Qed.

Lemma formatDate_Return_occurs (s out : string) :
  formatDate s = Return out -> occurs "/" s = true.
Proof.
  intros Hout. destruct (occurs "/" s) eqn:Hs; [done|].
  by rewrite formatDate_Throw in Hout.
Qed.

Lemma item_key_Return (item : DataItem) :
  occurs "/" (confirmation_date item) = true ->
  exists k : string, item_key item = Return k.
Proof.
  intros [out Hout]%formatDate_Return. unfold item_key. rewrite Hout. simpl. eauto.
Qed.

Lemma dataLookup_loop_cons (item : DataItem) (rest : list DataItem)
  (m : gmap string Q) :
  dataLookup_loop (item :: rest) m
  = (k ← item_key item; dataLookup_loop rest (<[k := value item]> m)).
Proof. simpl. unfold item_key. by destruct (formatDate _). Qed.

Lemma dataLookup_loop_app (l1 l2 : list DataItem) (m : gmap string Q) :
  dataLookup_loop (l1 ++ l2) m = (m' ← dataLookup_loop l1 m; dataLookup_loop l2 m').
Proof.
  revert m. induction l1 as [|item l1 IH]; intros m; [done|].
  rewrite <- app_comm_cons, !dataLookup_loop_cons.
  destruct (item_key item); simpl; [apply IH|done].
Qed.

(** The loop returns when every date can be formatted. *)
Lemma dataLookup_loop_Return (jsonData : list DataItem) (m : gmap string Q) :
  Forall (fun item => occurs "/" (confirmation_date item) = true) jsonData ->
  exists m' : gmap string Q, dataLookup_loop jsonData m = Return m'.
Proof.
  intros Hall. revert m. induction Hall as [|item rest Hitem _ IH]; intros m.
  - simpl. eauto.
  - rewrite dataLookup_loop_cons. destruct (item_key_Return item Hitem) as [k ->].
    apply IH.
Qed.

(** The loop throws when some date cannot be formatted. *)
Lemma dataLookup_loop_Throw (jsonData : list DataItem) (m : gmap string Q) :
  Exists (fun item => occurs "/" (confirmation_date item) = false) jsonData ->
  dataLookup_loop jsonData m = Throw TypeError.
Proof.
  intros Hex. revert m. induction jsonData as [|item rest IH]; intros m.
  - by apply Exists_nil in Hex.
  - simpl. destruct (occurs "/" (confirmation_date item)) eqn:Hitem.
    + destruct (formatDate_Return _ Hitem) as [out ->]. simpl. apply IH.
      apply Exists_cons in Hex as [Hex|Hex]; [congruence|done].
    + by rewrite formatDate_Throw.
Qed.

(** Keys that no record writes keep the value they had. *)
Lemma dataLookup_loop_other (jsonData : list DataItem) (m m' : gmap string Q)
  (k : string) :
  dataLookup_loop jsonData m = Return m' ->
  Forall (fun item => item_key item <> Return k) jsonData ->
  m' !! k = m !! k.
Proof.
  revert m. induction jsonData as [|item rest IH]; intros m Hm Hall.
  - simpl in Hm. by injection Hm as <-.
  - rewrite dataLookup_loop_cons in Hm. apply Forall_cons in Hall as [Hitem Hrest].
    destruct (item_key item) as [k'|] eqn:Hk; [|done]. simpl in Hm.
    rewrite (IH _ Hm Hrest). apply lookup_insert_ne. congruence.
Qed.


(** For dates of the same length, as the normalized dates [YYYY-MM-DD] are,
    the key determines the series and the date. *)
Lemma lookup_key_inj (uc1 date1 uc2 date2 : string) :
  String.length date1 = String.length date2 ->
  lookup_key uc1 date1 = lookup_key uc2 date2 ->
  uc1 = uc2 /\ date1 = date2.
Proof.
  unfold lookup_key. intros Hlen.
  change ("-" +:+ date1) with (String "-" date1).
  change ("-" +:+ date2) with (String "-" date2).
  revert uc2. induction uc1 as [|c uc1 IH]; intros [|c' uc2] Heq.
  - by injection Heq as ->.
  - apply (f_equal String.length) in Heq.
    rewrite !string_length_app in Heq. cbn [String.length] in Heq. lia.
  - apply (f_equal String.length) in Heq.
    rewrite !string_length_app in Heq. cbn [String.length] in Heq. lia.
  - change (String c (uc1 +:+ String "-" date1) = String c' (uc2 +:+ String "-" date2))
      in Heq.
    injection Heq as -> Heq. destruct (IH _ Heq) as [-> ->]. done.
Qed.


(** ** Densification and smoothing *)

Lemma set_property_ne (uc k : string) (v : cell) (point : ChartDataPoint) :
  k <> uc -> set_property uc v point !! k = point !! k.
Proof.
  intros Hne. unfold set_property.
  destruct (point !! uc); [by rewrite lookup_insert_ne|].
  destruct (decide (uc = "__proto__")); [done|by rewrite lookup_insert_ne].
Qed.

(** What the row holds under [uc] after [point[uc] = v]. *)
Lemma set_property_eq (uc : string) (v : cell) (point : ChartDataPoint) :
  set_property uc v point !! uc
  = match point !! uc with
    | Some _ => Some v
    | None => if decide (uc = "__proto__") then None else Some v
    end.
Proof.
  unfold set_property. destruct (point !! uc) eqn:Hp.
  - by rewrite lookup_insert_eq.
  - destruct (decide (uc = "__proto__")); [done|by rewrite lookup_insert_eq].
Qed.

Lemma set_property_insert (uc : string) (v : cell) (point : ChartDataPoint) :
  uc <> "__proto__" \/ is_Some (point !! uc) ->
  set_property uc v point = <[uc := v]> point.
Proof.
  unfold set_property. intros [Hne|[c Hc]].
  - destruct (point !! uc); [done|]. by rewrite decide_False.
  - by rewrite Hc.
Qed.

Lemma set_property_proto (v : cell) (point : ChartDataPoint) :
  point !! "__proto__" = None -> set_property "__proto__" v point = point.
Proof. unfold set_property. by intros ->. Qed.

Lemma set_property_dom (uc : string) (v : cell) (point : ChartDataPoint) :
  dom (set_property uc v point)
  = dom point ∪ list_to_set (filter (fun u => u <> "__proto__") [uc]).
Proof.
  apply set_eq. intros x.
  rewrite elem_of_union, elem_of_list_to_set, list_elem_of_filter,
    list_elem_of_singleton, !elem_of_dom.
  destruct (decide (x = uc)) as [->|Hne].
  - rewrite set_property_eq. destruct (point !! uc) eqn:Hp.
    + split; [intros _; left; eauto|eauto].
    + destruct (decide (uc = "__proto__")).
      * split; [by intros [? ?]|]. intros [[? ?]|[? _]]; done.
      * split; [intros _; by right|eauto].
  - rewrite set_property_ne by done. split; [by left|]. intros [?|[_ ?]]; done.
Qed.

Lemma dataPoint_fold_lookup (lookup : gmap string Q) (date : string)
  (top : list string) (point : ChartDataPoint) (uc : string) :
  fold_left
    (fun dataPoint uc =>
       set_property uc (CellNumber (or_zero (lookup !! lookup_key uc date)))
         dataPoint)
    top point !! uc
  = if decide (uc ∈ top) then
      match point !! uc with
      | Some _ => Some (dense_cell lookup uc date)
      | None => if decide (uc = "__proto__") then None
                else Some (dense_cell lookup uc date)
      end
    else point !! uc.
Proof.
  revert point. induction top as [|u top IH]; intros point; cbn [fold_left].
  - by rewrite decide_False by apply not_elem_of_nil.
  - rewrite IH. destruct (decide (uc = u)) as [->|Hne].
    + rewrite (decide_True (P := u ∈ u :: top)) by left.
      rewrite set_property_eq. fold (dense_cell lookup u date).
      destruct (decide (u ∈ top)).
      * destruct (point !! u); [done|]. by destruct (decide (u = "__proto__")).
      * done.
    + rewrite set_property_ne by done.
      destruct (decide (uc ∈ top)) as [Hin|Hnin].
      * by rewrite (decide_True (P := uc ∈ u :: top)) by (by right).
      * rewrite (decide_False (P := uc ∈ u :: top)); [done|].
        rewrite elem_of_cons. tauto.
Qed.

(** The row of a date: a number under every selected series but
    [__proto__], the date under [date] unless a series is called so, and
    nothing else. *)
Lemma dataPoint_of_lookup (lookup : gmap string Q) (top : list string)
  (date uc : string) :
  dataPoint_of lookup top date !! uc
  = if decide (uc ∈ top /\ uc <> "__proto__") then Some (dense_cell lookup uc date)
    else if decide (uc = "date") then Some (CellString date) else None.
Proof.
  unfold dataPoint_of. rewrite dataPoint_fold_lookup.
  destruct (decide (uc = "date")) as [->|Hne].
  - rewrite lookup_singleton_eq.
    destruct (decide ("date" ∈ top)).
    + by rewrite decide_True by (split; [done|discriminate]).
    + by rewrite decide_False by tauto.
  - rewrite lookup_singleton_ne by done.
    destruct (decide (uc ∈ top)) as [Hin|Hnin].
    + destruct (decide (uc = "__proto__")) as [->|Hp].
      * by rewrite decide_False by tauto.
      * by rewrite decide_True by done.
    + by rewrite decide_False by tauto.
Qed.

Lemma dataPoint_of_dom (lookup : gmap string Q) (top : list string) (date : string) :
  dom (dataPoint_of lookup top date)
  = ({["date"]} ∪ list_to_set (filter (fun u => u <> "__proto__") top) : gset string).
Proof.
  apply set_eq. intros uc. rewrite elem_of_dom, dataPoint_of_lookup.
  rewrite elem_of_union, elem_of_singleton, elem_of_list_to_set, list_elem_of_filter.
  destruct (decide (uc ∈ top /\ uc <> "__proto__")) as [[? ?]|Hn].
  - split; [by right|eauto].
  - destruct (decide (uc = "date")); [split; eauto|].
    split; [by intros [? ?]|tauto].
Qed.

Lemma smooth_column_length (rows : list ChartDataPoint) (uc : string) :
  length (smooth_column rows uc) = length rows.
Proof. unfold smooth_column. by rewrite length_imap. Qed.

Lemma smooth_column_lookup (rows : list ChartDataPoint) (uc : string) (i : nat)
  (point : ChartDataPoint) :
  rows !! i = Some point ->
  exists q : Q,
    calculateSimpleMovingAverage (column uc rows) !! i = Some q
    /\ smooth_column rows uc !! i = Some (set_property uc (CellNumber q) point).
Proof.
  intros Hi. pose proof (lookup_lt_Some _ _ _ Hi) as Hlt.
  assert (i < length (calculateSimpleMovingAverage (column uc rows)))%nat as Hlt'.
  { rewrite sma_length. unfold column. by rewrite length_map. }
  destruct (lookup_lt_is_Some_2 _ _ Hlt') as [q Hq].
  exists q. split; [done|].
  unfold smooth_column. rewrite list_lookup_imap, Hi. simpl. do 3 f_equal.
  by apply nth_lookup_Some.
Qed.

Lemma smooth_length (top : list string) (rows : list ChartDataPoint) :
  length (smooth rows top) = length rows.
Proof.
  revert rows. induction top as [|u top IH]; intros rows; [done|].
  change (smooth rows (u :: top)) with (smooth (smooth_column rows u) top).
  by rewrite IH, smooth_column_length.
Qed.

(** Smoothing the column of [u] leaves every other property of every row
    as it was. *)
Lemma smooth_column_other (rows : list ChartDataPoint) (u uc : string) :
  u <> uc ->
  map (fun point : ChartDataPoint => point !! uc) (smooth_column rows u)
  = map (fun point : ChartDataPoint => point !! uc) rows.
Proof.
  intros Hne. apply list_eq. intros i. rewrite !list_lookup_fmap.
  destruct (rows !! i) as [point|] eqn:Hi.
  - destruct (smooth_column_lookup rows u i point Hi) as (q & _ & ->).
    simpl. by rewrite set_property_ne.
  - rewrite (lookup_ge_None_2 (smooth_column rows u)); [done|].
    rewrite smooth_column_length. by apply lookup_ge_None.
Qed.

(** The rows on which every assignment to [uc] takes effect: all of them,
    unless [uc] is [__proto__]. *)
Lemma smooth_column_same (rows : list ChartDataPoint) (uc : string) :
  (uc = "__proto__" -> Forall (fun point => is_Some (point !! uc)) rows) ->
  map (fun point : ChartDataPoint => point !! uc) (smooth_column rows uc)
  = map (fun q => Some (CellNumber q)) (calculateSimpleMovingAverage (column uc rows)).
Proof.
  intros Hown. apply list_eq. intros i. rewrite !list_lookup_fmap.
  destruct (rows !! i) as [point|] eqn:Hi.
  - destruct (smooth_column_lookup rows uc i point Hi) as (q & -> & ->).
    simpl. rewrite set_property_insert, lookup_insert_eq; [done|].
    destruct (decide (uc = "__proto__")) as [Hp|]; [right|by left].
    specialize (Hown Hp). rewrite Forall_forall in Hown. apply Hown.
    apply list_elem_of_lookup. eauto.
  - apply lookup_ge_None in Hi.
    rewrite !lookup_ge_None_2; [done|..].
    + rewrite sma_length. unfold column. by rewrite length_map.
    + by rewrite smooth_column_length.
Qed.

Lemma column_cells (uc : string) (rows rows' : list ChartDataPoint) :
  map (fun point : ChartDataPoint => point !! uc) rows
  = map (fun point : ChartDataPoint => point !! uc) rows' ->
  column uc rows = column uc rows'.
Proof.
  intros Heq. unfold column.
  assert (forall l : list ChartDataPoint,
             map (fun point => read_number point uc) l
             = map (fun c => match c with Some (CellNumber q) => q | _ => 0%Q end)
                 (map (fun point : ChartDataPoint => point !! uc) l)) as Hmap.
  { intros l. rewrite map_map. done. }
  by rewrite !Hmap, Heq.
Qed.

(** The smoothed column of [uc] is a function of the raw column of [uc]. *)
Lemma smooth_column_cells (rows rows' : list ChartDataPoint) (uc : string) :
  map (fun point : ChartDataPoint => point !! uc) rows
  = map (fun point : ChartDataPoint => point !! uc) rows' ->
  map (fun point : ChartDataPoint => point !! uc) (smooth_column rows uc)
  = map (fun point : ChartDataPoint => point !! uc) (smooth_column rows' uc).
Proof.
  intros Heq. pose proof (column_cells uc rows rows' Heq) as Hcol.
  apply list_eq. intros i.
  pose proof (f_equal (fun l => l !! i) Heq) as Hi. simpl in Hi.
  rewrite !list_lookup_fmap in Hi |- *.
  destruct (rows !! i) as [point|] eqn:Hrow, (rows' !! i) as [point'|] eqn:Hrow';
    try done.
  - destruct (smooth_column_lookup rows uc i point Hrow) as (q & Hq & ->).
    destruct (smooth_column_lookup rows' uc i point' Hrow') as (q' & Hq' & ->).
    rewrite Hcol, Hq' in Hq. injection Hq as ->. simpl. rewrite !set_property_eq.
    simpl in Hi. injection Hi as ->. done.
  - apply lookup_ge_None in Hrow, Hrow'.
    rewrite !lookup_ge_None_2; [done|by rewrite smooth_column_length..].
Qed.

Lemma smooth_not_selected (top : list string) (rows : list ChartDataPoint)
  (uc : string) :
  uc ∉ top ->
  map (fun point : ChartDataPoint => point !! uc) (smooth rows top)
  = map (fun point : ChartDataPoint => point !! uc) rows.
Proof.
  revert rows. induction top as [|u top IH]; intros rows Hnin; [done|].
  apply not_elem_of_cons in Hnin as [Hne Hnin].
  change (smooth rows (u :: top)) with (smooth (smooth_column rows u) top).
  rewrite IH by done. by apply smooth_column_other.
Qed.

Lemma smooth_cells (top : list string) (rows rows' : list ChartDataPoint)
  (uc : string) :
  NoDup top ->
  map (fun point : ChartDataPoint => point !! uc) rows
  = map (fun point : ChartDataPoint => point !! uc) rows' ->
  map (fun point : ChartDataPoint => point !! uc) (smooth rows top)
  = map (fun point : ChartDataPoint => point !! uc) (smooth rows' top).
Proof.
  intros Hnd. revert rows rows'.
  induction Hnd as [|u top Hu Hnd IH]; intros rows rows' Heq; [done|].
  change (smooth rows (u :: top)) with (smooth (smooth_column rows u) top).
  change (smooth rows' (u :: top)) with (smooth (smooth_column rows' u) top).
  apply IH. destruct (decide (u = uc)) as [->|Hne].
  - by apply smooth_column_cells.
  - by rewrite !smooth_column_other.
Qed.

Lemma Forall_cells (uc : string) (P : option cell -> Prop)
  (rows rows' : list ChartDataPoint) :
  map (fun point : ChartDataPoint => point !! uc) rows
  = map (fun point : ChartDataPoint => point !! uc) rows' ->
  Forall (fun point => P (point !! uc)) rows ->
  Forall (fun point => P (point !! uc)) rows'.
Proof.
  intros Heq Hall. apply Forall_lookup. intros i point' Hi'.
  pose proof (f_equal (fun l => l !! i) Heq) as Hi. simpl in Hi.
  rewrite !list_lookup_fmap, Hi' in Hi.
  destruct (rows !! i) as [point|] eqn:Hrow; [|done].
  simpl in Hi. injection Hi as <-.
  by apply (proj1 (Forall_lookup _ _) Hall i point).
Qed.

Lemma smooth_selected (top : list string) (rows : list ChartDataPoint)
  (uc : string) :
  NoDup top -> uc ∈ top ->
  (uc = "__proto__" -> Forall (fun point => is_Some (point !! uc)) rows) ->
  map (fun point : ChartDataPoint => point !! uc) (smooth rows top)
  = map (fun q => Some (CellNumber q)) (calculateSimpleMovingAverage (column uc rows)).
Proof.
  intros Hnd. revert rows. induction Hnd as [|u top Hu Hnd IH]; intros rows Hin Hown.
  - by apply elem_of_nil in Hin.
  - change (smooth rows (u :: top)) with (smooth (smooth_column rows u) top).
    destruct (decide (uc = u)) as [->|Hne].
    + rewrite smooth_not_selected by done. by apply smooth_column_same.
    + apply elem_of_cons in Hin as [?|Hin]; [done|].
      assert (map (fun point : ChartDataPoint => point !! uc) (smooth_column rows u)
              = map (fun point : ChartDataPoint => point !! uc) rows) as Hsame
        by (by apply smooth_column_other).
      rewrite IH; [|done|].
      * do 2 f_equal. by apply column_cells.
      * intros Hp. symmetry in Hsame.
        by apply (Forall_cells uc is_Some rows _ Hsame), Hown.
Qed.

(** A series named [__proto__] on rows that have no property of that
    name: the loop changes nothing. *)
Lemma smooth_column_proto (rows : list ChartDataPoint) :
  Forall (fun point => point !! "__proto__" = None) rows ->
  smooth_column rows "__proto__" = rows.
Proof.
  intros Hall. apply list_eq. intros i.
  destruct (rows !! i) as [point|] eqn:Hi.
  - destruct (smooth_column_lookup rows "__proto__" i point Hi) as (q & _ & ->).
    f_equal. apply set_property_proto.
    by apply (proj1 (Forall_lookup _ _) Hall i point).
  - apply lookup_ge_None. rewrite smooth_column_length. by apply lookup_ge_None.
Qed.

(** C6. For distinct selected series, the smoothed column of a series is
    computed from the raw values of that column only: two matrices with
    the same raw column [uc] have the same smoothed column [uc], whatever
    their other columns hold; and the smoothed column is the moving average
    of the raw column, on every matrix whose rows hold the column (which a
    row may lack only for the name [__proto__]). *)
Theorem smoothing_column_independent (top : list string)
  (rows rows' : list ChartDataPoint) (uc : string) :
  NoDup top -> uc ∈ top ->
  map (fun point : ChartDataPoint => point !! uc) rows
  = map (fun point : ChartDataPoint => point !! uc) rows' ->
  map (fun point : ChartDataPoint => point !! uc) (smooth rows top)
  = map (fun point : ChartDataPoint => point !! uc) (smooth rows' top)
  /\ ((uc = "__proto__" -> Forall (fun point => is_Some (point !! uc)) rows) ->
      map (fun point : ChartDataPoint => point !! uc) (smooth rows top)
      = map (fun q => Some (CellNumber q))
          (calculateSimpleMovingAverage (column uc rows))).
Proof.
  intros Hnd Hin Heq. split; [by apply smooth_cells|].
  intros Hown. by apply smooth_selected.
Qed.

(** ** The aggregation *)

Lemma or_zero_read (lookup : gmap string Q) (k : string) :
  (or_zero (lookup !! k) == read_or_zero lookup k)%Q.
Proof.
  unfold or_zero, read_or_zero. destruct (lookup !! k) as [q|]; [|done].
  destruct (Qeq_bool q 0) eqn:Hq; [|done]. apply Qeq_bool_iff in Hq. by rewrite Hq.
Qed.

Lemma uc_total_sum (lookup : gmap string Q) (dateRange : list string) (uc : string) :
  (uc_total lookup dateRange uc
   == Qsum (map (fun date => read_or_zero lookup (lookup_key uc date)) dateRange))%Q.
Proof.
  unfold uc_total.
  assert (forall acc : Q,
    (fold_left (fun sum date => sum + or_zero (lookup !! lookup_key uc date)) dateRange acc
     == acc + Qsum (map (fun date => read_or_zero lookup (lookup_key uc date)) dateRange))%Q)
    as Hgen.
  { induction dateRange as [|date dateRange IH]; intros acc; simpl.
    - lra.
    - rewrite IH, or_zero_read. lra. }
  rewrite Hgen. lra.
Qed.

Lemma ucTotals_names (lookup : gmap string Q) (dateRange ucs : list string) :
  map ucName (ucTotals lookup dateRange ucs) = ucs.
Proof. unfold ucTotals. rewrite map_map. simpl. apply map_id. Qed.

Lemma ucTotals_total (lookup : gmap string Q) (dateRange ucs : list string)
  (u : UCTotal) :
  u ∈ ucTotals lookup dateRange ucs -> total u = uc_total lookup dateRange (ucName u).
Proof.
  unfold ucTotals. intros Hu. apply list_elem_of_In, in_map_iff in Hu as (uc & <- & _).
  done.
Qed.

Lemma topUCs_take (totals : list UCTotal) (topN : Z) :
  0 <= topN ->
  topUCs totals topN
  = map ucName (take (Z.to_nat topN) (sort (by_key_desc total) totals)).
Proof. intros HN. unfold topUCs. by rewrite slice_prefix. Qed.

Lemma topUCs_length (totals : list UCTotal) (topN : Z) :
  0 <= topN ->
  length (topUCs totals topN) = Nat.min (Z.to_nat topN) (length totals).
Proof.
  intros HN. rewrite topUCs_take, length_map, length_take by done.
  by rewrite (Permutation_length (sort_perm total totals)).
Qed.

Lemma topUCs_sublist (totals : list UCTotal) (topN : Z) :
  exists rest : list string,
    Permutation (topUCs totals topN ++ rest) (map ucName totals).
Proof.
  unfold topUCs, slice.
  set (sorted := sort _ totals).
  set (k := Z.to_nat (relative_index _ 0)). set (n := Z.to_nat _).
  exists (map ucName (take k sorted ++ drop n (drop k sorted))).
  rewrite <- map_app. apply Permutation_map.
  rewrite <- (sort_perm total totals). fold sorted.
  transitivity (take k sorted ++ take n (drop k sorted) ++ drop n (drop k sorted)).
  - rewrite !app_assoc. apply Permutation_app_tail, Permutation_app_comm.
  - by rewrite !take_drop.
Qed.

Lemma topUCs_NoDup (totals : list UCTotal) (topN : Z) :
  NoDup (map ucName totals) -> NoDup (topUCs totals topN).
Proof.
  intros Hnd. destruct (topUCs_sublist totals topN) as [rest Hperm].
  rewrite <- Hperm in Hnd. by apply NoDup_app in Hnd as [? _].
Qed.

Lemma uniqueUCs_NoDup (jsonData : list DataItem) : NoDup (uniqueUCs jsonData).
Proof. rewrite uniqueUCs_first_occurrences. apply first_occurrences_NoDup. Qed.

Lemma uniqueUCs_length (jsonData : list DataItem) :
  length (uniqueUCs jsonData) = size (list_to_set (map name jsonData) : gset string).
Proof.
  rewrite <- (size_list_to_set (C := gset string)) by apply uniqueUCs_NoDup.
  f_equal. apply set_eq. intros x.
  by rewrite !elem_of_list_to_set, uniqueUCs_first_occurrences, first_occurrences_elem.
Qed.

Lemma aggregate_Return (jsonData : list DataItem) (dateRange : list string)
  (topN : Z) :
  Forall (fun item => occurs "/" (confirmation_date item) = true) jsonData ->
  exists lookup : gmap string Q,
    dataLookup jsonData = Return lookup
    /\ aggregate jsonData dateRange topN
       = let top := topUCs (ucTotals lookup dateRange (uniqueUCs jsonData)) topN in
         Return (ProcessedData.make
                   (smooth (formattedData lookup top dateRange) top) top).
Proof.
  intros Hall. destruct (dataLookup_loop_Return jsonData ∅ Hall) as [lookup Hl].
  exists lookup. split; [done|]. unfold aggregate, dataLookup. by rewrite Hl.
Qed.

Lemma aggregate_Throw (jsonData : list DataItem) (dateRange : list string)
  (topN : Z) :
  Exists (fun item => occurs "/" (confirmation_date item) = false) jsonData ->
  aggregate jsonData dateRange topN = Throw TypeError.
Proof.
  intros Hex. unfold aggregate, dataLookup.
  by rewrite (dataLookup_loop_Throw jsonData ∅ Hex).
Qed.

Lemma smooth_dom (top : list string) (rows : list ChartDataPoint) (i : nat)
  (point' : ChartDataPoint) :
  smooth rows top !! i = Some point' ->
  exists point : ChartDataPoint,
    rows !! i = Some point
    /\ dom point'
       = dom point ∪ list_to_set (filter (fun u => u <> "__proto__") top).
Proof.
  revert rows point'. induction top as [|u top IH]; intros rows point' Hi.
  - exists point'. split; [done|].
    by rewrite filter_nil, list_to_set_nil, (right_id_L ∅ (∪)).
  - change (smooth rows (u :: top)) with (smooth (smooth_column rows u) top) in Hi.
    destruct (IH _ _ Hi) as (point1 & H1 & Hdom).
    destruct (rows !! i) as [point|] eqn:Hrow.
    + destruct (smooth_column_lookup rows u i point Hrow) as (q & _ & H2).
      rewrite H2 in H1. injection H1 as <-. exists point. split; [done|].
      rewrite Hdom, set_property_dom. apply set_eq. intros x.
      rewrite !elem_of_union, !elem_of_list_to_set, !list_elem_of_filter,
        !elem_of_cons, elem_of_nil. tauto.
    + apply lookup_ge_None in Hrow.
      rewrite lookup_ge_None_2 in H1; [done|]. by rewrite smooth_column_length.
Qed.

(** ** The claims about the aggregation *)

(** C3. For a positive [topN] the ranked series are the first [topN] names
    of a list [ranked] of totals that is a permutation of the totals of the
    discovered series (the distinct names in first-occurrence order), each
    total being the sum over the axis of the lookup reads with a missing
    entry read as 0; [ranked] is in descending order of total, and series of
    equal total keep their discovery order; there is one such list only.
    Totals A:30, B:30, C:10 with [topN = 2] give [A, B]. *)
Theorem topUCs_ranking (jsonData : list DataItem) (dateRange : list string)
  (lookup : gmap string Q) (topN : Z) :
  0 < topN ->
  exists ranked : list UCTotal,
    topUCs (ucTotals lookup dateRange (uniqueUCs jsonData)) topN
    = map ucName (take (Z.to_nat topN) ranked)
    /\ (dataLookup jsonData = Return lookup ->
          exists r : ProcessedData.t,
            aggregate jsonData dateRange topN = Return r
            /\ ProcessedData.uniqueUCs r = map ucName (take (Z.to_nat topN) ranked))
    /\ uniqueUCs jsonData = first_occurrences (map name jsonData)
    /\ Permutation ranked
         (ucTotals lookup dateRange (first_occurrences (map name jsonData)))
    /\ (forall u : UCTotal, u ∈ ranked ->
          (total u
           == Qsum (map (fun date => read_or_zero lookup (lookup_key (ucName u) date))
                      dateRange))%Q)
    /\ (forall k : string, lookup !! k = None -> read_or_zero lookup k = 0%Q)
    /\ StronglySorted (desc total) ranked
    /\ (forall t : Q,
          filter (fun u => Qeq_bool (total u) t = true) ranked
          = filter (fun u => Qeq_bool (total u) t = true)
              (ucTotals lookup dateRange (first_occurrences (map name jsonData))))
    /\ (forall ranked' : list UCTotal,
          Permutation ranked'
            (ucTotals lookup dateRange (first_occurrences (map name jsonData))) ->
          StronglySorted (desc total) ranked' ->
          (forall t : Q,
             filter (fun u => Qeq_bool (total u) t = true) ranked'
             = filter (fun u => Qeq_bool (total u) t = true)
                 (ucTotals lookup dateRange (first_occurrences (map name jsonData)))) ->
          ranked' = ranked)
    /\ topUCs [ {| ucName := "A"; total := 30 |}; {| ucName := "B"; total := 30 |};
                {| ucName := "C"; total := 10 |} ] 2 = ["A"; "B"].
Proof.
  intros HN.
  set (totals := ucTotals lookup dateRange (uniqueUCs jsonData)).
  exists (sort (by_key_desc total) totals).
  assert (topUCs totals topN
          = map ucName (take (Z.to_nat topN) (sort (by_key_desc total) totals)))
    as Htake by (apply topUCs_take; lia).
  split; [done|]. split.
  { intros Hl. unfold aggregate. rewrite Hl. eexists. split; [reflexivity|].
    cbn [ProcessedData.uniqueUCs]. exact Htake. }
  split; [apply uniqueUCs_first_occurrences|].
  assert (totals = ucTotals lookup dateRange (first_occurrences (map name jsonData)))
    as <- by (subst totals; by rewrite uniqueUCs_first_occurrences).
  split; [apply sort_perm|]. split; [|split; [|split; [|split; [|split]]]].
  - intros u Hu. rewrite (sort_perm total totals) in Hu.
    rewrite (ucTotals_total _ _ _ _ Hu). apply uc_total_sum.
  - intros k Hk. unfold read_or_zero. by rewrite Hk.
  - apply sort_sorted.
  - intros t. apply sort_stable.
  - intros ranked' Hperm Hsorted Hstable.
    apply (stable_sort_unique total totals); try done.
    + apply sort_perm.
    + apply sort_sorted.
    + intros t. apply sort_stable.
  - done.
Qed.

Lemma topUCs_ranking_witness :
  0 < 2
  /\ exists ranked : list UCTotal,
       topUCs (ucTotals example_lookup example_axis (uniqueUCs example_records)) 2
       = map ucName (take 2 ranked)
       /\ StronglySorted (desc total) ranked
       /\ topUCs (ucTotals example_lookup example_axis (uniqueUCs example_records)) 2
          = ["A"; "B"].
Proof.
  split; [lia|].
  destruct (topUCs_ranking example_records example_axis example_lookup 2)
    as (ranked & Htop & _ & _ & _ & _ & _ & Hsorted & _ & _ & _); [lia|].
  exists ranked. split; [exact Htop|]. split; [exact Hsorted|]. reflexivity.
Defined.

Example example_dataLookup : dataLookup example_records = Return example_lookup.
Proof. reflexivity. Qed.

Lemma matches_key (uc date : string) (item : DataItem) (d : string) :
  formatDate (confirmation_date item) = Return d ->
  String.length d = String.length date ->
  matches uc date item = true
  <-> lookup_key (name item) d = lookup_key uc date.
Proof.
  intros Hd Hlen. unfold matches. rewrite Hd.
  rewrite andb_true_iff, !bool_decide_eq_true. split.
  - by intros [-> ->].
  - by apply lookup_key_inj.
Qed.

(** Under the key of a series and a date the lookup holds the value of the
    last record of that series on that date, when the formatted dates of
    the records are as long as the date. *)
Lemma dataLookup_loop_series (uc date : string) (jsonData : list DataItem) :
  forall m m' : gmap string Q,
    dataLookup_loop jsonData m = Return m' ->
    (forall (item : DataItem) (d : string),
       item ∈ jsonData -> formatDate (confirmation_date item) = Return d ->
       String.length d = String.length date) ->
    m' !! lookup_key uc date
    = match series_value jsonData uc date with
      | Some v => Some v
      | None => m !! lookup_key uc date
      end.
Proof.
  induction jsonData as [|item rest IH]; intros m m' Hm Hlen.
  - simpl in Hm. by injection Hm as <-.
  - cbn [dataLookup_loop] in Hm.
    destruct (formatDate (confirmation_date item)) as [d|] eqn:Hd; [|done].
    cbn [mbind completion_bind] in Hm.
    rewrite (IH _ _ Hm) by (intros item' d' Hin; apply Hlen; by right).
    pose proof (matches_key uc date item d Hd (Hlen item d ltac:(left) Hd)) as Hkey.
    unfold series_value. destruct (matches uc date item) eqn:Hmatch.
    + rewrite filter_cons_True by done. cbn [map]. rewrite last_cons.
      destruct (last _); [done|].
      rewrite (proj1 Hkey eq_refl). apply lookup_insert_eq.
    + rewrite filter_cons_False by (by rewrite Hmatch).
      destruct (last _); [done|].
      apply lookup_insert_ne. intros Heq. apply Hkey in Heq. discriminate.
Qed.

Lemma dataLookup_series (uc date : string) (jsonData : list DataItem)
  (lookup : gmap string Q) :
  dataLookup jsonData = Return lookup ->
  (forall (item : DataItem) (d : string),
     item ∈ jsonData -> formatDate (confirmation_date item) = Return d ->
     String.length d = String.length date) ->
  lookup !! lookup_key uc date = series_value jsonData uc date.
Proof.
  intros Hl Hlen. rewrite (dataLookup_loop_series uc date jsonData ∅ lookup Hl Hlen).
  rewrite lookup_empty. by destruct (series_value jsonData uc date).
Qed.

Lemma series_value_None (uc date : string) (jsonData : list DataItem) :
  (forall item : DataItem, item ∈ jsonData -> matches uc date item = false) ->
  series_value jsonData uc date = None.
Proof.
  intros Hnone. unfold series_value.
  replace (filter (fun item => matches uc date item = true) jsonData) with (@nil DataItem);
    [done|].
  symmetry. induction jsonData as [|item rest IH]; [done|].
  rewrite filter_cons_False by (rewrite Hnone; [done|by left]).
  apply IH. intros item' Hin. apply Hnone. by right.
Qed.

(** C5 as stated fails: the lookup is keyed by the string
    [`${name}-${date}`], and no date is validated.  The record of the
    series [A] dated [7/1/B-2024] is stored under [A-B-2024-07-01], the key
    of the series [A-B] on 2024-07-01: that series, which is the ranked
    one, has no record on that date, and its row holds 5. *)
Lemma formattedData_key_collision :
  ~ (forall (jsonData : list DataItem) (lookup : gmap string Q)
            (dateRange top : list string) (topN : Z) (i : nat)
            (date uc : string) (point : ChartDataPoint),
        dataLookup jsonData = Return lookup ->
        top = topUCs (ucTotals lookup dateRange (uniqueUCs jsonData)) topN ->
        dateRange !! i = Some date -> uc ∈ top ->
        formattedData lookup top dateRange !! i = Some point ->
        (forall item : DataItem, item ∈ jsonData -> matches uc date item = false) ->
        point !! uc = Some (CellNumber 0)).
Proof.
  intros Hclaim.
  specialize (Hclaim
    [ {| name := "A-B"; confirmation_date := "7/2/2024"; value := 1 |};
      {| name := "A"; confirmation_date := "7/1/B-2024"; value := 5 |} ]
    (<["A-B-2024-07-01" := 5%Q]> {["A-B-2024-07-02" := 1%Q]})
    ["2024-07-01"; "2024-07-02"] ["A-B"] 1 0%nat "2024-07-01" "A-B"
    (<["A-B" := CellNumber 5]> {["date" := CellString "2024-07-01"]})).
  assert ((<["A-B" := CellNumber 5]> {["date" := CellString "2024-07-01"]}
           : ChartDataPoint) !! "A-B" = Some (CellNumber 0)) as Hcell.
  { apply Hclaim; [reflexivity..| |reflexivity|].
    - by left.
    - intros item Hin.
      repeat apply elem_of_cons in Hin as [->|Hin];
        try (by apply elem_of_nil in Hin); reflexivity. }
  rewrite lookup_insert_eq in Hcell. discriminate Hcell.
Qed.

(** C5, amended.  The dense matrix has one row per axis date, in axis
    order.  The row of a date holds the date (unless a series is called
    [date]) and, for every selected series, a number: the value that the
    lookup holds under the key string of the series and the date, or 0; so 0
    when no record is stored under that string.  When the formatted dates
    of the records are as long as the date, as those of records dated
    [M/D/YYYY] are, that number is the value of the last record of the
    series on the date, and 0 when the series has no record on that date.
    A series named [__proto__] is left out of this statement. *)
Theorem formattedData_dense (lookup : gmap string Q) (top dateRange : list string) :
  length (formattedData lookup top dateRange) = length dateRange
  /\ (forall (i : nat) (date : string), dateRange !! i = Some date ->
        exists point : ChartDataPoint,
          formattedData lookup top dateRange !! i = Some point
          /\ ("date" ∉ top -> point !! "date" = Some (CellString date))
          /\ (forall uc : string, uc ∈ top -> uc <> "__proto__" ->
                exists q : Q,
                  point !! uc = Some (CellNumber q)
                  /\ q = or_zero (lookup !! lookup_key uc date)
                  /\ (forall jsonData : list DataItem,
                        dataLookup jsonData = Return lookup ->
                        (Forall (fun item => item_key item <> Return (lookup_key uc date))
                           jsonData ->
                         q = 0%Q)
                        /\ ((forall (item : DataItem) (d : string),
                               item ∈ jsonData ->
                               formatDate (confirmation_date item) = Return d ->
                               String.length d = String.length date) ->
                            q = or_zero (series_value jsonData uc date)
                            /\ ((forall item : DataItem, item ∈ jsonData ->
                                   matches uc date item = false) ->
                                q = 0%Q))))).
Proof.
  split.
  - unfold formattedData. by rewrite length_map.
  - intros i date Hi. exists (dataPoint_of lookup top date). split; [|split].
    + unfold formattedData. change map with (@fmap list _).
      by rewrite list_lookup_fmap, Hi.
    + intros Hnin. rewrite dataPoint_of_lookup.
      by rewrite decide_False, decide_True by tauto.
    + intros uc Hin Hproto. exists (or_zero (lookup !! lookup_key uc date)).
      split; [|split; [done|]].
      * rewrite dataPoint_of_lookup. by rewrite decide_True by done.
      * intros jsonData Hl. split.
        -- intros Hnone.
           by rewrite (dataLookup_loop_other _ _ _ _ Hl Hnone), lookup_empty.
        -- intros Hlen.
           rewrite (dataLookup_series uc date jsonData lookup Hl Hlen).
           split; [done|]. intros Hnone. by rewrite series_value_None.
Qed.

Lemma formattedData_dense_witness :
  exists point : ChartDataPoint,
    formattedData example_lookup ["A"; "B"] example_axis !! 1%nat = Some point
    /\ point !! "date" = Some (CellString "2024-07-02")
    /\ point !! "A" = Some (CellNumber 20)
    /\ point !! "B" = Some (CellNumber 0).
Proof.
  destruct (formattedData_dense example_lookup ["A"; "B"] example_axis)
    as [_ Hrows].
  destruct (Hrows 1%nat "2024-07-02" eq_refl) as (point & Hpoint & Hdate & Hcells).
  exists point. split; [exact Hpoint|]. split.
  - apply Hdate. intros Hin. by repeat apply elem_of_cons in Hin as [?|Hin];
      try apply elem_of_nil in Hin.
  - split.
    + destruct (Hcells "A") as (q & Hq & -> & _); [by left|discriminate|]. exact Hq.
    + destruct (Hcells "B") as (q & Hq & _ & Hrecords); [by right; left|discriminate|].
      destruct (Hrecords example_records eq_refl) as [_ Hlast].
      destruct Hlast as [_ Hzero].
      * intros item d Hin Hd.
        repeat apply elem_of_cons in Hin as [->|Hin];
          try (by apply elem_of_nil in Hin);
          simpl in Hd; injection Hd as <-; reflexivity.
      * rewrite Hq, Hzero; [reflexivity|].
        intros item Hin.
        repeat apply elem_of_cons in Hin as [->|Hin];
          try (by apply elem_of_nil in Hin); reflexivity.
Defined.

Lemma aggregate_rows (jsonData : list DataItem) (dateRange : list string)
  (topN : Z) (r : ProcessedData.t) (point : ChartDataPoint) :
  aggregate jsonData dateRange topN = Return r ->
  point ∈ ProcessedData.chartData r ->
  dom point
  = {["date"]}
    ∪ list_to_set (filter (fun u => u <> "__proto__") (ProcessedData.uniqueUCs r)).
Proof.
  intros Hr [i Hi]%list_elem_of_lookup. unfold aggregate in Hr.
  destruct (dataLookup jsonData) as [lookup|]; [|done].
  cbn [mbind completion_bind] in Hr. injection Hr as <-.
  cbn [ProcessedData.uniqueUCs ProcessedData.chartData] in *.
  destruct (smooth_dom _ _ _ _ Hi) as (point0 & Hrow & ->).
  unfold formattedData in Hrow. change map with (@fmap list _) in Hrow.
  rewrite list_lookup_fmap in Hrow.
  destruct (dateRange !! i) as [date|]; [|done]. injection Hrow as <-.
  rewrite dataPoint_of_dom. apply set_eq. intros x.
  rewrite !elem_of_union. tauto.
Qed.

(** C10, for a series named [__proto__].  With a record of a series named
    [__proto__] and a record of a series [A] the returned series are
    [__proto__] and [A], but the row holds the keys [date] and [A] only:
    the assignments to [__proto__], in the densification and in the
    smoothing loop, create no property.  No returned row ever has the key
    [__proto__]. *)
Theorem aggregate_proto_keys :
  aggregate
    [ {| name := "__proto__"; confirmation_date := "7/1/2024"; value := 9 |};
      {| name := "A"; confirmation_date := "7/1/2024"; value := 4 |} ]
    ["2024-07-01"] 2
  = Return (ProcessedData.make
              [ <["A" := CellNumber 4]> {["date" := CellString "2024-07-01"]} ]
              ["__proto__"; "A"])
  /\ dom (<["A" := CellNumber 4]> {["date" := CellString "2024-07-01"]}
           : ChartDataPoint)
     <> ({["date"]} ∪ list_to_set ["__proto__"; "A"] : gset string)
  /\ (forall (jsonData : list DataItem) (dateRange : list string) (topN : Z)
             (r : ProcessedData.t) (point : ChartDataPoint),
        aggregate jsonData dateRange topN = Return r ->
        point ∈ ProcessedData.chartData r ->
        "__proto__" ∉ dom point).
Proof.
  split; [reflexivity|]. split.
  - intros Heq.
    assert ("__proto__" ∈ dom (<["A" := CellNumber 4]>
                                 {["date" := CellString "2024-07-01"]}
                               : ChartDataPoint)) as Hin.
    { rewrite Heq. apply elem_of_union. right. apply elem_of_list_to_set. by left. }
    apply elem_of_dom in Hin as [c Hc].
    rewrite lookup_insert_ne, lookup_singleton_ne in Hc; done.
  - intros jsonData dateRange topN r point Hr Hin.
    rewrite (aggregate_rows _ _ _ _ _ Hr Hin).
    rewrite elem_of_union, elem_of_singleton, elem_of_list_to_set, list_elem_of_filter.
    intros [?|[? _]]; done.
Qed.

(** X22. When the aggregation returns, for a [topN >= 0], the returned
    series list has [min topN n] elements, [n] the number of distinct series
    names of the records, the chart has one row per axis date, and the keys
    of every row are [date] and the returned series other than [__proto__].
    It returns when every record's date has a [/]. *)
Theorem aggregate_shape (jsonData : list DataItem) (dateRange : list string)
  (topN : Z) :
  0 <= topN ->
  (Forall (fun item => occurs "/" (confirmation_date item) = true) jsonData ->
   exists r : ProcessedData.t, aggregate jsonData dateRange topN = Return r)
  /\ (forall r : ProcessedData.t,
        aggregate jsonData dateRange topN = Return r ->
        length (ProcessedData.uniqueUCs r)
        = Nat.min (Z.to_nat topN) (size (list_to_set (map name jsonData) : gset string))
        /\ NoDup (ProcessedData.uniqueUCs r)
        /\ length (ProcessedData.chartData r) = length dateRange
        /\ (forall point : ChartDataPoint, point ∈ ProcessedData.chartData r ->
              dom point
              = {["date"]}
                ∪ list_to_set (filter (fun u => u <> "__proto__")
                                 (ProcessedData.uniqueUCs r)))
        /\ ("__proto__" ∉ ProcessedData.uniqueUCs r ->
            forall point : ChartDataPoint, point ∈ ProcessedData.chartData r ->
              dom point = {["date"]} ∪ list_to_set (ProcessedData.uniqueUCs r))).
Proof.
  intros HN. split.
  { intros Hall.
    destruct (aggregate_Return jsonData dateRange topN Hall) as (lookup & _ & ->).
    eauto. }
  intros r Hr.
  assert (forall point : ChartDataPoint, point ∈ ProcessedData.chartData r ->
            dom point
            = {["date"]}
              ∪ list_to_set (filter (fun u => u <> "__proto__")
                               (ProcessedData.uniqueUCs r))) as Hkeys
    by (intros point; by apply (aggregate_rows jsonData dateRange topN)).
  assert (length (ProcessedData.uniqueUCs r)
          = Nat.min (Z.to_nat topN) (size (list_to_set (map name jsonData) : gset string))
          /\ NoDup (ProcessedData.uniqueUCs r)
          /\ length (ProcessedData.chartData r) = length dateRange) as (? & ? & ?).
  { unfold aggregate in Hr.
    destruct (dataLookup jsonData) as [lookup|]; [|done].
    cbn [mbind completion_bind] in Hr. injection Hr as <-.
    cbn [ProcessedData.uniqueUCs ProcessedData.chartData].
    set (top := topUCs _ topN). split; [|split].
    - subst top. rewrite topUCs_length by done. unfold ucTotals.
      by rewrite length_map, uniqueUCs_length.
    - apply topUCs_NoDup. rewrite ucTotals_names. apply uniqueUCs_NoDup.
    - rewrite smooth_length. unfold formattedData. by rewrite length_map. }
  repeat split; try done.
  intros Hnp point Hin. rewrite (Hkeys point Hin). do 2 f_equal.
  apply filter_elems. intros u Hu ->. done.
Qed.

Lemma aggregate_shape_witness :
  0 <= 2
  /\ exists r : ProcessedData.t,
       aggregate example_records example_axis 2 = Return r
       /\ length (ProcessedData.uniqueUCs r) = 2%nat
       /\ length (ProcessedData.chartData r) = 2%nat.
Proof.
  split; [lia|].
  destruct (aggregate_shape example_records example_axis 2) as [Hret Hshape]; [lia|].
  destruct Hret as [r Hr]; [repeat constructor|].
  exists r. destruct (Hshape r Hr) as (Hlen & _ & Hrows & _).
  split; [exact Hr|]. split; [exact Hlen|exact Hrows].
Defined.

Lemma slice_nil {A : Type} (arr : list A) (n : Z) :
  n = 0 \/ n <= - Z.of_nat (length arr) -> slice arr 0 n = [].
Proof.
  intros Hn. unfold slice, relative_index. simpl.
  rewrite (Z.min_l 0) by lia. rewrite Z.sub_0_r.
  destruct (Z.ltb_spec n 0).
  - rewrite Z.max_r by lia. done.
  - assert (n = 0) as -> by lia. rewrite Z.min_l by lia. done.
Qed.

(** C7, amended.  When the record list is empty, or [topN] is 0 or at most
    minus the number of distinct series and every record's date has a [/],
    the aggregation returns: the series list is empty and the chart has one
    row per axis date, which holds the date only. *)
Theorem aggregate_no_series (jsonData : list DataItem) (dateRange : list string)
  (topN : Z) :
  Forall (fun item => occurs "/" (confirmation_date item) = true) jsonData ->
  jsonData = [] \/ topN = 0 \/ topN <= - Z.of_nat (length (uniqueUCs jsonData)) ->
  aggregate jsonData dateRange topN
  = Return (ProcessedData.make
              (map (fun date => {["date" := CellString date]}) dateRange) []).
Proof.
  intros Hall Hcase.
  destruct (aggregate_Return jsonData dateRange topN Hall) as (lookup & Hl & ->).
  cbv zeta.
  assert (topUCs (ucTotals lookup dateRange (uniqueUCs jsonData)) topN = []) as ->.
  { destruct Hcase as [->|Hcase].
    - change (uniqueUCs []) with (@nil string). cbn [ucTotals map].
      unfold topUCs. cbn [sort]. unfold slice. by rewrite drop_nil, take_nil.
    - unfold topUCs. rewrite slice_nil; [done|].
      rewrite (Permutation_length (sort_perm total _)). unfold ucTotals.
      by rewrite length_map. }
  done.
Qed.

Lemma aggregate_no_series_witness :
  Forall (fun item => occurs "/" (confirmation_date item) = true) example_records
  /\ aggregate example_records example_axis 0
     = Return (ProcessedData.make
                 [ {["date" := CellString "2024-07-01"]};
                   {["date" := CellString "2024-07-02"]} ] []).
Proof.
  split; [repeat constructor|].
  apply (aggregate_no_series example_records example_axis 0).
  - repeat constructor.
  - right. left. reflexivity.
Defined.

(** C7 as stated fails on a negative [topN]: [slice(0, -1)] drops the last
    ranked series only, so the series list and the rows are not empty. *)
Lemma aggregate_negative_topN_not_empty :
  ~ (forall (jsonData : list DataItem) (dateRange : list string) (topN : Z),
        jsonData = [] \/ topN <= 0 ->
        exists r : ProcessedData.t,
          aggregate jsonData dateRange topN = Return r
          /\ ProcessedData.uniqueUCs r = []).
Proof.
  intros Hclaim.
  destruct (Hclaim example_records example_axis (-1)) as (r & Hr & Hempty);
    [right; lia|].
  assert (aggregate example_records example_axis (-1)
    = Return (ProcessedData.make
                [ <["B" := CellNumber 30]>
                    (<["A" := CellNumber 10]> {["date" := CellString "2024-07-01"]});
                  <["B" := CellNumber 0]>
                    (<["A" := CellNumber 20]> {["date" := CellString "2024-07-02"]}) ]
                ["A"; "B"])) as Heval by (by vm_compute).
  rewrite Heval in Hr. injection Hr as <-. discriminate Hempty.
Qed.

(** C8 as stated fails: a date with non-numeric components is formatted
    as it is, and the aggregation returns a chart. *)
Lemma formatDate_no_ParseError :
  ~ (forall (jsonData : list DataItem) (dateRange : list string) (topN : Z),
        Exists (fun item => well_formed_raw_date (confirmation_date item) = false)
          jsonData ->
        exists e : exn, aggregate jsonData dateRange topN = Throw e).
Proof.
  intros Hclaim.
  destruct (Hclaim
    [ {| name := "X"; confirmation_date := "a/b/c"; value := 5 |} ]
    ["2024-07-01"] 1) as [e He].
  - constructor. reflexivity.
  - assert (aggregate
      [ {| name := "X"; confirmation_date := "a/b/c"; value := 5 |} ]
      ["2024-07-01"] 1
      = Return (ProcessedData.make
                  [ <["X" := CellNumber 0]> {["date" := CellString "2024-07-01"]} ]
                  ["X"])) as Heval by (by vm_compute).
    rewrite Heval in He. discriminate He.
Qed.

(** C8, amended.  [formatDate] checks nothing.  It throws (a TypeError, from
    [padStart] on the missing day) exactly when the string has no [/]; any
    other string is formatted from its first three components as they are,
    a missing third one printing as [undefined].  When the date of some
    record throws, the aggregation throws and returns nothing; otherwise it
    returns. *)
Theorem aggregate_all_or_nothing :
  (forall s : string, occurs "/" s = false -> formatDate s = Throw TypeError)
  /\ (forall s : string, occurs "/" s = true ->
        exists (month day : string) (rest : list string),
          split "/" s = month :: day :: rest
          /\ formatDate s
             = Return (template_string (head rest) +:+ "-" +:+ padStart month 2 "0"
                       +:+ "-" +:+ padStart day 2 "0"))
  /\ (forall (jsonData : list DataItem) (dateRange : list string) (topN : Z),
        Exists (fun item => occurs "/" (confirmation_date item) = false) jsonData ->
        aggregate jsonData dateRange topN = Throw TypeError)
  /\ (forall (jsonData : list DataItem) (dateRange : list string) (topN : Z),
        Forall (fun item => occurs "/" (confirmation_date item) = true) jsonData ->
        exists r : ProcessedData.t, aggregate jsonData dateRange topN = Return r)
  /\ formatDate "a/b/c" = Return "c-0a-0b"
  /\ formatDate "7/4" = Return "undefined-07-04"
  /\ formatDate "1/2/3/4" = Return "3-01-02"
  /\ formatDate "20240704" = Throw TypeError.
Proof.
  split; [apply formatDate_Throw|]. split; [|split; [|split]].
  - intros s Hs%occurs_split_length. unfold formatDate.
    destruct (split "/" s) as [|month [|day rest]]; simpl in Hs; [lia..|].
    exists month, day, rest. split; [done|]. by destruct rest.
  - apply aggregate_Throw.
  - intros jsonData dateRange topN Hall.
    destruct (aggregate_Return jsonData dateRange topN Hall) as (lookup & _ & ->).
    eauto.
  - done.
Qed.


Lemma smoothing_column_independent_witness :
  map (fun point : ChartDataPoint => point !! "A")
    (smooth (formattedData example_lookup ["A"; "B"] example_axis) ["A"; "B"])
  = map (fun point : ChartDataPoint => point !! "A")
      (smooth (formattedData (<["B-2024-07-02" := 99%Q]> example_lookup)
                 ["A"; "B"] example_axis) ["A"; "B"])
  /\ map (fun point : ChartDataPoint => point !! "A")
       (smooth (formattedData example_lookup ["A"; "B"] example_axis) ["A"; "B"])
     = map (fun q => Some (CellNumber q))
         (calculateSimpleMovingAverage
            (column "A" (formattedData example_lookup ["A"; "B"] example_axis))).
Proof.
  destruct (smoothing_column_independent ["A"; "B"]
              (formattedData example_lookup ["A"; "B"] example_axis)
              (formattedData (<["B-2024-07-02" := 99%Q]> example_lookup)
                 ["A"; "B"] example_axis) "A") as [Hsame Haverage].
  - apply NoDup_cons. split; [|apply NoDup_singleton].
    intros Hin. apply list_elem_of_singleton in Hin. discriminate Hin.
  - by left.
  - reflexivity.
  - split; [exact Hsame|]. apply Haverage. discriminate.
Defined.

(** The scenario of two records of one series: both points are below
    index 13 and stay as they are. *)
Example aggregate_two_records :
  aggregate
    [ {| name := "X"; confirmation_date := "7/1/2024"; value := 5 |};
      {| name := "X"; confirmation_date := "7/2/2024"; value := 7 |} ]
    ["2024-07-01"; "2024-07-02"] 1
  = Return (ProcessedData.make
              [ <["X" := CellNumber 5]> {["date" := CellString "2024-07-01"]};
                <["X" := CellNumber 7]> {["date" := CellString "2024-07-02"]} ]
              ["X"]).
Proof. reflexivity. Qed.

(** The callback of the component on 2024-07-03 at 12:00 UTC in Karachi. *)
Example processData_Karachi :
  processData Asia_Karachi 10 (MakeDate (MakeDay 2024 6 3) (12 * msPerHour))
    [ {| name := "X"; confirmation_date := "7/1/2024"; value := 5 |};
      {| name := "X"; confirmation_date := "7/3/2024"; value := 7 |} ] 5
  = Some (Return (ProcessedData.make
              [ <["X" := CellNumber 5]> {["date" := CellString "2024-07-01"]};
                <["X" := CellNumber 0]> {["date" := CellString "2024-07-02"]};
                <["X" := CellNumber 7]> {["date" := CellString "2024-07-03"]} ]
              ["X"])).
Proof. reflexivity. Qed.

(** * Further properties *)

(** ** generateDateRange on any host *)

Lemma generateDateRange_loop_dates (h : Host) (fuel : nat) :
  forall (c e : option Z) (acc dates : list string),
    generateDateRange_loop h fuel c e acc = Some dates ->
    exists rest : list string,
      dates = acc ++ rest
      /\ (forall d : string, d ∈ rest ->
            exists t et : Z, e = Some et /\ t <= et
                             /\ d = iso_of_civil (civil_of_time t))
      /\ (forall ct et : Z, c = Some ct -> e = Some et -> ct <= et ->
            head rest = Some (iso_of_civil (civil_of_time ct)))
      /\ (forall ct et : Z, c = Some ct -> e = Some et -> et < ct -> rest = []).
Proof.
  induction fuel as [|fuel IH]; intros c e acc dates Hrun; [done|].
  cbn [generateDateRange_loop] in Hrun.
  destruct c as [ct|], e as [et|];
    try (injection Hrun as <-; exists []; rewrite app_nil_r;
         repeat split; try done; intros d Hd; by apply elem_of_nil in Hd).
  destruct (Z.leb_spec ct et) as [Hle|Hgt].
  - apply IH in Hrun as (rest & -> & Hall & _ & _).
    rewrite toISOString_date, <- app_assoc.
    exists ([iso_of_civil (civil_of_time ct)] ++ rest).
    split; [done|]. split; [|split].
    + intros d [->%list_elem_of_singleton|Hd]%elem_of_app; [|by apply Hall].
      exists ct, et. done.
    + intros ? ? [= <-] [= <-] _. done.
    + intros ? ? [= <-] [= <-] ?. lia.
  - injection Hrun as <-. exists []. rewrite app_nil_r.
    split; [done|]. split; [|split].
    + intros d Hd. by apply elem_of_nil in Hd.
    + intros ? ? [= <-] [= <-] ?. lia.
    + done.
Qed.

Lemma Day_mono (t1 t2 : Z) : t1 <= t2 -> Day t1 <= Day t2.
Proof. unfold Day, msPerDay. intros. Z.div_mod_to_equations; lia. Qed.

Lemma Day_of_day (n : Z) : Day (n * msPerDay) = n.
Proof. unfold Day, msPerDay. Z.div_mod_to_equations; lia. Qed.

(** [setDate(getDate() + 1)] moves to the same local time on the next
    local day, and reads it back as an instant. *)
Lemma setDate_next (h : Host) (c : Z) :
  setDate h (Some c) (option_map (fun dt => dt + 1) (getDate h (Some c)))
  = TimeClip (UTC h (LocalTime h c + msPerDay)).
Proof.
  unfold setDate, getDate, option_map.
  rewrite MakeDay_succ, MakeDay_civil. do 2 f_equal.
  pose proof (MakeDate_Day (LocalTime h c)) as Ht. revert Ht.
  generalize (Day (LocalTime h c)), (TimeWithinDay (LocalTime h c)).
  unfold MakeDate, msPerDay. lia.
Qed.

Lemma progressing_fixed (offset : Z) : progressing (fixed_zone offset).
Proof. intros t. unfold UTC, LocalTime, msPerDay. simpl. lia. Qed.

Lemma progressing_New_York : progressing America_New_York.
Proof.
  intros t. unfold UTC, LocalTime, America_New_York. cbn [LocalTZA].
  change (MakeDate (MakeDay 2024 10 3) 0) with 1730592000000.
  unfold msPerDay, msPerHour.
  repeat match goal with
         | |- context [?a <? ?b] => destruct (Z.ltb_spec a b)
         end; lia.
Qed.

Lemma generateDateRange_loop_fuel (h : Host) (fuel : nat) :
  forall (c e : option Z) (acc dates : list string) (fuel' : nat),
    generateDateRange_loop h fuel c e acc = Some dates ->
    (fuel <= fuel')%nat ->
    generateDateRange_loop h fuel' c e acc = Some dates.
Proof.
  induction fuel as [|fuel IH]; intros c e acc dates fuel' Hrun Hle; [done|].
  destruct fuel' as [|fuel']; [lia|].
  cbn [generateDateRange_loop] in Hrun |- *.
  destruct c as [ct|], e as [et|]; try done.
  destruct (ct <=? et); [|done]. apply (IH _ _ _ _ _ Hrun). lia.
Qed.

Lemma generateDateRange_loop_ends (h : Host) (e : Z) :
  progressing h ->
  forall (n : nat) (c : Z) (acc : list string),
    (Z.to_nat (e - c + 1) <= n)%nat ->
    exists rest : list string,
      generateDateRange_loop h (S (S n)) (Some c) (Some e) acc = Some (acc ++ rest)
      /\ forall d : string, d ∈ rest ->
           exists t : Z, c <= t <= e /\ d = iso_of_civil (civil_of_time t).
Proof.
  intros Hp. induction n as [|n IH]; intros c acc Hn.
  - exists []. cbn [generateDateRange_loop].
    destruct (Z.leb_spec c e); [lia|]. rewrite app_nil_r.
    split; [done|]. intros d Hd. by apply elem_of_nil in Hd.
  - cbn [generateDateRange_loop]. destruct (Z.leb_spec c e) as [Hle|Hgt].
    + rewrite setDate_next, toISOString_date. pose proof (Hp c) as Hnext.
      destruct (TimeClip _) as [c'|] eqn:Hclip.
      * assert (c' = UTC h (LocalTime h c + msPerDay)) as Hc'.
        { unfold TimeClip in Hclip. destruct (_ <=? _); [|done]. by injection Hclip. }
        destruct (IH c' (acc ++ [iso_of_civil (civil_of_time c)])) as (rest & Hrun & Hall);
          [lia|].
        exists (iso_of_civil (civil_of_time c) :: rest).
        cbn [generateDateRange_loop] in Hrun. rewrite Hrun, <- app_assoc.
        split; [done|].
        intros d [->|Hd]%elem_of_cons; [exists c; split; [lia|done]|].
        destruct (Hall d Hd) as (t & Ht & ->). exists t. split; [lia|done].
      * exists [iso_of_civil (civil_of_time c)]. split; [done|].
        intros d ->%list_elem_of_singleton. exists c. split; [lia|done].
    + exists []. rewrite app_nil_r. split; [done|].
      intros d Hd. by apply elem_of_nil in Hd.
Qed.

(** The UTC date of an instant between the midnights of two canonical
    dates is a canonical date between them. *)
Lemma civil_between (s e : Z * Z * Z) (t : Z) :
  canonical s = true -> canonical e = true ->
  day_of_civil s * msPerDay <= t <= day_of_civil e * msPerDay ->
  canonical (civil_of_time t) = true
  /\ day_of_civil s <= day_of_civil (civil_of_time t) <= day_of_civil e.
Proof.
  intros Hs He [Hlo Hhi].
  pose proof (Day_mono _ _ Hlo) as Hd1. pose proof (Day_mono _ _ Hhi) as Hd2.
  rewrite Day_of_day in Hd1, Hd2. rewrite day_of_civil_of_time. split; [|done].
  pose proof (canonical_year s Hs) as Hys. pose proof (canonical_year e He) as Hye.
  pose proof (YearFromDay_mono _ _ Hd1). pose proof (YearFromDay_mono _ _ Hd2).
  unfold canonical, civil_of_time. rewrite civil_valid, andb_true_r.
  unfold YearFromTime. apply andb_true_intro. split; apply Z.leb_le; lia.
Qed.

Lemma generateDateRange_progressing (h : Host) (s e : Z * Z * Z) :
  progressing h -> canonical s = true -> canonical e = true ->
  exists (fuel0 : nat) (dates : list string),
    (forall fuel : nat, (fuel0 <= fuel)%nat ->
       generateDateRange h fuel (iso_of_civil s) (iso_of_civil e) = Some dates)
    /\ (forall d : string, d ∈ dates ->
          exists c : Z * Z * Z,
            canonical c = true /\ d = iso_of_civil c
            /\ day_of_civil s <= day_of_civil c <= day_of_civil e).
Proof.
  intros Hp Hs He.
  set (n := Z.to_nat (day_of_civil e * msPerDay - day_of_civil s * msPerDay + 1)).
  destruct (generateDateRange_loop_ends h (day_of_civil e * msPerDay) Hp n
              (day_of_civil s * msPerDay) []) as (dates & Hrun & Hall); [done|].
  exists (S (S n)), dates. split.
  - intros fuel Hfuel. unfold generateDateRange.
    rewrite !Date_of_canonical by done.
    by apply (generateDateRange_loop_fuel h (S (S n))).
  - intros d Hd. destruct (Hall d Hd) as (t & Ht & ->).
    exists (civil_of_time t).
    destruct (civil_between s e t Hs He Ht) as [Hc Hday]. done.
Qed.

(** X3. On every host, with or without daylight saving time: when the
    loop ends, the range is empty if the end is before the start and it
    begins with the start date otherwise.  On a host on which the same
    local time one day later is a later instant, the loop ends, with the
    same range for every greater number of iterations allowed, and every
    date of the range is a canonical calendar date from the start to the
    end. *)
Theorem generateDateRange_any_host (h : Host) (s e : Z * Z * Z) :
  canonical s = true -> canonical e = true ->
  (forall (fuel : nat) (dates : list string),
     generateDateRange h fuel (iso_of_civil s) (iso_of_civil e) = Some dates ->
     (day_of_civil e < day_of_civil s -> dates = [])
     /\ (day_of_civil s <= day_of_civil e -> head dates = Some (iso_of_civil s)))
  /\ (progressing h ->
      exists (fuel0 : nat) (dates : list string),
        (forall fuel : nat, (fuel0 <= fuel)%nat ->
           generateDateRange h fuel (iso_of_civil s) (iso_of_civil e) = Some dates)
        /\ (forall d : string, d ∈ dates ->
              exists c : Z * Z * Z,
                canonical c = true /\ d = iso_of_civil c
                /\ day_of_civil s <= day_of_civil c <= day_of_civil e)).
Proof.
  intros Hs He. split; [|intros Hp; by apply generateDateRange_progressing].
  intros fuel dates Hrun. unfold generateDateRange in Hrun.
  rewrite !Date_of_canonical in Hrun by done.
  apply generateDateRange_loop_dates in Hrun as (rest & -> & _ & Hhead & Hnil).
  rewrite app_nil_l.
  assert (Hvs : (let '(y, m, d) := s in valid_date y m d) = true).
  { destruct s as [[y m] d]. by apply canonical_cases in Hs as [_ ?]. }
  split.
  - intros Hlt. apply (Hnil _ _ eq_refl eq_refl). unfold msPerDay. lia.
  - intros Hle. rewrite (Hhead _ _ eq_refl eq_refl) by (unfold msPerDay; lia).
    by rewrite civil_of_day_of_civil.
Qed.

Lemma generateDateRange_any_host_witness :
  exists (fuel0 : nat) (dates : list string),
    (forall fuel : nat, (fuel0 <= fuel)%nat ->
       generateDateRange America_New_York fuel "2024-11-01" "2024-11-05" = Some dates)
    /\ (forall d : string, d ∈ dates ->
          exists c : Z * Z * Z,
            canonical c = true /\ d = iso_of_civil c
            /\ day_of_civil (2024, 11, 1) <= day_of_civil c
               <= day_of_civil (2024, 11, 5)).
Proof.
  destruct (generateDateRange_any_host America_New_York (2024, 11, 1) (2024, 11, 5))
    as [_ Hends]; [reflexivity|reflexivity|].
  exact (Hends progressing_New_York).
Defined.

(** ** More on the aggregation *)

(** X4. The discovered series are the names of the records, each once; and
    records that come later never reorder them: the series of a list of
    records followed by more records are the series of the list, followed
    by the new series of the other records. *)
Theorem uniqueUCs_distinct (jsonData more : list DataItem) :
  NoDup (uniqueUCs jsonData)
  /\ (forall uc : string,
        uc ∈ uniqueUCs jsonData <-> exists item, item ∈ jsonData /\ name item = uc)
  /\ uniqueUCs (jsonData ++ more)
     = uniqueUCs jsonData
       ++ filter (fun uc => uc ∉ uniqueUCs jsonData) (uniqueUCs more).
Proof.
  split; [|split].
  - rewrite uniqueUCs_first_occurrences. apply first_occurrences_NoDup.
  - intros uc. rewrite uniqueUCs_first_occurrences, first_occurrences_elem.
    change map with (@fmap list _). rewrite list_elem_of_fmap. split.
    + intros (item & -> & Hitem). eauto.
    + intros (item & Hitem & <-). eauto.
  - unfold uniqueUCs at 1. rewrite map_app, fold_left_app.
    fold (uniqueUCs jsonData). rewrite Set_add_fold.
    by rewrite <- uniqueUCs_first_occurrences.
Qed.

Lemma dataLookup_loop_keeps (jsonData : list DataItem) :
  forall (m m' : gmap string Q) (k : string),
    dataLookup_loop jsonData m = Return m' ->
    is_Some (m !! k) -> is_Some (m' !! k).
Proof.
  induction jsonData as [|item rest IH]; intros m m' k Hm Hk.
  - simpl in Hm. by injection Hm as <-.
  - rewrite dataLookup_loop_cons in Hm.
    destruct (item_key item) as [k'|]; [|done]. cbn [mbind completion_bind] in Hm.
    apply (IH _ _ _ Hm). rewrite lookup_insert. by case_decide.
Qed.

Lemma dataLookup_loop_from (jsonData : list DataItem) :
  forall (m m' : gmap string Q) (k : string) (v : Q),
    dataLookup_loop jsonData m = Return m' ->
    m' !! k = Some v ->
    m !! k = Some v
    \/ exists item, item ∈ jsonData /\ item_key item = Return k /\ value item = v.
Proof.
  induction jsonData as [|item rest IH]; intros m m' k v Hm Hk.
  - simpl in Hm. injection Hm as <-. by left.
  - rewrite dataLookup_loop_cons in Hm.
    destruct (item_key item) as [k'|] eqn:Hkey; [|done].
    cbn [mbind completion_bind] in Hm.
    destruct (IH _ _ _ _ Hm Hk) as [Hins|(item' & Hin & Hkey' & Hv)].
    + rewrite lookup_insert in Hins. case_decide as Heq.
      * injection Hins as <-. subst k'. right. exists item.
        split; [by left|done].
      * by left.
    + right. exists item'. split; [by right|done].
Qed.

(** X5. The lookup has an entry under a key exactly when some record is
    stored under that key, and every value it holds is the value of such a
    record. *)
Theorem dataLookup_domain (jsonData : list DataItem) (lookup : gmap string Q) :
  dataLookup jsonData = Return lookup ->
  forall k : string,
    (is_Some (lookup !! k)
     <-> exists item, item ∈ jsonData /\ item_key item = Return k)
    /\ (forall v : Q, lookup !! k = Some v ->
          exists item, item ∈ jsonData /\ item_key item = Return k /\ value item = v).
Proof.
  intros Hl k.
  assert (forall v : Q, lookup !! k = Some v ->
            exists item, item ∈ jsonData /\ item_key item = Return k /\ value item = v)
    as Hfrom.
  { intros v Hv. destruct (dataLookup_loop_from _ _ _ _ _ Hl Hv) as [Hempty|?]; [|done].
    by rewrite lookup_empty in Hempty. }
  split; [|done]. split.
  - intros [v Hv]. destruct (Hfrom v Hv) as (item & ? & ? & _). eauto.
  - intros (item & Hin & Hkey).
    apply list_elem_of_split in Hin as (before & after & ->).
    unfold dataLookup in Hl. rewrite dataLookup_loop_app in Hl.
    destruct (dataLookup_loop before ∅) as [m1|]; [|done].
    cbn [mbind completion_bind] in Hl.
    rewrite dataLookup_loop_cons, Hkey in Hl. cbn [mbind completion_bind] in Hl.
    apply (dataLookup_loop_keeps _ _ _ _ Hl). rewrite lookup_insert_eq. eauto.
Qed.

Lemma dataLookup_domain_witness :
  dataLookup example_records = Return example_lookup
  /\ (is_Some (example_lookup !! "B-2024-07-01")
      <-> exists item, item ∈ example_records /\ item_key item = Return "B-2024-07-01").
Proof.
  split; [reflexivity|].
  apply (dataLookup_domain example_records example_lookup eq_refl "B-2024-07-01").
Defined.

Lemma StronglySorted_app_order {A : Type} (R : A -> A -> Prop) (l1 l2 : list A)
  (x y : A) :
  StronglySorted R (l1 ++ l2) -> x ∈ l1 -> y ∈ l2 -> R x y.
Proof.
  induction l1 as [|z l1 IH]; intros Hs Hx Hy; [by apply elem_of_nil in Hx|].
  apply StronglySorted_inv in Hs as [Hs Hz].
  apply elem_of_cons in Hx as [->|Hx]; [|by apply IH].
  rewrite Forall_forall in Hz. apply Hz. apply elem_of_app. by right.
Qed.

(** X6. The selected series are the best: for [topN >= 0], no series that
    was left out has a greater total than a series that was selected. *)
Theorem topUCs_are_top (lookup : gmap string Q) (dateRange : list string)
  (jsonData : list DataItem) (topN : Z) (uc uc' : string) :
  0 <= topN ->
  uc ∈ topUCs (ucTotals lookup dateRange (uniqueUCs jsonData)) topN ->
  uc' ∈ uniqueUCs jsonData ->
  uc' ∉ topUCs (ucTotals lookup dateRange (uniqueUCs jsonData)) topN ->
  (uc_total lookup dateRange uc' <= uc_total lookup dateRange uc)%Q.
Proof.
  intros HN Hin Hall Hout.
  set (totals := ucTotals lookup dateRange (uniqueUCs jsonData)) in *.
  rewrite topUCs_take in Hin, Hout by done.
  set (sorted := sort (by_key_desc total) totals) in *.
  change map with (@fmap list _) in Hin, Hout.
  apply list_elem_of_fmap in Hin as (u & -> & Hu).
  assert (u ∈ totals) as Hut.
  { rewrite <- (sort_perm total totals). fold sorted.
    rewrite <- (take_drop (Z.to_nat topN) sorted). apply elem_of_app. by left. }
  rewrite <- (ucTotals_total _ _ _ _ Hut).
  set (u' := {| ucName := uc'; total := uc_total lookup dateRange uc' |}).
  assert (u' ∈ totals) as Hu't.
  { unfold totals, ucTotals. change map with (@fmap list _).
    apply list_elem_of_fmap. by exists uc'. }
  assert (u' ∈ drop (Z.to_nat topN) sorted) as Hu'.
  { rewrite <- (sort_perm total totals) in Hu't. fold sorted in Hu't.
    rewrite <- (take_drop (Z.to_nat topN) sorted) in Hu't.
    apply elem_of_app in Hu't as [Htake|?]; [|done].
    exfalso. apply Hout. apply list_elem_of_fmap. by exists u'. }
  pose proof (sort_sorted total totals) as Hsorted. fold sorted in Hsorted.
  rewrite <- (take_drop (Z.to_nat topN) sorted) in Hsorted.
  apply (StronglySorted_app_order _ _ _ u u' Hsorted Hu Hu').
Qed.

Lemma topUCs_are_top_witness :
  (uc_total example_lookup example_axis "C" <= uc_total example_lookup example_axis "A")%Q.
Proof.
  apply (topUCs_are_top example_lookup example_axis example_records 2 "A" "C").
  - lia.
  - by left.
  - by do 2 right; left.
  - intros Hin. repeat apply elem_of_cons in Hin as [?|Hin]; try discriminate.
    by apply elem_of_nil in Hin.
Defined.

(** X7. The selected series are discovered series, each at most once; when
    [topN] is at least the number of series, all of them are selected. *)
Theorem topUCs_selection (lookup : gmap string Q) (dateRange : list string)
  (jsonData : list DataItem) (topN : Z) :
  NoDup (topUCs (ucTotals lookup dateRange (uniqueUCs jsonData)) topN)
  /\ (forall uc : string,
        uc ∈ topUCs (ucTotals lookup dateRange (uniqueUCs jsonData)) topN ->
        uc ∈ uniqueUCs jsonData)
  /\ (Z.of_nat (length (uniqueUCs jsonData)) <= topN ->
      Permutation (topUCs (ucTotals lookup dateRange (uniqueUCs jsonData)) topN)
        (uniqueUCs jsonData)).
Proof.
  set (totals := ucTotals lookup dateRange (uniqueUCs jsonData)).
  assert (map ucName totals = uniqueUCs jsonData) as Hnames by apply ucTotals_names.
  split; [|split].
  - apply topUCs_NoDup. rewrite Hnames. apply uniqueUCs_NoDup.
  - intros uc Hin. destruct (topUCs_sublist totals topN) as [rest Hperm].
    rewrite <- Hnames, <- Hperm. apply elem_of_app. by left.
  - intros Hlarge. rewrite topUCs_take by lia. rewrite take_ge.
    + rewrite <- Hnames. apply Permutation_map, sort_perm.
    + rewrite (Permutation_length (sort_perm total totals)).
      unfold totals, ucTotals. rewrite length_map. lia.
Qed.

(** ** The chart that the aggregation returns *)

Lemma aggregate_inv (jsonData : list DataItem) (dateRange : list string)
  (topN : Z) (r : ProcessedData.t) :
  aggregate jsonData dateRange topN = Return r ->
  exists lookup : gmap string Q,
    dataLookup jsonData = Return lookup
    /\ ProcessedData.uniqueUCs r
       = topUCs (ucTotals lookup dateRange (uniqueUCs jsonData)) topN
    /\ ProcessedData.chartData r
       = smooth (formattedData lookup (ProcessedData.uniqueUCs r) dateRange)
           (ProcessedData.uniqueUCs r)
    /\ NoDup (ProcessedData.uniqueUCs r)
    /\ (forall uc : string,
          uc ∈ ProcessedData.uniqueUCs r -> uc ∈ uniqueUCs jsonData).
Proof.
  unfold aggregate. destruct (dataLookup jsonData) as [lookup|e]; [|done].
  cbn [mbind completion_bind]. intros [= <-]. exists lookup. simpl.
  set (totals := ucTotals lookup dateRange (uniqueUCs jsonData)).
  assert (map ucName totals = uniqueUCs jsonData) as Hnames by apply ucTotals_names.
  repeat split; try done.
  - apply topUCs_NoDup. rewrite Hnames. apply uniqueUCs_NoDup.
  - intros uc Hin. destruct (topUCs_sublist totals topN) as [rest Hperm].
    rewrite <- Hnames, <- Hperm. apply elem_of_app. by left.
Qed.

Lemma formattedData_column (lookup : gmap string Q) (top dateRange : list string)
  (uc : string) :
  uc ∈ top -> uc <> "__proto__" ->
  column uc (formattedData lookup top dateRange)
  = map (fun date => or_zero (lookup !! lookup_key uc date)) dateRange.
Proof.
  intros Hin Hproto. unfold column, formattedData. rewrite map_map. apply map_ext.
  intros date. unfold read_number. rewrite dataPoint_of_lookup.
  by rewrite decide_True.
Qed.

Lemma aggregate_no_proto (jsonData : list DataItem) (dateRange : list string)
  (topN : Z) (r : ProcessedData.t) (point : ChartDataPoint) :
  aggregate jsonData dateRange topN = Return r ->
  point ∈ ProcessedData.chartData r -> point !! "__proto__" = None.
Proof.
  intros Hr Hin. apply not_elem_of_dom.
  rewrite (aggregate_rows _ _ _ _ _ Hr Hin).
  rewrite elem_of_union, elem_of_singleton, elem_of_list_to_set, list_elem_of_filter.
  intros [?|[? _]]; done.
Qed.

(** X8. What the chart holds, when the formatted dates of the records are
    as long as the dates of the axis (as those of records dated
    [M/D/YYYY] are).  The column of every returned series not named
    [__proto__] is the moving average, over the axis, of the values of the
    series: on each date the value of the last record of the series on
    that date, 0 when it has none.  No row has a property [__proto__].
    Every row holds its date under [date], unless a series is itself named
    [date]. *)
Theorem aggregate_chart_columns (jsonData : list DataItem)
  (dateRange : list string) (topN : Z) (r : ProcessedData.t) :
  aggregate jsonData dateRange topN = Return r ->
  (forall (item : DataItem) (d date : string),
     item ∈ jsonData -> formatDate (confirmation_date item) = Return d ->
     date ∈ dateRange -> String.length d = String.length date) ->
  (forall uc : string,
     uc ∈ ProcessedData.uniqueUCs r -> uc <> "__proto__" ->
     map (fun point : ChartDataPoint => point !! uc) (ProcessedData.chartData r)
     = map (fun q => Some (CellNumber q))
         (calculateSimpleMovingAverage
            (map (fun date => or_zero (series_value jsonData uc date)) dateRange)))
  /\ (forall point : ChartDataPoint,
        point ∈ ProcessedData.chartData r -> point !! "__proto__" = None)
  /\ ("date" ∉ ProcessedData.uniqueUCs r ->
      map (fun point : ChartDataPoint => point !! "date") (ProcessedData.chartData r)
      = map (fun date => Some (CellString date)) dateRange).
Proof.
  intros Hr Hlen.
  destruct (aggregate_inv _ _ _ _ Hr) as (lookup & Hl & _ & Hrows & Hnd & _).
  split; [|split].
  - intros uc Hin Hproto. rewrite Hrows, smooth_selected by done.
    rewrite formattedData_column by done. do 2 f_equal.
    apply map_ext_in. intros date Hdate%list_elem_of_In.
    rewrite (dataLookup_series uc date jsonData lookup Hl); [done|].
    intros item d Hitem Hd. by apply (Hlen item d date).
  - intros point. by apply (aggregate_no_proto jsonData dateRange topN).
  - intros Hnin. rewrite Hrows, smooth_not_selected by done.
    unfold formattedData. rewrite map_map. apply map_ext. intros date.
    rewrite dataPoint_of_lookup. by rewrite decide_False, decide_True by tauto.
Qed.

Lemma aggregate_chart_columns_witness :
  map (fun point : ChartDataPoint => point !! "A")
    [ <["B" := CellNumber 30]> (<["A" := CellNumber 10]>
        {["date" := CellString "2024-07-01"]});
      <["B" := CellNumber 0]> (<["A" := CellNumber 20]>
        {["date" := CellString "2024-07-02"]}) ]
  = map (fun q => Some (CellNumber q))
      (calculateSimpleMovingAverage
         (map (fun date => or_zero (series_value example_records "A" date))
            example_axis)).
Proof.
  destruct (aggregate_chart_columns example_records example_axis 2
              (ProcessedData.make
                 [ <["B" := CellNumber 30]> (<["A" := CellNumber 10]>
                     {["date" := CellString "2024-07-01"]});
                   <["B" := CellNumber 0]> (<["A" := CellNumber 20]>
                     {["date" := CellString "2024-07-02"]}) ]
                 ["A"; "B"]))
    as (Hcolumns & _ & _); [reflexivity| |].
  - intros item d date Hitem Hd Hdate.
    repeat apply elem_of_cons in Hdate as [->|Hdate];
      try (by apply elem_of_nil in Hdate);
      repeat apply elem_of_cons in Hitem as [->|Hitem];
      try (by apply elem_of_nil in Hitem);
      simpl in Hd; injection Hd as <-; reflexivity.
  - apply (Hcolumns "A"); [by left|discriminate].
Defined.

Lemma smooth_column_take (rows : list ChartDataPoint) (uc : string) :
  (forall point : ChartDataPoint, point ∈ take 13 rows ->
     exists q : Q, point !! uc = Some (CellNumber q)) ->
  take 13 (smooth_column rows uc) = take 13 rows.
Proof.
  intros Hnum. apply list_eq. intros i.
  destruct (decide (i < 13)%nat) as [Hi|Hi];
    [|by rewrite !lookup_take_ge by lia].
  rewrite !lookup_take_lt by done.
  destruct (rows !! i) as [point|] eqn:Hrow.
  - destruct (smooth_column_lookup rows uc i point Hrow) as (q & Hq & ->).
    f_equal.
    destruct (Hnum point) as [q' Hq'].
    { apply list_elem_of_lookup. exists i. by rewrite lookup_take_lt. }
    rewrite set_property_insert by (right; eauto). apply insert_id.
    rewrite Hq'. do 2 f_equal.
    rewrite sma_lookup in Hq
      by (unfold column; rewrite length_map; by eapply lookup_lt_Some).
    injection Hq as <-. unfold sma_value.
    destruct (Nat.ltb_spec i 13); [|lia].
    symmetry. apply nth_lookup_Some. unfold column.
    change map with (@fmap list _). rewrite list_lookup_fmap, Hrow. simpl.
    unfold read_number. by rewrite Hq'.
  - apply lookup_ge_None. rewrite smooth_column_length. by apply lookup_ge_None.
Qed.

Lemma smooth_take (top : list string) (rows : list ChartDataPoint) :
  Forall (fun point => point !! "__proto__" = None) rows ->
  (forall (point : ChartDataPoint) (uc : string),
     point ∈ take 13 rows -> uc ∈ top -> uc <> "__proto__" ->
     exists q : Q, point !! uc = Some (CellNumber q)) ->
  take 13 (smooth rows top) = take 13 rows.
Proof.
  revert rows. induction top as [|u top IH]; intros rows Hproto Hnum; [done|].
  change (smooth rows (u :: top)) with (smooth (smooth_column rows u) top).
  destruct (decide (u = "__proto__")) as [->|Hu].
  - rewrite smooth_column_proto by done. apply IH; [done|].
    intros point uc Hp Huc. apply Hnum; [done|by right].
  - assert (take 13 (smooth_column rows u) = take 13 rows) as Htake.
    { apply smooth_column_take. intros point Hp. apply Hnum; [done|by left|done]. }
    rewrite IH; [done| |].
    + apply (Forall_cells "__proto__" (fun c => c = None) rows); [|done].
      symmetry. apply smooth_column_other. done.
    + intros point uc Hp Huc. rewrite Htake in Hp.
      apply Hnum; [done|by right].
Qed.

(** X9. The first 13 rows of the chart are not smoothed: they are the
    first 13 rows of the dense matrix, as the densification made them.  A
    chart of at most 13 days is not smoothed at all. *)
Theorem aggregate_first_rows_raw (jsonData : list DataItem)
  (dateRange : list string) (topN : Z) (r : ProcessedData.t) :
  aggregate jsonData dateRange topN = Return r ->
  exists lookup : gmap string Q,
    dataLookup jsonData = Return lookup
    /\ take 13 (ProcessedData.chartData r)
       = take 13 (formattedData lookup (ProcessedData.uniqueUCs r) dateRange)
    /\ ((length dateRange <= 13)%nat ->
        ProcessedData.chartData r
        = formattedData lookup (ProcessedData.uniqueUCs r) dateRange).
Proof.
  intros Hr. destruct (aggregate_inv _ _ _ _ Hr) as (lookup & Hl & _ & Hrows & _ & _).
  exists lookup. split; [done|].
  set (dense := formattedData lookup (ProcessedData.uniqueUCs r) dateRange) in *.
  assert (forall point : ChartDataPoint, point ∈ dense ->
            exists date : string,
              point = dataPoint_of lookup (ProcessedData.uniqueUCs r) date) as Hdense.
  { intros point Hp. unfold dense, formattedData in Hp.
    change map with (@fmap list _) in Hp.
    apply list_elem_of_fmap in Hp as (date & -> & _). eauto. }
  assert (take 13 (ProcessedData.chartData r) = take 13 dense) as Htake.
  { rewrite Hrows. apply smooth_take.
    - apply Forall_forall. intros point [date ->]%Hdense.
      rewrite dataPoint_of_lookup. rewrite decide_False by tauto.
      by rewrite decide_False.
    - intros point uc Hp Huc Hproto.
      apply elem_of_take in Hp as (i & Hp & _).
      destruct (Hdense point) as [date ->].
      { apply list_elem_of_lookup. eauto. }
      rewrite dataPoint_of_lookup, decide_True by done. eauto. }
  split; [done|]. intros Hlen.
  rewrite !take_ge in Htake; [done|..].
  - unfold dense, formattedData. by rewrite length_map.
  - rewrite Hrows, smooth_length. unfold dense, formattedData. by rewrite length_map.
Qed.

Lemma aggregate_first_rows_raw_witness :
  exists lookup : gmap string Q,
    dataLookup example_records = Return lookup
    /\ [ <["B" := CellNumber 30]> (<["A" := CellNumber 10]>
           {["date" := CellString "2024-07-01"]});
         <["B" := CellNumber 0]> (<["A" := CellNumber 20]>
           {["date" := CellString "2024-07-02"]}) ]
       = formattedData lookup ["A"; "B"] example_axis.
Proof.
  destruct (aggregate_first_rows_raw example_records example_axis 2
              (ProcessedData.make
                 [ <["B" := CellNumber 30]> (<["A" := CellNumber 10]>
                     {["date" := CellString "2024-07-01"]});
                   <["B" := CellNumber 0]> (<["A" := CellNumber 20]>
                     {["date" := CellString "2024-07-02"]}) ]
                 ["A"; "B"]))
    as (lookup & Hl & _ & Hall); [reflexivity|].
  exists lookup. split; [exact Hl|].
  apply Hall. simpl. lia.
Defined.

(** ** The callback on a host without daylight saving time *)

Lemma generateDateRange_fixed_dates (offset : Z) (s e : Z * Z * Z) (fuel : nat) :
  canonical s = true -> canonical e = true ->
  (Z.to_nat (day_of_civil e - day_of_civil s + 1) < fuel)%nat ->
  generateDateRange (fixed_zone offset) fuel (iso_of_civil s) (iso_of_civil e)
  = Some (date_strings (day_of_civil s * msPerDay)
            (Z.to_nat (day_of_civil e - day_of_civil s + 1))).
Proof.
  intros Hs He Hfuel.
  assert (-719528 <= day_of_civil s <= 2932898) as Ha.
  { destruct s as [[y m] d]. apply canonical_cases in Hs as [? ?].
    by apply MakeDay_bounds. }
  assert (-719528 <= day_of_civil e <= 2932898) as Hb.
  { destruct e as [[y m] d]. apply canonical_cases in He as [? ?].
    by apply MakeDay_bounds. }
  unfold generateDateRange. rewrite !Date_of_canonical by done.
  rewrite (generateDateRange_loop_fixed offset _
             (Z.to_nat (day_of_civil e - day_of_civil s + 1))); [done|done|..];
    unfold msPerDay; lia.
Qed.

(** X11. The whole callback on a host with a fixed offset from UTC, run at a
    time [now] of a year from 0 to 9999: when every record's date has a
    [/], it returns a chart with one row per day from 2024-07-01 to the
    UTC date of [now], and with no row before 2024-07-01; when some
    record's date has no [/], it throws. *)
Theorem processData_fixed_zone (offset now : Z) (fuel : nat)
  (jsonData : list DataItem) (topN : Z) :
  canonical (civil_of_time now) = true ->
  (Z.to_nat (Day now - day_of_civil (2024, 7, 1)%Z + 1) < fuel)%nat ->
  (Forall (fun item => occurs "/" (confirmation_date item) = true) jsonData ->
   exists r : ProcessedData.t,
     processData (fixed_zone offset) fuel now jsonData topN = Some (Return r)
     /\ Z.of_nat (length (ProcessedData.chartData r))
        = Z.max 0 (Day now - day_of_civil (2024, 7, 1) + 1))
  /\ (Exists (fun item => occurs "/" (confirmation_date item) = false) jsonData ->
      processData (fixed_zone offset) fuel now jsonData topN = Some (Throw TypeError)).
Proof.
  intros Hnow Hfuel. unfold processData. rewrite toISOString_date.
  change "2024-07-01" with (iso_of_civil (2024, 7, 1)).
  rewrite generateDateRange_fixed_dates;
    [|done|done|by rewrite day_of_civil_of_time].
  rewrite day_of_civil_of_time. split.
  - intros Hall.
    destruct (aggregate_Return jsonData
                (date_strings (day_of_civil (2024, 7, 1) * msPerDay)
                   (Z.to_nat (Day now - day_of_civil (2024, 7, 1) + 1)))
                topN Hall) as (lookup & _ & ->).
    eexists. split; [done|]. cbn [ProcessedData.chartData].
    rewrite smooth_length. unfold formattedData, date_strings.
    rewrite !length_map, length_seq. lia.
  - intros Hex. by rewrite aggregate_Throw.
Qed.

Lemma processData_fixed_zone_witness :
  exists r : ProcessedData.t,
    processData Asia_Karachi 10 (MakeDate (MakeDay 2024 6 3) (12 * msPerHour))
      [ {| name := "X"; confirmation_date := "7/1/2024"; value := 5 |};
        {| name := "X"; confirmation_date := "7/3/2024"; value := 7 |} ] 5
    = Some (Return r)
    /\ Z.of_nat (length (ProcessedData.chartData r)) = 3.
Proof.
  destruct (processData_fixed_zone (5 * msPerHour)
              (MakeDate (MakeDay 2024 6 3) (12 * msPerHour)) 10
              [ {| name := "X"; confirmation_date := "7/1/2024"; value := 5 |};
                {| name := "X"; confirmation_date := "7/3/2024"; value := 7 |} ] 5)
    as [Hret _]; [reflexivity | vm_compute; lia |].
  apply Hret. repeat constructor.
Defined.

(** ** The component *)

Lemma handle_index_ok (ev : event) (st : State.t) :
  index_ok st -> index_ok (handle ev st).
Proof.
  destruct st as [data error topN isPlaying currentIndex selectedUCs].
  unfold index_ok. destruct ev; simpl; try done.
  - lia.
  - unfold tick. simpl. destruct data as [d|]; [|done].
    destruct isPlaying; [|done]. unfold interval_callback. simpl.
    destruct (Z.geb_spec currentIndex (Z.of_nat (length (ProcessedData.chartData d)) - 1));
      simpl; lia.
  - unfold togglePlay, chart_length. simpl. destruct isPlaying; simpl; [done|].
    destruct data as [d|]; simpl.
    + destruct (Z.geb_spec currentIndex (Z.of_nat (length (ProcessedData.chartData d)) - 1));
        lia.
    + intros ->. done.
  - destruct data as [d|]; lia.
Qed.

Lemma run_index_ok (evs : list event) (st : State.t) :
  index_ok st -> index_ok (run evs st).
Proof.
  revert st. induction evs as [|ev evs IH]; intros st Hst; [done|].
  apply IH. by apply handle_index_ok.
Qed.

(** X12. In every state the component reaches, with a chart that has rows, the
    index is a valid row index and the displayed frame is the first
    [currentIndex + 1] rows of the chart. *)
Theorem reachable_frame (evs : list event) (d : ProcessedData.t) :
  State.data (run evs initial_state) = Some d ->
  ProcessedData.chartData d <> [] ->
  0 <= State.currentIndex (run evs initial_state)
    <= Z.of_nat (length (ProcessedData.chartData d)) - 1
  /\ getAnimatedData (run evs initial_state)
     = take (S (Z.to_nat (State.currentIndex (run evs initial_state))))
         (ProcessedData.chartData d)
  /\ Z.of_nat (length (getAnimatedData (run evs initial_state)))
     = State.currentIndex (run evs initial_state) + 1.
Proof.
  intros Hd Hrows.
  pose proof (run_index_ok evs initial_state eq_refl) as Hok.
  unfold index_ok in Hok. rewrite Hd in Hok. cbv zeta in Hok.
  assert (0 < length (ProcessedData.chartData d))%nat as Hlen
    by (destruct (ProcessedData.chartData d); [done|simpl; lia]).
  destruct Hok as [[_ Hzero]|Hok]; [lia|].
  split; [done|].
  assert (getAnimatedData (run evs initial_state)
          = take (S (Z.to_nat (State.currentIndex (run evs initial_state))))
              (ProcessedData.chartData d)) as Hframe.
  { unfold getAnimatedData. rewrite Hd, slice_prefix by lia. f_equal. lia. }
  split; [done|]. rewrite Hframe, length_take. lia.
Qed.

Lemma reachable_frame_witness :
  State.data (run [Loaded (ProcessedData.make [∅; ∅; ∅] []); ResetAnimation; TogglePlay; Tick]
                initial_state)
  = Some (ProcessedData.make [∅; ∅; ∅] [])
  /\ Z.of_nat (length (getAnimatedData
       (run [Loaded (ProcessedData.make [∅; ∅; ∅] []); ResetAnimation; TogglePlay; Tick]
          initial_state))) = 2.
Proof.
  split; [reflexivity|].
  destruct (reachable_frame
              [Loaded (ProcessedData.make [∅; ∅; ∅] []); ResetAnimation; TogglePlay; Tick]
              (ProcessedData.make [∅; ∅; ∅] [])) as (_ & _ & Hlen);
    [reflexivity | discriminate | exact Hlen].
Defined.

(** The state after [k] periods of a playing animation. *)
Lemma tick_iter (st : State.t) (d : ProcessedData.t) (k : nat) :
  State.data st = Some d -> State.isPlaying st = true ->
  0 <= State.currentIndex st <= Z.of_nat (length (ProcessedData.chartData d)) - 1 ->
  Nat.iter k tick st
  = State.make (State.data st) (State.error st) (State.topN st)
      (Z.of_nat k <=? Z.of_nat (length (ProcessedData.chartData d)) - 1
                      - State.currentIndex st)
      (Z.min (State.currentIndex st + Z.of_nat k)
         (Z.of_nat (length (ProcessedData.chartData d)) - 1))
      (State.selectedUCs st).
Proof.
  destruct st as [data error topN isPlaying currentIndex selectedUCs]. simpl.
  intros -> -> Hidx. set (len := Z.of_nat (length (ProcessedData.chartData d))) in *.
  induction k as [|k IH].
  - change (Nat.iter 0 tick ?s) with s. change (Z.of_nat 0) with 0.
    destruct (Z.leb_spec 0 (len - 1 - currentIndex)); [|lia].
    rewrite Z.add_0_r, Z.min_l by lia. reflexivity.
  - rewrite Nat.iter_succ, IH. unfold tick. cbn [State.data State.isPlaying].
    destruct (Z.leb_spec (Z.of_nat k) (len - 1 - currentIndex)) as [Hk|Hk].
    + unfold interval_callback. cbn [State.data State.error State.topN
        State.isPlaying State.currentIndex State.selectedUCs]. fold len.
      rewrite (Z.min_l (currentIndex + Z.of_nat k)) by lia.
      destruct (Z.geb_spec (currentIndex + Z.of_nat k) (len - 1)) as [Hend|Hmid].
      * destruct (Z.leb_spec (Z.of_nat (S k)) (len - 1 - currentIndex)); [lia|].
        by rewrite Z.min_r by lia.
      * destruct (Z.leb_spec (Z.of_nat (S k)) (len - 1 - currentIndex)); [|lia].
        rewrite Z.min_l by lia.
        replace (currentIndex + Z.of_nat (S k)) with (currentIndex + Z.of_nat k + 1)
          by lia. reflexivity.
    + destruct (Z.leb_spec (Z.of_nat (S k)) (len - 1 - currentIndex)); [lia|].
      by rewrite !Z.min_r by lia.
Qed.

(** X13. Playing: as long as rows are left, every period shows one row
    more and the animation keeps playing, also on the last row; the period
    after the last row was reached stops it there, and later periods
    change nothing.  The frame shown grows by one row per period. *)
Theorem play_to_end (st : State.t) (d : ProcessedData.t) (k : nat) :
  State.data st = Some d -> State.isPlaying st = true ->
  0 <= State.currentIndex st <= Z.of_nat (length (ProcessedData.chartData d)) - 1 ->
  (Z.of_nat k <= Z.of_nat (length (ProcessedData.chartData d)) - 1
                 - State.currentIndex st ->
   State.currentIndex (Nat.iter k tick st) = State.currentIndex st + Z.of_nat k
   /\ State.isPlaying (Nat.iter k tick st) = true
   /\ getAnimatedData (Nat.iter k tick st)
      = take (Z.to_nat (State.currentIndex st) + k + 1) (ProcessedData.chartData d))
  /\ (Z.of_nat (length (ProcessedData.chartData d)) - 1 - State.currentIndex st
      < Z.of_nat k ->
      Nat.iter k tick st
      = State.make (State.data st) (State.error st) (State.topN st) false
          (Z.of_nat (length (ProcessedData.chartData d)) - 1) (State.selectedUCs st)
      /\ tick (Nat.iter k tick st) = Nat.iter k tick st
      /\ getAnimatedData (Nat.iter k tick st) = ProcessedData.chartData d).
Proof.
  intros Hd Hp Hidx. rewrite (tick_iter st d k Hd Hp Hidx).
  set (len := Z.of_nat (length (ProcessedData.chartData d))) in *.
  split; intros Hk.
  - rewrite Z.min_l by lia. split; [done|].
    split; [simpl; by apply Z.leb_le|].
    unfold getAnimatedData. cbn [State.data State.currentIndex]. rewrite Hd.
    rewrite slice_prefix by lia. f_equal. lia.
  - destruct (Z.leb_spec (Z.of_nat k) (len - 1 - State.currentIndex st)); [lia|].
    rewrite Z.min_r by lia. split; [done|]. split.
    + unfold tick. cbn [State.data State.isPlaying]. by rewrite Hd.
    + unfold getAnimatedData. cbn [State.data State.currentIndex]. rewrite Hd.
      rewrite slice_prefix by lia. apply take_ge. lia.
Qed.

Lemma play_to_end_witness :
  Nat.iter 5 tick
    (State.make (Some (ProcessedData.make [∅; ∅; ∅] [])) None 10 true 0 [])
  = State.make (Some (ProcessedData.make [∅; ∅; ∅] [])) None 10 false 2 [].
Proof.
  destruct (play_to_end
              (State.make (Some (ProcessedData.make [∅; ∅; ∅] [])) None 10 true 0 [])
              (ProcessedData.make [∅; ∅; ∅] []) 5) as [_ Hend];
    [reflexivity | reflexivity | simpl; lia |].
  apply Hend. simpl. lia.
Defined.

(** X14. Play at the end: [togglePlay] on a finished animation starts it again
    from the first row, and after as many periods as the chart has rows it
    is finished again, in the same state.  In the middle of the animation
    [togglePlay] twice, pause and resume, changes nothing. *)
Theorem togglePlay_replay (st : State.t) (d : ProcessedData.t) :
  State.data st = Some d ->
  0 <= State.currentIndex st <= Z.of_nat (length (ProcessedData.chartData d)) - 1 ->
  (State.isPlaying st = false ->
   State.currentIndex st = Z.of_nat (length (ProcessedData.chartData d)) - 1 ->
   State.currentIndex (togglePlay st) = 0
   /\ State.isPlaying (togglePlay st) = true
   /\ Nat.iter (length (ProcessedData.chartData d)) tick (togglePlay st) = st)
  /\ (State.isPlaying st = true ->
      State.currentIndex st < Z.of_nat (length (ProcessedData.chartData d)) - 1 ->
      State.isPlaying (togglePlay st) = false
      /\ State.currentIndex (togglePlay st) = State.currentIndex st
      /\ togglePlay (togglePlay st) = st).
Proof.
  intros Hd Hidx. split.
  - intros Hp Hend.
    assert (togglePlay st
            = State.make (State.data st) (State.error st) (State.topN st) true 0
                (State.selectedUCs st)) as Htp.
    { unfold togglePlay, chart_length. rewrite Hp, Hd.
      by destruct (Z.geb_spec (State.currentIndex st)
                     (Z.of_nat (length (ProcessedData.chartData d)) - 1)); [|lia]. }
    rewrite Htp. split; [done|]. split; [done|].
    rewrite (tick_iter _ d) by (simpl; first [done | lia]).
    cbn [State.data State.error State.topN State.currentIndex State.selectedUCs].
    destruct (Z.leb_spec (Z.of_nat (length (ProcessedData.chartData d)))
                (Z.of_nat (length (ProcessedData.chartData d)) - 1 - 0)); [lia|].
    rewrite Z.min_r by lia.
    destruct st as [data error topN isPlaying currentIndex selectedUCs].
    simpl in *. by subst.
  - intros Hp Hmid. unfold togglePlay at 1 2 3. rewrite Hp.
    cbn [State.isPlaying State.currentIndex].
    split; [done|]. split; [done|].
    unfold togglePlay, chart_length. rewrite Hp.
    cbn [State.data State.error State.topN State.isPlaying State.currentIndex
         State.selectedUCs]. rewrite Hd.
    destruct (Z.geb_spec (State.currentIndex st)
                (Z.of_nat (length (ProcessedData.chartData d)) - 1)); [lia|].
    destruct st as [data error topN isPlaying currentIndex selectedUCs].
    simpl in *. by subst.
Qed.

Lemma togglePlay_replay_witness :
  Nat.iter 3 tick
    (togglePlay (State.make (Some (ProcessedData.make [∅; ∅; ∅] [])) None 10 false 2 []))
  = State.make (Some (ProcessedData.make [∅; ∅; ∅] [])) None 10 false 2 [].
Proof.
  destruct (togglePlay_replay
              (State.make (Some (ProcessedData.make [∅; ∅; ∅] [])) None 10 false 2 [])
              (ProcessedData.make [∅; ∅; ∅] [])) as [Hreplay _];
    [reflexivity | simpl; lia |].
  destruct Hreplay as (_ & _ & Hcycle); [reflexivity | reflexivity | exact Hcycle].
Defined.

(** X15. Toggling a series flips its membership in the selection and nothing
    else: the other series stay, in their order, a selection without
    duplicates stays so, and toggling a series that was not selected twice
    gives the selection back. *)
Theorem toggle_selected_flips (uc : string) (prevSelected : list string) :
  (forall x : string,
     x ∈ toggle_selected uc prevSelected
     <-> (x = uc /\ uc ∉ prevSelected) \/ (x <> uc /\ x ∈ prevSelected))
  /\ (NoDup prevSelected -> NoDup (toggle_selected uc prevSelected))
  /\ filter (fun name => name <> uc) (toggle_selected uc prevSelected)
     = filter (fun name => name <> uc) prevSelected
  /\ (uc ∉ prevSelected ->
      toggle_selected uc (toggle_selected uc prevSelected) = prevSelected).
Proof.
  unfold toggle_selected. split; [|split; [|split]].
  - intros x. destruct (decide (uc ∈ prevSelected)) as [Hin|Hnin].
    + rewrite list_elem_of_filter. split; [tauto|].
      intros [[-> ?]|[? ?]]; [done|tauto].
    + rewrite elem_of_app, list_elem_of_singleton. split.
      * intros [Hx| ->]; [|tauto]. right. split; [|done]. by intros ->.
      * tauto.
  - intros Hnd. destruct (decide (uc ∈ prevSelected)) as [Hin|Hnin].
    + by apply NoDup_filter.
    + apply NoDup_app. split; [done|]. split; [|apply NoDup_singleton].
      intros x Hx ->%list_elem_of_singleton. done.
  - destruct (decide (uc ∈ prevSelected)) as [Hin|Hnin].
    + rewrite list_filter_filter. apply list_filter_iff. tauto.
    + rewrite filter_app, filter_cons_False, filter_nil, app_nil_r; [done|tauto].
  - intros Hnin. rewrite (decide_False (P := uc ∈ prevSelected)) by done.
    rewrite decide_True by (rewrite elem_of_app, list_elem_of_singleton; tauto).
    rewrite filter_app, filter_cons_False, filter_nil, app_nil_r by tauto.
    induction prevSelected as [|y l IH]; [done|].
    apply not_elem_of_cons in Hnin as [Hne Hnin].
    rewrite filter_cons_True by (by intros ->). f_equal. by apply IH.
Qed.



(** X18. A record whose date has no [/] makes the load fail.  On a host
    on which the same local time one day later is a later instant, at a
    time of a year from 0 to 9999, the date loop ends, the callback throws,
    and the [.catch] handler sets the error: the data that was there is
    left as it was, and the component shows the error. *)
Theorem then_callback_failed (h : Host) (now : Z) (jsonData : list DataItem)
  (st : State.t) :
  progressing h -> canonical (civil_of_time now) = true ->
  Exists (fun item => occurs "/" (confirmation_date item) = false) jsonData ->
  exists fuel0 : nat,
    forall fuel : nat, (fuel0 <= fuel)%nat ->
      exists st' : State.t,
        then_callback h fuel now jsonData st = Some st'
        /\ State.error st' = Some TypeError
        /\ State.data st' = State.data st
        /\ render st' = ErrorView TypeError.
Proof.
  intros Hp Hnow Hex.
  destruct (generateDateRange_progressing h (2024, 7, 1) (civil_of_time now) Hp
              eq_refl Hnow) as (fuel0 & dates & Hrun & _).
  exists fuel0. intros fuel Hfuel. exists (on_failed TypeError st).
  unfold then_callback, processData. rewrite toISOString_date.
  change "2024-07-01" with (iso_of_civil (2024, 7, 1)).
  rewrite (Hrun fuel Hfuel), aggregate_Throw by done. done.
Qed.


Lemma then_callback_failed_witness :
  exists fuel0 : nat,
    forall fuel : nat, (fuel0 <= fuel)%nat ->
      exists st' : State.t,
        then_callback Asia_Karachi fuel (MakeDate (MakeDay 2024 6 3) (12 * msPerHour))
          [ {| name := "X"; confirmation_date := "20240701"; value := 5 |} ]
          initial_state = Some st'
        /\ State.error st' = Some TypeError
        /\ State.data st' = State.data initial_state
        /\ render st' = ErrorView TypeError.
Proof.
  apply (then_callback_failed Asia_Karachi
           (MakeDate (MakeDay 2024 6 3) (12 * msPerHour))
           [ {| name := "X"; confirmation_date := "20240701"; value := 5 |} ]
           initial_state).
  - apply progressing_fixed.
  - reflexivity.
  - by left.
Defined.

Lemma handle_error (ev : event) (st : State.t) :
  is_Some (State.error st) -> is_Some (State.error (handle ev st)).
Proof.
  destruct st as [data error topN isPlaying currentIndex selectedUCs].
  destruct ev; simpl; try done.
  - unfold tick. simpl. destruct data as [d|]; [|done].
    destruct isPlaying; [|done]. unfold interval_callback. simpl.
    by destruct (_ >=? _).
  - unfold togglePlay. simpl. by destruct isPlaying.
Qed.

(** X19. An error is never cleared.  Once the component holds an error, it
    shows an error, and no chart, after every further event: also after
    data that arrives later. *)
Theorem error_is_final (evs : list event) (st : State.t) :
  is_Some (State.error st) ->
  exists e : exn, render (run evs st) = ErrorView e.
Proof.
  revert st. induction evs as [|ev evs IH]; intros st Herr.
  - destruct Herr as [e He]. exists e. unfold run. simpl. unfold render.
    by rewrite He.
  - change (run (ev :: evs) st) with (run evs (handle ev st)).
    apply IH. by apply handle_error.
Qed.

Lemma error_is_final_witness :
  exists e : exn,
    render (run [Failed TypeError; Loaded (ProcessedData.make [∅; ∅] []); TogglePlay]
              (on_failed TypeError initial_state))
    = ErrorView e.
Proof.
  apply (error_is_final
           [Failed TypeError; Loaded (ProcessedData.make [∅; ∅] []); TogglePlay]
           (on_failed TypeError initial_state)).
  by exists TypeError.
Defined.

(** ** The lines and the labels *)

Lemma COLORS_NoDup : NoDup COLORS.
Proof. apply (bool_decide_unpack (NoDup COLORS)). by vm_compute. Qed.

Lemma stroke_eq (i j : nat) :
  stroke i = stroke j <-> (i mod 10 = j mod 10)%nat.
Proof.
  unfold stroke. change (length COLORS) with 10%nat. split; [|by intros ->].
  intros Heq.
  assert (i mod 10 < length COLORS)%nat as Hi
    by (change (length COLORS) with 10%nat; apply Nat.mod_upper_bound; lia).
  destruct (lookup_lt_is_Some_2 COLORS _ Hi) as [c Hc].
  rewrite Hc in Heq. symmetry in Heq.
  by apply (proj1 (NoDup_alt COLORS) COLORS_NoDup _ _ c).
Qed.

Lemma chart_lines_strokes (st : State.t) :
  map snd (chart_lines st) = map stroke (seq 0 (length (displayedUCs st))).
Proof.
  unfold chart_lines. apply list_eq. intros i.
  change map with (@fmap list _).
  rewrite !list_lookup_fmap, list_lookup_imap.
  destruct (displayedUCs st !! i) as [uc|] eqn:Hi; simpl.
  - by rewrite lookup_seq_lt by (by eapply lookup_lt_Some).
  - by rewrite lookup_seq_ge by (by apply lookup_ge_None).
Qed.

(** X20. Every line of the chart has a colour of the palette; two lines have
    the same colour exactly when their positions differ by a multiple of
    10.  So the colours of the displayed lines are distinct exactly when at
    most 10 series are displayed: with Top 15 or Top 20 and that many
    series, colours repeat. *)
Theorem chart_lines_colours (st : State.t) :
  map fst (chart_lines st) = displayedUCs st
  /\ (forall i : nat, exists c : string, stroke i = Some c /\ c ∈ COLORS)
  /\ (forall i j : nat, stroke i = stroke j <-> (i mod 10 = j mod 10)%nat)
  /\ (NoDup (map snd (chart_lines st)) <-> (length (displayedUCs st) <= 10)%nat).
Proof.
  split; [|split; [|split]].
  - unfold chart_lines. apply list_eq. intros i.
    change map with (@fmap list _). rewrite list_lookup_fmap, list_lookup_imap.
    by destruct (displayedUCs st !! i).
  - intros i. unfold stroke.
    assert (i mod length COLORS < length COLORS)%nat as Hi
      by (change (length COLORS) with 10%nat; apply Nat.mod_upper_bound; lia).
    destruct (lookup_lt_is_Some_2 COLORS _ Hi) as [c Hc].
    exists c. split; [done|]. apply list_elem_of_lookup. eauto.
  - apply stroke_eq.
  - rewrite chart_lines_strokes. set (n := length (displayedUCs st)). split.
    + intros Hnd. destruct (decide (n <= 10)%nat) as [|Hn]; [done|]. exfalso.
      assert (map stroke (seq 0 n) !! 0%nat = Some (stroke 0)) as H0.
      { change map with (@fmap list _).
        by rewrite list_lookup_fmap, lookup_seq_lt by lia. }
      assert (map stroke (seq 0 n) !! 10%nat = Some (stroke 0)) as H10.
      { change map with (@fmap list _).
        by rewrite list_lookup_fmap, lookup_seq_lt by lia. }
      pose proof (proj1 (NoDup_alt _) Hnd _ _ _ H0 H10). lia.
    + intros Hn. apply NoDup_alt. intros i j c.
      change map with (@fmap list _). rewrite !list_lookup_fmap.
      intros Hi Hj.
      assert (i < n)%nat as Hin.
      { destruct (decide (i < n)%nat); [done|].
        by rewrite lookup_seq_ge in Hi by lia. }
      assert (j < n)%nat as Hjn.
      { destruct (decide (j < n)%nat); [done|].
        by rewrite lookup_seq_ge in Hj by lia. }
      rewrite lookup_seq_lt in Hi, Hj by done. simpl in Hi, Hj.
      assert (stroke i = stroke j) as Heq by congruence.
      apply stroke_eq in Heq.
      rewrite !Nat.mod_small in Heq by lia. done.
Qed.

Lemma civil_of_time_Day (t : Z) : civil_of_time t = civil_of_time (Day t * msPerDay).
Proof.
  unfold civil_of_time, DateFromTime, MonthFromTime, DayWithinYear, InLeapYear,
    YearFromTime.
  by rewrite Day_of_day.
Qed.

(** X21. The labels of the axis and of the tooltip are dates of the local
    time zone, whereas the dates of the chart are dates of UTC.  On a host
    that is at UTC or ahead of it at midnight UTC of a date of the chart,
    the label shows that date; on a host that is behind UTC, the label
    shows the day before. *)
Theorem labelFormatter_local_day (h : Host) (c : Z * Z * Z) :
  canonical c = true ->
  (0 <= LocalTZA h (day_of_civil c * msPerDay) true < msPerDay ->
   labelFormatter h (iso_of_civil c) = Some c
   /\ tickFormatter h (iso_of_civil c) = Some (snd (fst c), snd c))
  /\ (- msPerDay <= LocalTZA h (day_of_civil c * msPerDay) true < 0 ->
      exists p : Z * Z * Z,
        labelFormatter h (iso_of_civil c) = Some p
        /\ tickFormatter h (iso_of_civil c) = Some (snd (fst p), snd p)
        /\ next_day p = c
        /\ day_of_civil p = day_of_civil c - 1).
Proof.
  intros Hc.
  assert (Hv : (let '(y, m, d) := c in valid_date y m d) = true).
  { destruct c as [[y m] d]. by apply canonical_cases in Hc as [_ ?]. }
  unfold labelFormatter, tickFormatter, local_date, LocalTime.
  rewrite Date_of_canonical by done.
  set (a := day_of_civil c) in *. set (off := LocalTZA h (a * msPerDay) true).
  split; intros Hoff.
  - rewrite civil_of_time_Day.
    replace (Day (a * msPerDay + off)) with a
      by (unfold Day, msPerDay in *; Z.div_mod_to_equations; lia).
    subst a. rewrite civil_of_day_of_civil by done. by destruct c as [[y m] d].
  - exists (civil_of_time ((a - 1) * msPerDay)).
    rewrite (civil_of_time_Day (a * msPerDay + off)).
    replace (Day (a * msPerDay + off)) with (a - 1)
      by (unfold Day, msPerDay in *; Z.div_mod_to_equations; lia).
    split; [done|]. split; [by destruct (civil_of_time _) as [[y m] d]|]. split.
    + rewrite <- civil_next_day.
      replace ((a - 1) * msPerDay + msPerDay) with (a * msPerDay) by lia.
      subst a. by apply civil_of_day_of_civil.
    + by rewrite day_of_civil_of_time, Day_of_day.
Qed.

Lemma labelFormatter_local_day_witness :
  exists p : Z * Z * Z,
    labelFormatter America_New_York "2024-07-01" = Some p
    /\ next_day p = (2024, 7, 1).
Proof.
  destruct (labelFormatter_local_day America_New_York (2024, 7, 1)) as [_ Hwest];
    [reflexivity|].
  destruct Hwest as (p & Hp & _ & Hnext & _); [vm_compute; split; [discriminate|reflexivity]|].
  exists p. split; [exact Hp|exact Hnext].
Defined.
